(** * KiBot: variant filtering, reversible board mutations and print helpers

    A shallow embedding of the parts of [kibot/out_base.py]
    ([VariantOptions]) and [kibot/out_pcb_print.py] ([to_gray_hex],
    [load_svg], [set_scaling]) that decide which components are fitted,
    that edit the board before a render and undo the edit afterwards, and
    that recolour and scale the printed pages.

    Conventions.
    - Python [str] is [string]; a character is an [ascii].  Texts are read
      as ASCII: [\d] is [0-9] and [strip] removes the ASCII white space.
    - Python [int] is [Z]; Python [float] is the kernel's binary64 [float].
    - A [std::list] of 3D models is a [list] whose head is the front of the
      container; [pop()] takes from the back.
    - An exception is a value of [exc]; code that can raise returns
      [result]. *)

From Stdlib Require Import ZArith Floats Uint63 String Ascii List Lia Bool.
From stdpp Require Import base option list gmap strings pretty.
Import ListNotations.


Local Open Scope Z_scope.

(** ** Exceptions *)

Inductive exc : Type :=
  | KiPlotConfigurationError (msg : string)
  | IndexError
  | AttributeError
  | ValueError
  | ZeroDivisionError.

Inductive result (A : Type) : Type :=
  | Ok (a : A)
  | Raise (e : exc).
Arguments Ok {A} a.
Arguments Raise {A} e.

Definition rbind {A B} (r : result A) (k : A -> result B) : result B :=
  match r with
  | Ok a => k a
  | Raise e => Raise e
  end.

#[global] Instance result_ret : MRet result := fun A a => Ok a.
#[global] Instance result_bind : MBind result := fun A B k r => rbind r k.

Definition is_ok {A} (r : result A) : bool :=
  match r with Ok _ => true | Raise _ => false end.

(** ** Python strings *)

Module PyStr.

(** [s[:n]] for [n >= 0]. *)
Fixpoint take (n : nat) (s : string) : string :=
  match n, s with
  | S k, String c r => String c (take k r)
  | _, _ => ""
  end.

(** [s[n:]] for [n >= 0]. *)
Fixpoint drop (n : nat) (s : string) : string :=
  match n, s with
  | S k, String _ r => drop k r
  | _, _ => s
  end.

(** [s[:-k]]: Python reads [-0] as [0], so [s[:-0]] is the empty string;
    for [k > 0] the last [k] characters go, all of them when [s] is
    shorter. *)
Definition drop_last (k : nat) (s : string) : string :=
  match k with
  | O => ""
  | S _ => take (String.length s - k) s
  end.

(** [s.startswith(p)] together with the rest of [s] behind [p]. *)
Fixpoint strip_prefix (p s : string) : option string :=
  match p, s with
  | "", _ => Some s
  | String a p', String b s' => if Ascii.eqb a b then strip_prefix p' s' else None
  | String _ _, "" => None
  end.

Definition endswith (s suf : string) : bool :=
  String.eqb (drop (String.length s - String.length suf) s) suf
  && (String.length suf <=? String.length s)%nat.

(** [s.replace(old, new)] for a non-empty [old]: the occurrences are
    taken from left to right and do not overlap.  [skip] counts the
    characters of the occurrence just replaced that are still to pass. *)
Fixpoint replace_from (skip : nat) (old new s : string) : string :=
  match s with
  | "" => ""
  | String c r =>
      match skip with
      | S k => replace_from k old new r
      | O =>
          match strip_prefix old s with
          | Some _ => new +:+ replace_from (String.length old - 1) old new r
          | None => String c (replace_from 0 old new r)
          end
      end
  end.

Definition replace (old new s : string) : string := replace_from 0 old new s.

(** White space of [str.strip()] among the ASCII characters. *)
Definition isspace (c : ascii) : bool :=
  let n := nat_of_ascii c in
  ((9 <=? n) && (n <=? 13) || (28 <=? n) && (n <=? 32))%nat.

Fixpoint lstrip (s : string) : string :=
  match s with
  | String c r => if isspace c then lstrip r else s
  | "" => ""
  end.

(** [rstrip] keeps a character when it is not a space or when something
    is kept behind it. *)
Fixpoint rstrip (s : string) : string :=
  match s with
  | "" => ""
  | String c r =>
      match rstrip r with
      | "" => if isspace c then "" else String c ""
      | r' => String c r'
      end
  end.

Definition strip (s : string) : string := rstrip (lstrip s).

(** [s.lstrip(ch)] for a one-character argument. *)
Fixpoint lstrip_char (ch : ascii) (s : string) : string :=
  match s with
  | String c r => if Ascii.eqb c ch then lstrip_char ch r else s
  | "" => ""
  end.

(** [s.split(sep)] for a one-character separator: always at least one
    piece. *)
Fixpoint split (sep : ascii) (s : string) : list string :=
  match s with
  | "" => [""]
  | String c r =>
      if Ascii.eqb c sep then "" :: split sep r
      else match split sep r with
           | p :: ps => String c p :: ps
           | [] => [String c ""]
           end
  end.

(** The longest prefix of [s] whose characters satisfy [p], and the rest. *)
Fixpoint span (p : ascii -> bool) (s : string) : string * string :=
  match s with
  | String c r =>
      if p c then let '(a, b) := span p r in (String c a, b) else ("", s)
  | "" => ("", "")
  end.

Definition isdigit (c : ascii) : bool :=
  let n := nat_of_ascii c in ((48 <=? n) && (n <=? 57))%nat.

Definition digit_val (c : ascii) : Z := Z.of_nat (nat_of_ascii c) - 48.

Fixpoint digits_value (acc : Z) (s : string) : option Z :=
  match s with
  | "" => Some acc
  | String c r => if isdigit c then digits_value (10 * acc + digit_val c) r else None
  end.

(** [int(v)] on a string of decimal digits; anything else is a
    [ValueError] here (the callers below only pass digit runs). *)
Definition int (v : string) : result Z :=
  match v with
  | "" => Raise ValueError
  | _ => match digits_value 0 v with Some z => Ok z | None => Raise ValueError end
  end.

Definition hex_val (c : ascii) : option Z :=
  let n := nat_of_ascii c in
  if ((48 <=? n) && (n <=? 57))%nat then Some (Z.of_nat n - 48)
  else if ((65 <=? n) && (n <=? 70))%nat then Some (Z.of_nat n - 55)
  else if ((97 <=? n) && (n <=? 102))%nat then Some (Z.of_nat n - 87)
  else None.

(** ['%X' % d] for a digit [0 <= d < 16]. *)
Definition hex_digit (d : Z) : ascii :=
  if d <? 10 then ascii_of_nat (Z.to_nat d + 48) else ascii_of_nat (Z.to_nat d + 55).

End PyStr.

(** ** Python numbers *)

Module PyNum.

(** [float(n)]: exact for [|n| <= 2^53], the range of every integer met
    below (colour channels, board and paper sizes in internal units). *)
Definition float_of_int (n : Z) : float :=
  if n <? 0 then PrimFloat.opp (PrimFloat.of_uint63 (Uint63.of_Z (- n)))
  else PrimFloat.of_uint63 (Uint63.of_Z n).

(** [a / b] on two ints: Python's true division, the quotient rounded once
    to a double, which for operands that are exact doubles is the IEEE
    division of the two. *)
Definition truediv (a b : Z) : result float :=
  if b =? 0 then Raise ZeroDivisionError
  else Ok (PrimFloat.div (float_of_int a) (float_of_int b)).

(** [int(x)]: truncation toward zero of a finite double. *)
Definition int_of_float (x : float) : result Z :=
  match Prim2SF x with
  | S754_zero _ => Ok 0
  | S754_finite s m e =>
      let a := if 0 <=? e then Z.pos m * 2 ^ e else Z.shiftr (Z.pos m) (- e) in
      Ok (if s then - a else a)
  | _ => Raise ValueError
  end.



Fixpoint hex_upper_aux (fuel : nat) (n : Z) (acc : string) : string :=
  match fuel with
  | O => acc
  | S f =>
      let acc' := String (PyStr.hex_digit (n mod 16)) acc in
      if n / 16 =? 0 then acc' else hex_upper_aux f (n / 16) acc'
  end.

(** ['%X' % n] for [n >= 0]. *)
Definition hex_upper (n : Z) : string :=
  hex_upper_aux (S (Z.to_nat (Z.log2 n))) n "".

(** ['%02X' % n]: upper-case hexadecimal, zero padded to two characters,
    the sign counting as one. *)
Definition fmt_02X (n : Z) : string :=
  if n <? 0 then "-" +:+ hex_upper (- n)
  else let h := hex_upper n in
       if (String.length h <? 2)%nat then "0" +:+ h else h.

(** [int(s, 16)] on a slice of at most two characters: hexadecimal digits,
    with white space around them and one sign in front allowed (a prefix
    [0x] or an underscore needs three characters). *)
Definition int16 (s : string) : result Z :=
  let t := PyStr.strip s in
  let '(neg, d) :=
    match t with
    | String "-" r => (true, r)
    | String "+" r => (false, r)
    | _ => (false, t)
    end in
  let v :=
    match d with
    | String a "" => PyStr.hex_val a
    | String a (String b "") =>
        match PyStr.hex_val a, PyStr.hex_val b with
        | Some x, Some y => Some (16 * x + y)
        | _, _ => None
        end
    | _ => None
    end in
  match v with
  | Some z => Ok (if neg then - z else z)
  | None => Raise ValueError
  end.

End PyNum.

(** ** [out_pcb_print.py]: colours *)

(** [hex_to_rgb]: the three channels and alpha of [#rrggbb] or [#rrggbbaa],
    each divided by 255. *)
Definition hex_to_rgb (value : string) : result (float * float * float * float) :=
  let value := PyStr.lstrip_char "#" value in
  r ← PyNum.int16 (PyStr.take 2 value);
  g ← PyNum.int16 (PyStr.take 2 (PyStr.drop 2 value));
  b ← PyNum.int16 (PyStr.take 2 (PyStr.drop 4 value));
  rf ← PyNum.truediv r 255;
  gf ← PyNum.truediv g 255;
  bf ← PyNum.truediv b 255;
  alpha ← (if (String.length value =? 8)%nat
           then a ← PyNum.int16 (PyStr.drop 6 value); PyNum.truediv a 255
           else Ok PrimFloat.one);
  Ok (rf, gf, bf, alpha).

Definition to_gray_hex (color : string) : result string :=
  '(r, g, b, alpha) ← hex_to_rgb color;
  let avg := PrimFloat.div (PrimFloat.add (PrimFloat.add r g) b) (PyNum.float_of_int 3) in
  n ← PyNum.int_of_float (PrimFloat.mul avg (PyNum.float_of_int 255));
  let avg_str := PyNum.fmt_02X n in
  Ok ("#" +:+ avg_str +:+ avg_str +:+ avg_str).

(** [load_svg], from the text of the file on. *)
Definition load_svg (content color : string) (colored_holes : bool)
    (holes_color : string) (monochrome : bool) : result string :=
  let color := PyStr.take 7 color in
  '(color, holes_color) ←
    (if monochrome
     then c ← to_gray_hex color; h ← to_gray_hex holes_color; Ok (c, h)
     else Ok (color, holes_color));
  let content :=
    if colored_holes then PyStr.replace "#FFFFFF" "**black_hole**" content
    else content in
  let content :=
    if negb (String.eqb color "#000000")
    then PyStr.replace "stroke:rgb(0%,0%,0%)" ("stroke:" +:+ color)
           (PyStr.replace "#000000" color content)
    else content in
  let content :=
    if colored_holes then PyStr.replace "**black_hole**" holes_color content
    else content in
  Ok content.

(** ** [out_pcb_print.py]: scaling *)


Example to_gray_hex_white : to_gray_hex "#FFFFFF" = Ok "#FFFFFF".
Proof. vm_compute. reflexivity. Qed.
Example to_gray_hex_mix : to_gray_hex "#FF8000" = Ok "#7F7F7F".
Proof. vm_compute. reflexivity. Qed.
Example load_svg_ex :
  load_svg "<path style='fill:#000000; stroke:rgb(0%,0%,0%)'/>" "#FF0000AA" false "#000000" false
  = Ok "<path style='fill:#FF0000; stroke:#FF0000'/>".
Proof. vm_compute. reflexivity. Qed.

(** ** Components and filters *)

(** A schematic component: reference, the two flags the filters decide, and
    its fields as name/value pairs. *)
Record Component := mkComponent {
  ref : string;
  fitted : bool;
  included : bool;
  fields : list (string * string)
}.

Definition set_fitted (v : bool) (c : Component) : Component :=
  mkComponent (ref c) v (included c) (fields c).

Definition set_included (v : bool) (c : Component) : Component :=
  mkComponent (ref c) (fitted c) v (fields c).

(** Modelled from the spec: [Component.get_field_value] (kibot/kicad, not
    among the sources); the data model gives a component an "ordered list
    of field name/value pairs", so the value is that of the first pair with
    the name, and the empty string when there is none. *)
Fixpoint get_field_value (fs : list (string * string)) (name : string) : string :=
  match fs with
  | [] => ""
  | (n, v) :: r => if String.eqb n name then v else get_field_value r name
  end.

(** A variant, as far as this code uses one: its name, its filter over the
    component list and the predicate [matches_variant]. *)
Record Variant := mkVariant {
  variant_name : string;
  variant_filter : list Component -> list Component;
  matches_variant : string -> bool
}.

(** Modelled from the spec: [reset_filters] (kibot/fil_base.py, not among
    the sources): "reset all fitted/included flags to a known baseline
    (fitted=true, included=true)". *)
Definition reset_filters (comps : list Component) : list Component :=
  map (fun c => set_included true (set_fitted true c)) comps.

(** Modelled from the spec: [apply_pre_transform] (kibot/fil_base.py, not
    among the sources): "apply pre_transform filter chain (field
    rewriting)"; a filter is a "function over a Component ... performing a
    field transform", applied to every component when one is configured. *)
Definition apply_pre_transform (comps : list Component)
    (f : option (Component -> Component)) : list Component :=
  match f with
  | Some t => map t comps
  | None => comps
  end.

(** Modelled from the spec: [apply_fitted_filter] (kibot/fil_base.py, not
    among the sources): "apply dnf_filter to mark components not-fitted";
    the filter is a "function over a Component producing a boolean
    (match)", and a match marks the component. *)
Definition apply_fitted_filter (comps : list Component)
    (f : option (Component -> bool)) : list Component :=
  match f with
  | Some p => map (fun c => if p c then set_fitted false c else c) comps
  | None => comps
  end.

(** ** The board *)

Record wxRect := mkRect { rx : Z; ry : Z; rwidth : Z; rheight : Z }.

(** A graphical item of a footprint.  [gi_id] is the identity of the
    object behind the Python proxy: the undo lists keep references to
    items, and a reference is an identity. *)
Record GItem := mkGItem {
  gi_id : nat;
  gi_class : string;
  gi_layer : Z;
  gi_text : string;
  gi_bbox : wxRect
}.

Definition SetLayer (l : Z) (g : GItem) : GItem :=
  mkGItem (gi_id g) (gi_class g) l (gi_text g) (gi_bbox g).

(** A 3D model entry.  Scale, rotation and offset are not represented:
    nothing below reads them. *)
Record Model := mkModel { m_Filename : string }.

(** A footprint ("module"): reference, graphical items, the layer set of
    each pad, and the 3D models, front of the container first. *)
Record Footprint := mkFootprint {
  GetReference : string;
  GraphicalItems : list GItem;
  Pads : list (gset Z);
  Models : list Model
}.

Definition set_items (gs : list GItem) (m : Footprint) : Footprint :=
  mkFootprint (GetReference m) gs (Pads m) (Models m).

Definition set_pads (ps : list (gset Z)) (m : Footprint) : Footprint :=
  mkFootprint (GetReference m) (GraphicalItems m) ps (Models m).

Definition set_models (ms : list Model) (m : Footprint) : Footprint :=
  mkFootprint (GetReference m) (GraphicalItems m) (Pads m) ms.

(** The board: its footprints in the order [GS.get_modules_board] yields
    them, and its layer table. *)
Record Board := mkBoard {
  modules : list Footprint;
  GetLayerID : string -> Z
}.

Definition set_modules (ms : list Footprint) (b : Board) : Board :=
  mkBoard ms (GetLayerID b).

(** The globals of [GS] read here, and the name the operating system gives
    to the temporary highlight file. *)
Record Globals := mkGlobals {
  global_cross_footprints_for_dnp : bool;
  global_remove_solder_paste_for_dnp : bool;
  global_remove_adhesive_for_dnp : bool;
  work_layer : string;
  global_field_3D_model : string;
  highlight_tmp_name : string
}.

(** ** The state of [VariantOptions] *)

Record CrossUndo := mkCrossUndo {
  extra_ffab_lines : list (option (list nat));
  extra_bfab_lines : list (option (list nat))
}.

Record PasteUndo := mkPasteUndo {
  old_layers : list (list (gset Z));
  old_fadhes : list nat;
  old_badhes : list nat;
  fadhes : Z;
  badhes : Z
}.

Record FabUndo := mkFabUndo {
  old_ffab : list nat;
  old_bfab : list nat;
  ffab : Z;
  bfab : Z
}.

(** The attributes of the object.  [hide_excluded] is [None] when the
    class has no such attribute; [warnings] collects what is sent to
    [logger.warning]. *)
Record VariantOptions := mkVariantOptions {
  variant : option Variant;
  dnf_filter : option (Component -> bool);
  pre_transform : option (Component -> Component);
  hide_excluded : option bool;
  _comps : option (list Component);
  comps_hash : option (gmap string Component);
  undo_3d_models : gmap string string;
  undo_3d_models_rep : gmap string (list string);
  _highlight_3D_file : option string;
  _highlighted_3D_components : option (list string);
  cross_undo : CrossUndo;
  paste_undo : PasteUndo;
  fab_undo : FabUndo;
  rem_models : list (list Model);
  len_disable : nat;
  warnings : list string
}.

(** [VariantOptions.__init__] followed by [config]. *)
Definition init_options (v : option Variant) (dnf : option (Component -> bool))
    (pre : option (Component -> Component)) (hide : option bool) : VariantOptions :=
  mkVariantOptions v dnf pre hide None None ∅ ∅ None None
    (mkCrossUndo [] []) (mkPasteUndo [] [] [] 0 0) (mkFabUndo [] [] 0 0) [] 0%nat [].

Definition set_comps (cs : option (list Component)) (s : VariantOptions) : VariantOptions :=
  mkVariantOptions (variant s) (dnf_filter s) (pre_transform s) (hide_excluded s)
    cs (comps_hash s) (undo_3d_models s) (undo_3d_models_rep s)
    (_highlight_3D_file s) (_highlighted_3D_components s)
    (cross_undo s) (paste_undo s) (fab_undo s) (rem_models s) (len_disable s) (warnings s).

Definition set_comps_hash (h : option (gmap string Component)) (s : VariantOptions) : VariantOptions :=
  mkVariantOptions (variant s) (dnf_filter s) (pre_transform s) (hide_excluded s)
    (_comps s) h (undo_3d_models s) (undo_3d_models_rep s)
    (_highlight_3D_file s) (_highlighted_3D_components s)
    (cross_undo s) (paste_undo s) (fab_undo s) (rem_models s) (len_disable s) (warnings s).

Definition set_undo_3d (u : gmap string string) (r : gmap string (list string))
    (s : VariantOptions) : VariantOptions :=
  mkVariantOptions (variant s) (dnf_filter s) (pre_transform s) (hide_excluded s)
    (_comps s) (comps_hash s) u r
    (_highlight_3D_file s) (_highlighted_3D_components s)
    (cross_undo s) (paste_undo s) (fab_undo s) (rem_models s) (len_disable s) (warnings s).

Definition set_highlight_file (f : option string) (s : VariantOptions) : VariantOptions :=
  mkVariantOptions (variant s) (dnf_filter s) (pre_transform s) (hide_excluded s)
    (_comps s) (comps_hash s) (undo_3d_models s) (undo_3d_models_rep s)
    f (_highlighted_3D_components s)
    (cross_undo s) (paste_undo s) (fab_undo s) (rem_models s) (len_disable s) (warnings s).

Definition set_highlighted (h : option (list string)) (s : VariantOptions) : VariantOptions :=
  mkVariantOptions (variant s) (dnf_filter s) (pre_transform s) (hide_excluded s)
    (_comps s) (comps_hash s) (undo_3d_models s) (undo_3d_models_rep s)
    (_highlight_3D_file s) h
    (cross_undo s) (paste_undo s) (fab_undo s) (rem_models s) (len_disable s) (warnings s).

Definition set_cross_undo (u : CrossUndo) (s : VariantOptions) : VariantOptions :=
  mkVariantOptions (variant s) (dnf_filter s) (pre_transform s) (hide_excluded s)
    (_comps s) (comps_hash s) (undo_3d_models s) (undo_3d_models_rep s)
    (_highlight_3D_file s) (_highlighted_3D_components s)
    u (paste_undo s) (fab_undo s) (rem_models s) (len_disable s) (warnings s).

Definition set_paste_undo (u : PasteUndo) (s : VariantOptions) : VariantOptions :=
  mkVariantOptions (variant s) (dnf_filter s) (pre_transform s) (hide_excluded s)
    (_comps s) (comps_hash s) (undo_3d_models s) (undo_3d_models_rep s)
    (_highlight_3D_file s) (_highlighted_3D_components s)
    (cross_undo s) u (fab_undo s) (rem_models s) (len_disable s) (warnings s).

Definition set_fab_undo (u : FabUndo) (s : VariantOptions) : VariantOptions :=
  mkVariantOptions (variant s) (dnf_filter s) (pre_transform s) (hide_excluded s)
    (_comps s) (comps_hash s) (undo_3d_models s) (undo_3d_models_rep s)
    (_highlight_3D_file s) (_highlighted_3D_components s)
    (cross_undo s) (paste_undo s) u (rem_models s) (len_disable s) (warnings s).

Definition set_rem_models (r : list (list Model)) (s : VariantOptions) : VariantOptions :=
  mkVariantOptions (variant s) (dnf_filter s) (pre_transform s) (hide_excluded s)
    (_comps s) (comps_hash s) (undo_3d_models s) (undo_3d_models_rep s)
    (_highlight_3D_file s) (_highlighted_3D_components s)
    (cross_undo s) (paste_undo s) (fab_undo s) r (len_disable s) (warnings s).

Definition set_len_disable (n : nat) (s : VariantOptions) : VariantOptions :=
  mkVariantOptions (variant s) (dnf_filter s) (pre_transform s) (hide_excluded s)
    (_comps s) (comps_hash s) (undo_3d_models s) (undo_3d_models_rep s)
    (_highlight_3D_file s) (_highlighted_3D_components s)
    (cross_undo s) (paste_undo s) (fab_undo s) (rem_models s) n (warnings s).

Definition add_warnings (w : list string) (s : VariantOptions) : VariantOptions :=
  mkVariantOptions (variant s) (dnf_filter s) (pre_transform s) (hide_excluded s)
    (_comps s) (comps_hash s) (undo_3d_models s) (undo_3d_models_rep s)
    (_highlight_3D_file s) (_highlighted_3D_components s)
    (cross_undo s) (paste_undo s) (fab_undo s) (rem_models s) (len_disable s)
    (warnings s ++ w).

(** [not self._comps]: no list, or an empty one. *)
Definition no_comps (s : VariantOptions) : bool :=
  match _comps s with
  | None | Some [] => true
  | Some (_ :: _) => false
  end.

Definition comps_list (s : VariantOptions) : list Component :=
  match _comps s with Some l => l | None => [] end.

(** ** Resolving the component list *)

(** [VariantOptions.run]; [sch_comps] is the list the schematic gives
    ([GS.sch.get_components()] completed by [get_board_comps_data]). *)
Definition run (self : VariantOptions) (sch_comps : list Component) : VariantOptions :=
  match dnf_filter self, variant self, pre_transform self with
  | None, None, None => self
  | _, _, _ =>
      let comps := reset_filters sch_comps in
      let comps := apply_pre_transform comps (pre_transform self) in
      let comps := apply_fitted_filter comps (dnf_filter self) in
      let comps :=
        match variant self with
        | Some v => variant_filter v comps
        | None => comps
        end in
      set_comps (Some comps) self
  end.

(** [get_refs_hash]: a later component replaces an earlier one with the
    same reference. *)
Definition refs_dict (comps : list Component) : gmap string Component :=
  foldl (fun h c => <[ref c := c]> h) ∅ comps.

Definition get_refs_hash (self : VariantOptions) : option (gmap string Component) :=
  if no_comps self then None else Some (refs_dict (comps_list self)).

Definition get_fitted_refs (self : VariantOptions) : list string :=
  if no_comps self then []
  else map ref (filter (fun c => fitted c && included c) (comps_list self)).

Definition get_not_fitted_refs (self : VariantOptions) : list string :=
  if no_comps self then []
  else map ref (filter (fun c => negb (fitted c) || negb (included c)) (comps_list self)).

(** ** 2D mutations: crossing the footprints that are not fitted *)

(** [c and c.included and not c.fitted] for the component of a reference. *)
Definition is_dnp (h : gmap string Component) (r : string) : bool :=
  match h !! r with
  | Some c => included c && negb (fitted c)
  | None => false
  end.

(** [c is not None and not c.included]. *)
Definition is_excluded (h : gmap string Component) (r : string) : bool :=
  match h !! r with
  | Some c => negb (included c)
  | None => false
  end.

(** Modelled from the spec: [Rect] (kibot/misc.py, not among the sources),
    the rectangle that grows over the bounding boxes it is united with;
    [None] is the state in which its [x1] is still [None]. *)
Definition Rect : Type := option (Z * Z * Z * Z).

Definition Rect_Union (r : Rect) (w : wxRect) : Rect :=
  match r with
  | None => Some (rx w, ry w, rx w + rwidth w, ry w + rheight w)
  | Some (x1, y1, x2, y2) =>
      Some (Z.min x1 (rx w), Z.min y1 (ry w),
            Z.max x2 (rx w + rwidth w), Z.max y2 (ry w + rheight w))
  end.

(** The rectangle of the graphics (class [MGRAPHIC]) of a footprint on one
    layer. *)
Definition measure (layer : Z) (items : list GItem) : Rect :=
  fold_left
    (fun r gi =>
       if String.eqb (gi_class gi) "MGRAPHIC" && (gi_layer gi =? layer)
       then Rect_Union r (gi_bbox gi) else r)
    items None.

Definition all_ids (ms : list Footprint) : list nat :=
  flat_map (fun m => map gi_id (GraphicalItems m)) ms.

(** An identity no item of the board has. *)
Definition fresh_id (ms : list Footprint) : nat := S (max_list (all_ids ms)).

(** [cross_module]: two new segments (the host gives a new shape the class
    [MGRAPHIC]) over the diagonals of [rect], added to the footprint, each
    in front of its drawings; [n] and [n+1] are their identities. *)
Definition cross_module (n : nat) (m : Footprint) (rect : Z * Z * Z * Z) (layer : Z)
    : Footprint * list nat :=
  let '(x1, y1, x2, y2) := rect in
  let seg1 := mkGItem n "MGRAPHIC" layer "" (mkRect x1 y1 (x2 - x1) (y2 - y1)) in
  let seg2 := mkGItem (S n) "MGRAPHIC" layer "" (mkRect x1 y1 (x2 - x1) (y2 - y1)) in
  (set_items (seg2 :: seg1 :: GraphicalItems m) m, [n; S n]).

(** The body of the loop of [cross_modules] for one footprint that is not
    fitted: both rectangles are measured first, then each side is crossed
    when it has graphics.  The result carries the next free identity. *)
Definition cross_footprint (n : nat) (ffab_id bfab_id : Z) (m : Footprint)
    : Footprint * option (list nat) * option (list nat) * nat :=
  let frect := measure ffab_id (GraphicalItems m) in
  let brect := measure bfab_id (GraphicalItems m) in
  let '(m1, fl, n1) :=
    match frect with
    | Some r => let '(m', ids) := cross_module n m r ffab_id in (m', Some ids, S (S n))
    | None => (m, None, n)
    end in
  let '(m2, bl, n2) :=
    match brect with
    | Some r => let '(m', ids) := cross_module n1 m1 r bfab_id in (m', Some ids, S (S n1))
    | None => (m1, None, n1)
    end in
  (m2, fl, bl, n2).

Fixpoint cross_loop (h : gmap string Component) (ffab_id bfab_id : Z) (n : nat)
    (ms : list Footprint) : list Footprint * CrossUndo :=
  match ms with
  | [] => ([], mkCrossUndo [] [])
  | m :: rest =>
      if is_dnp h (GetReference m) then
        let '(m', fl, bl, n') := cross_footprint n ffab_id bfab_id m in
        let '(rest', u) := cross_loop h ffab_id bfab_id n' rest in
        (m' :: rest', mkCrossUndo (fl :: extra_ffab_lines u) (bl :: extra_bfab_lines u))
      else
        let '(rest', u) := cross_loop h ffab_id bfab_id n rest in
        (m :: rest', u)
  end.

Definition cross_modules (gs : Globals) (self : VariantOptions) (board : Board)
    (comps_hash : option (gmap string Component)) : VariantOptions * Board :=
  match comps_hash with
  | Some h =>
      if global_cross_footprints_for_dnp gs then
        let '(ms, u) :=
          cross_loop h (GetLayerID board "F.Fab") (GetLayerID board "B.Fab")
            (fresh_id (modules board)) (modules board) in
        (set_cross_undo u self, set_modules ms board)
      else (self, board)
  | None => (self, board)
  end.

(** [m.Remove(line)] for every line of a record ([None] and the empty
    list are both false). *)
Definition remove_lines (restore : option (list nat)) (m : Footprint) : Footprint :=
  match restore with
  | Some ids =>
      set_items (filter (fun gi => gi_id gi ∉ ids) (GraphicalItems m)) m
  | None => m
  end.

Fixpoint uncross_loop (h : gmap string Component) (ms : list Footprint) (u : CrossUndo)
    : result (list Footprint * CrossUndo) :=
  match ms with
  | [] => Ok ([], u)
  | m :: rest =>
      if is_dnp h (GetReference m) then
        match extra_ffab_lines u, extra_bfab_lines u with
        | fl :: fls, bl :: bls =>
            let m' := remove_lines bl (remove_lines fl m) in
            '(rest', u') ← uncross_loop h rest (mkCrossUndo fls bls);
            Ok (m' :: rest', u')
        | _, _ => Raise IndexError
        end
      else
        '(rest', u') ← uncross_loop h rest u;
        Ok (m :: rest', u')
  end.

Definition uncross_modules (gs : Globals) (self : VariantOptions) (board : Board)
    (comps_hash : option (gmap string Component)) : result (VariantOptions * Board) :=
  match comps_hash with
  | Some h =>
      if global_cross_footprints_for_dnp gs then
        '(ms, u) ← uncross_loop h (modules board) (cross_undo self);
        Ok (set_cross_undo u self, set_modules ms board)
      else Ok (self, board)
  | None => Ok (self, board)
  end.

(** ** 2D mutations: solder paste and adhesive *)

(** The warning of [remove_paste_and_glue]; [W_WRONGPASTE] is the tag
    kibot/misc.py gives it. *)
Definition wrong_paste_warning (W_WRONGPASTE r : string) : string :=
  W_WRONGPASTE +:+ "Pad with solder paste, but no copper or solder mask aperture in " +:+ r.

(** One pad: the paste layers go; a pad left without any layer gets the
    front mask when it had front paste, the back mask otherwise. *)
Definition strip_paste (fpaste bpaste fmask bmask : Z) (pad_layers : gset Z) : gset Z :=
  let is_front := bool_decide (fpaste ∈ pad_layers) in
  let stripped := pad_layers ∖ ({[fpaste]} ∪ {[bpaste]}) in
  if bool_decide (stripped = ∅)
  then {[ if is_front then fmask else bmask ]} ∪ stripped
  else stripped.

Definition pad_warns (fpaste bpaste : Z) (pad_layers : gset Z) : bool :=
  bool_decide (pad_layers ∖ ({[fpaste]} ∪ {[bpaste]}) = ∅).

(** The adhesive of one footprint: what is on either adhesive layer moves
    to the rescue layer; the layer read before the move decides both
    tests. *)
Definition move_off (l1 l2 rescue : Z) (items : list GItem) : list GItem :=
  map (fun gi =>
         let l_gi := gi_layer gi in
         let gi := if l_gi =? l1 then SetLayer rescue gi else gi in
         if l_gi =? l2 then SetLayer rescue gi else gi)
      items.

Definition ids_on (l : Z) (items : list GItem) : list nat :=
  map gi_id (filter (fun gi => gi_layer gi = l) items).

Record PasteOut := mkPasteOut {
  po_modules : list Footprint;
  po_old_layers : list (list (gset Z));
  po_old_fadhes : list nat;
  po_old_badhes : list nat;
  po_warnings : list string
}.

Fixpoint paste_loop (gs : Globals) (W_WRONGPASTE : string) (h : gmap string Component)
    (fpaste bpaste fmask bmask fadhes_id badhes_id rescue : Z) (ms : list Footprint)
    : PasteOut :=
  match ms with
  | [] => mkPasteOut [] [] [] [] []
  | m :: rest =>
      let o := paste_loop gs W_WRONGPASTE h fpaste bpaste fmask bmask
                 fadhes_id badhes_id rescue rest in
      if is_dnp h (GetReference m) then
        let r := GetReference m in
        let '(m1, ol, ws) :=
          if global_remove_solder_paste_for_dnp gs then
            (set_pads (map (strip_paste fpaste bpaste fmask bmask) (Pads m)) m,
             [Pads m],
             map (fun _ => wrong_paste_warning W_WRONGPASTE r)
               (filter (fun p => pad_warns fpaste bpaste p = true) (Pads m)))
          else (m, [], []) in
        let '(m2, fa, ba) :=
          if global_remove_adhesive_for_dnp gs then
            (set_items (move_off fadhes_id badhes_id rescue (GraphicalItems m1)) m1,
             ids_on fadhes_id (GraphicalItems m1),
             ids_on badhes_id (GraphicalItems m1))
          else (m1, [], []) in
        mkPasteOut (m2 :: po_modules o) (ol ++ po_old_layers o)
          (fa ++ po_old_fadhes o) (ba ++ po_old_badhes o) (ws ++ po_warnings o)
      else
        mkPasteOut (m :: po_modules o) (po_old_layers o)
          (po_old_fadhes o) (po_old_badhes o) (po_warnings o)
  end.

Definition remove_paste_and_glue (gs : Globals) (W_WRONGPASTE : string)
    (self : VariantOptions) (board : Board)
    (comps_hash : option (gmap string Component)) : VariantOptions * Board :=
  match comps_hash with
  | Some h =>
      if global_remove_solder_paste_for_dnp gs || global_remove_adhesive_for_dnp gs then
        let fadhes_id := GetLayerID board "F.Adhes" in
        let badhes_id := GetLayerID board "B.Adhes" in
        let o := paste_loop gs W_WRONGPASTE h
                   (GetLayerID board "F.Paste") (GetLayerID board "B.Paste")
                   (GetLayerID board "F.Mask") (GetLayerID board "B.Mask")
                   fadhes_id badhes_id (GetLayerID board (work_layer gs))
                   (modules board) in
        (add_warnings (po_warnings o)
           (set_paste_undo
              (mkPasteUndo (po_old_layers o) (po_old_fadhes o) (po_old_badhes o)
                 fadhes_id badhes_id) self),
         set_modules (po_modules o) board)
      else (self, board)
  | None => (self, board)
  end.

(** [for gi in old: gi.SetLayer(l)]: the items the list refers to get the
    layer, wherever they are on the board. *)
Definition set_layer_of (ids : list nat) (l : Z) (ms : list Footprint) : list Footprint :=
  map (fun m =>
         set_items
           (map (fun gi => if bool_decide (gi_id gi ∈ ids) then SetLayer l gi else gi)
              (GraphicalItems m)) m)
      ms.

(** The pads of one footprint take back the sets of [restore], one
    [pop(0)] each. *)
Fixpoint restore_pads (pads : list (gset Z)) (restore : list (gset Z))
    : result (list (gset Z)) :=
  match pads with
  | [] => Ok []
  | _ :: ps =>
      match restore with
      | res :: restore' => ps' ← restore_pads ps restore'; Ok (res :: ps')
      | [] => Raise IndexError
      end
  end.

Fixpoint restore_paste_loop (h : gmap string Component) (ms : list Footprint)
    (old : list (list (gset Z))) : result (list Footprint * list (list (gset Z))) :=
  match ms with
  | [] => Ok ([], old)
  | m :: rest =>
      if is_dnp h (GetReference m) then
        match old with
        | restore :: old' =>
            ps ← restore_pads (Pads m) restore;
            '(rest', old'') ← restore_paste_loop h rest old';
            Ok (set_pads ps m :: rest', old'')
        | [] => Raise IndexError
        end
      else
        '(rest', old') ← restore_paste_loop h rest old;
        Ok (m :: rest', old')
  end.

Definition restore_paste_and_glue (gs : Globals) (self : VariantOptions) (board : Board)
    (comps_hash : option (gmap string Component)) : result (VariantOptions * Board) :=
  match comps_hash with
  | Some h =>
      '(self1, ms1) ←
        (if global_remove_solder_paste_for_dnp gs then
           '(ms, old) ← restore_paste_loop h (modules board) (old_layers (paste_undo self));
           let u := paste_undo self in
           Ok (set_paste_undo
                 (mkPasteUndo old (old_fadhes u) (old_badhes u) (fadhes u) (badhes u)) self,
               ms)
         else Ok (self, modules board));
      let u := paste_undo self1 in
      let ms2 :=
        if global_remove_adhesive_for_dnp gs then
          set_layer_of (old_badhes u) (badhes u)
            (set_layer_of (old_fadhes u) (fadhes u) ms1)
        else ms1 in
      Ok (self1, set_modules ms2 board)
  | None => Ok (self, board)
  end.

(** ** 2D mutations: hiding the excluded components from the Fab layers *)

Fixpoint fab_loop (h : gmap string Component) (ffab_id bfab_id rescue : Z)
    (ms : list Footprint) : list Footprint * list nat * list nat :=
  match ms with
  | [] => ([], [], [])
  | m :: rest =>
      let '(rest', fo, bo) := fab_loop h ffab_id bfab_id rescue rest in
      if is_excluded h (GetReference m) then
        (set_items (move_off ffab_id bfab_id rescue (GraphicalItems m)) m :: rest',
         ids_on ffab_id (GraphicalItems m) ++ fo,
         ids_on bfab_id (GraphicalItems m) ++ bo)
      else (m :: rest', fo, bo)
  end.

Definition remove_fab (gs : Globals) (self : VariantOptions) (board : Board)
    (comps_hash : option (gmap string Component)) : VariantOptions * Board :=
  match comps_hash with
  | Some h =>
      let ffab_id := GetLayerID board "F.Fab" in
      let bfab_id := GetLayerID board "B.Fab" in
      let '(ms, fo, bo) :=
        fab_loop h ffab_id bfab_id (GetLayerID board (work_layer gs)) (modules board) in
      (set_fab_undo (mkFabUndo fo bo ffab_id bfab_id) self, set_modules ms board)
  | None => (self, board)
  end.

Definition restore_fab (self : VariantOptions) (board : Board)
    (comps_hash : option (gmap string Component)) : Board :=
  match comps_hash with
  | Some _ =>
      let u := fab_undo self in
      set_modules
        (set_layer_of (old_bfab u) (bfab u)
           (set_layer_of (old_ffab u) (ffab u) (modules board))) board
  | None => board
  end.

(** ** The container of 3D models *)

(** [models.pop()]: the last entry leaves the container. *)
Definition pop {A} (l : list A) : option (list A * A) :=
  match rev l with
  | x :: r => Some (rev r, x)
  | [] => None
  end.

(** [while not models.empty(): acc.append(models.pop())]. *)
Fixpoint drain_append {A} (fuel : nat) (models acc : list A) : list A :=
  match fuel with
  | O => acc
  | S f =>
      match pop models with
      | Some (rest, x) => drain_append f rest (acc ++ [x])
      | None => acc
      end
  end.

(** [while not models.empty(): acc.insert(0, models.pop())]. *)
Fixpoint drain_insert0 {A} (fuel : nat) (models acc : list A) : list A :=
  match fuel with
  | O => acc
  | S f =>
      match pop models with
      | Some (rest, x) => drain_insert0 f rest (x :: acc)
      | None => acc
      end
  end.

(** [for x in l: models.push_front(x)]. *)
Definition push_front_all {A} (l models : list A) : list A :=
  fold_left (fun ms x => x :: ms) l models.

(** [for x in l: models.push_back(x)]. *)
Definition push_back_all {A} (l models : list A) : list A :=
  fold_left (fun ms x => ms ++ [x]) l models.

(** ** 3D models: masking the slots that are not for this variant *)

(** [[int(v) for v in slots if v]]. *)
Fixpoint slot_numbers (slots : list string) : result (list Z) :=
  match slots with
  | [] => Ok []
  | v :: r =>
      if String.eqb v "" then slot_numbers r
      else n ← PyStr.int v; ns ← slot_numbers r; Ok (n :: ns)
  end.

(** The loop over [enumerate(m_objs)]; [i] is the index of the first
    model of [m_objs]. *)
Fixpoint mask_models (DISABLE_3D_MODEL_TEXT : string) (len : nat) (enable : bool)
    (slots : list Z) (i : Z) (m_objs : list Model) : list Model :=
  match m_objs with
  | [] => []
  | m3d :: r =>
      let m3d' :=
        if bool_decide (i + 1 ∈ slots) then m3d
        else if enable then mkModel (PyStr.drop_last len (m_Filename m3d))
        else mkModel (m_Filename m3d +:+ DISABLE_3D_MODEL_TEXT) in
      m3d' :: mask_models DISABLE_3D_MODEL_TEXT len enable slots (i + 1) r
  end.

(** [apply_list_of_3D_models] on the models of one footprint; [len] is
    [self.len_disable]. *)
Definition apply_list_of_3D_models (DISABLE_3D_MODEL_TEXT : string) (len : nat)
    (enable : bool) (slots : list string) (models : list Model) : result (list Model) :=
  slots ← slot_numbers slots;
  let m_objs := drain_insert0 (length models) models [] in
  Ok (push_back_all (mask_models DISABLE_3D_MODEL_TEXT len enable slots 0 m_objs) []).

(** The two magic patterns, matched at the start of the text: the
    delimiter, a group of characters other than a colon (empty only when
    [may_be_empty]), a colon, a group of digits and commas, the delimiter.
    The first group ends at the first colon, the second is the whole run
    of digits and commas behind it; the result is the two groups. *)
Definition match_magic (delim : ascii) (may_be_empty : bool) (text : string)
    : option (string * string) :=
  match text with
  | String c rest =>
      if Ascii.eqb c delim then
        let '(var, rest1) := PyStr.span (fun a => negb (Ascii.eqb a ":")) rest in
        match rest1 with
        | String _ rest2 =>
            if negb may_be_empty && String.eqb var "" then None
            else
              let '(nums, rest3) :=
                PyStr.span (fun a => PyStr.isdigit a || Ascii.eqb a ",") rest2 in
              match rest3 with
              | String d _ => if Ascii.eqb d delim then Some (var, nums) else None
              | "" => None
              end
        | "" => None
        end
      else None
  | "" => None
  end.

(** The pattern by name, between two [%]; its first group is not empty. *)
Definition field_regex : string -> option (string * string) := match_magic "%" false.

(** The pattern by variant tag, between two [$]. *)
Definition field_regex_sp : string -> option (string * string) := match_magic "$" true.

(** [match.group(2).split(',') if match.group(2) else []] *)
Definition slot_list (group2 : string) : list string :=
  if String.eqb group2 "" then [] else PyStr.split "," group2.

(** What one text says to the scan of a footprint. *)
Inductive rule : Type :=
  | NoRule
  | Named (var : string) (slots : list string)
  | Tagged (var : string) (slots : list string).

Definition rule_of (gi : GItem) : rule :=
  if String.eqb (gi_class gi) "MTEXT" then
    let text := PyStr.strip (gi_text gi) in
    match field_regex text with
    | Some (var, g2) => Named var (slot_list g2)
    | None =>
        match field_regex_sp text with
        | Some (var, g2) => Tagged var (slot_list g2)
        | None => NoRule
        end
    end
  else NoRule.

(** How the scan of a footprint ends: it stopped at a rule that matched,
    or it ran through with [default] and the variable [slots] as they are
    then ([None]: never assigned). *)
Inductive scan_end : Type :=
  | Matched (slots : list string)
  | Through (default : option (list string)) (slots : option (list string)).

(** [self.variant.name if self.variant else 'None'] *)
Definition variant_name_of (v : option Variant) : string :=
  match v with
  | Some v => variant_name v
  | None => "None"
  end.

(** The loop over the graphical items of one footprint. *)
Fixpoint scan_texts (v : option Variant) (items : list GItem)
    (default slots : option (list string)) : result scan_end :=
  match items with
  | [] => Ok (Through default slots)
  | gi :: rest =>
      match rule_of gi with
      | NoRule => scan_texts v rest default slots
      | Named var sl =>
          if String.eqb var "_default_" then scan_texts v rest (Some sl) (Some sl)
          else if String.eqb var (variant_name_of v) then Ok (Matched sl)
          else scan_texts v rest default (Some sl)
      | Tagged var sl =>
          match v with
          | Some vr =>
              if matches_variant vr var then Ok (Matched sl)
              else scan_texts v rest default (Some sl)
          | None => Raise AttributeError
          end
      end
  end.

(** The body of the loop of [apply_3D_variant_aspect] for one footprint.
    [slots_var] is the variable [slots] as the footprints before left it;
    the result gives it back for the next one. *)
Definition aspect_footprint (DISABLE_3D_MODEL_TEXT : string) (len : nat)
    (v : option Variant) (enable : bool) (slots_var : option (list string))
    (m : Footprint) : result (Footprint * option (list string)) :=
  e ← scan_texts v (GraphicalItems m) None slots_var;
  match e with
  | Matched sl =>
      ms ← apply_list_of_3D_models DISABLE_3D_MODEL_TEXT len enable sl (Models m);
      Ok (set_models ms m, Some sl)
  | Through default slots =>
      match default, slots with
      | Some _, Some sl =>
          ms ← apply_list_of_3D_models DISABLE_3D_MODEL_TEXT len enable sl (Models m);
          Ok (set_models ms m, slots)
      | _, _ => Ok (m, slots)
      end
  end.

Fixpoint aspect_loop (DISABLE_3D_MODEL_TEXT : string) (len : nat)
    (v : option Variant) (enable : bool) (slots_var : option (list string))
    (ms : list Footprint) : result (list Footprint) :=
  match ms with
  | [] => Ok []
  | m :: rest =>
      '(m', slots_var') ← aspect_footprint DISABLE_3D_MODEL_TEXT len v enable slots_var m;
      rest' ← aspect_loop DISABLE_3D_MODEL_TEXT len v enable slots_var' rest;
      Ok (m' :: rest')
  end.

Definition apply_3D_variant_aspect (DISABLE_3D_MODEL_TEXT : string)
    (self : VariantOptions) (board : Board) (enable : bool)
    : result (VariantOptions * Board) :=
  let self := set_len_disable (String.length DISABLE_3D_MODEL_TEXT) self in
  ms ← aspect_loop DISABLE_3D_MODEL_TEXT (len_disable self) (variant self) enable None
         (modules board);
  Ok (self, set_modules ms board).

(** ** 3D models: replacing and removing *)

(** Modelled from the spec: the text of a component in a message
    ([Component.__str__], kibot/kicad, not among the sources): a mismatch
    is "reported immediately with the component reference and counts", so
    the component is written as its reference. *)
Definition Component_str (c : Component) : string := ref c.

Definition mismatch_message (c_models : nat) (c : Component) (c_replace : nat) : string :=
  "Found " +:+ pretty c_models +:+ " models in component " +:+ Component_str c
  +:+ ", but " +:+ pretty c_replace +:+ " replacements provided".

(** [for i, m3d in enumerate(models_l): m3d.m_Filename = new_model[i]] *)
Fixpoint rename_all (models_l : list Model) (new_model : list string) : result (list Model) :=
  match models_l with
  | [] => Ok []
  | _ :: r =>
      match new_model with
      | n :: ns => r' ← rename_all r ns; Ok (mkModel n :: r')
      | [] => Raise IndexError
      end
  end.

(** [replace_3D_models]: the new container and the new
    [self.undo_3d_models_rep]. *)
Definition replace_3D_models (undo_rep : gmap string (list string))
    (models : list Model) (new_model : string) (c : Component)
    : result (list Model * gmap string (list string)) :=
  let models_l := drain_append (length models) models [] in
  let c_models := length models_l in
  new_model ←
    (if (1 <? c_models)%nat then
       let new_model := PyStr.split "," new_model in
       let c_replace := length new_model in
       if negb (c_models =? c_replace)%nat
       then Raise (KiPlotConfigurationError (mismatch_message c_models c c_replace))
       else Ok new_model
     else Ok [new_model]);
  let replaced := map m_Filename models_l in
  models_l ← rename_all models_l new_model;
  Ok (push_front_all models_l [], <[ref c := replaced]> undo_rep).

(** [if m3d.m_Filename in self.undo_3d_models: ...; if replaced:
    m3d.m_Filename = replaced[i]] over [enumerate(models_l)]. *)
Fixpoint undo_names (undo : gmap string string) (replaced : option (list string))
    (i : nat) (models_l : list Model) : result (list Model) :=
  match models_l with
  | [] => Ok []
  | m3d :: r =>
      let name :=
        match undo !! m_Filename m3d with
        | Some old => old
        | None => m_Filename m3d
        end in
      name ←
        match replaced with
        | Some (x :: xs) =>
            match (x :: xs) !! i with
            | Some old => Ok old
            | None => Raise IndexError
            end
        | _ => Ok name
        end;
      r' ← undo_names undo replaced (S i) r;
      Ok (mkModel name :: r')
  end.

Fixpoint undo_rename_loop (undo : gmap string string)
    (undo_rep : gmap string (list string)) (ms : list Footprint)
    : result (list Footprint) :=
  match ms with
  | [] => Ok []
  | m :: rest =>
      let models_l := drain_append (length (Models m)) (Models m) [] in
      models_l ← undo_names undo (undo_rep !! GetReference m) 0 models_l;
      rest' ← undo_rename_loop undo undo_rep rest;
      Ok (set_models (push_front_all models_l []) m :: rest')
  end.

Definition undo_3d_models_rename (self : VariantOptions) (board : Board)
    : result (VariantOptions * Board) :=
  ms ← undo_rename_loop (undo_3d_models self) (undo_3d_models_rep self) (modules board);
  Ok (set_undo_3d ∅ ∅ self, set_modules ms board).

Fixpoint remove_models_loop (gs : Globals) (h : gmap string Component)
    (undo_rep : gmap string (list string)) (ms : list Footprint)
    : result (list Footprint * list (list Model) * gmap string (list string)) :=
  match ms with
  | [] => Ok ([], [], undo_rep)
  | m :: rest =>
      match h !! GetReference m with
      | Some c =>
          if included c && negb (fitted c) then
            let rem_m_models := drain_append (length (Models m)) (Models m) [] in
            '(rest', rem, undo_rep') ← remove_models_loop gs h undo_rep rest;
            Ok (set_models [] m :: rest', rem_m_models :: rem, undo_rep')
          else
            let new_model := get_field_value (fields c) (global_field_3D_model gs) in
            if String.eqb new_model "" then
              '(rest', rem, undo_rep') ← remove_models_loop gs h undo_rep rest;
              Ok (m :: rest', rem, undo_rep')
            else
              '(models, undo_rep1) ← replace_3D_models undo_rep (Models m) new_model c;
              '(rest', rem, undo_rep') ← remove_models_loop gs h undo_rep1 rest;
              Ok (set_models models m :: rest', rem, undo_rep')
      | None =>
          '(rest', rem, undo_rep') ← remove_models_loop gs h undo_rep rest;
          Ok (m :: rest', rem, undo_rep')
      end
  end.

(** [not comps_hash]: no dictionary, or an empty one. *)
Definition usable_hash (comps_hash : option (gmap string Component))
    : option (gmap string Component) :=
  match comps_hash with
  | Some h => if bool_decide (h = ∅) then None else Some h
  | None => None
  end.

Definition remove_3D_models (gs : Globals) (self : VariantOptions) (board : Board)
    (comps_hash : option (gmap string Component)) : result (VariantOptions * Board) :=
  match usable_hash comps_hash with
  | Some h =>
      '(ms, rem, undo_rep) ←
        remove_models_loop gs h (undo_3d_models_rep self) (modules board);
      Ok (set_rem_models rem (set_undo_3d (undo_3d_models self) undo_rep self),
          set_modules ms board)
  | None => Ok (self, board)
  end.

Fixpoint restore_models_loop (h : gmap string Component) (ms : list Footprint)
    (rem : list (list Model)) : result (list Footprint * list (list Model)) :=
  match ms with
  | [] => Ok ([], rem)
  | m :: rest =>
      if is_dnp h (GetReference m) then
        match rem with
        | restore :: rem' =>
            '(rest', rem'') ← restore_models_loop h rest rem';
            Ok (set_models (push_front_all restore (Models m)) m :: rest', rem'')
        | [] => Raise IndexError
        end
      else
        '(rest', rem') ← restore_models_loop h rest rem;
        Ok (m :: rest', rem')
  end.

Definition restore_3D_models (self : VariantOptions) (board : Board)
    (comps_hash : option (gmap string Component)) : result (VariantOptions * Board) :=
  '(self, board) ← undo_3d_models_rename self board;
  match usable_hash comps_hash with
  | Some h =>
      '(ms, rem) ← restore_models_loop h (modules board) (rem_models self);
      Ok (set_rem_models rem self, set_modules ms board)
  | None => Ok (self, board)
  end.

(** ** 3D models: the highlight *)

Definition create_3D_highlight_file (gs : Globals) (self : VariantOptions) : VariantOptions :=
  match _highlight_3D_file self with
  | Some _ => self
  | None => set_highlight_file (Some (highlight_tmp_name gs)) self
  end.

(** [get_crtyd_bbox]: the rectangle of the graphics on either courtyard. *)
Definition get_crtyd_bbox (board : Board) (m : Footprint) : Rect :=
  let fcrtyd := GetLayerID board "F.CrtYd" in
  let bcrtyd := GetLayerID board "B.CrtYd" in
  fold_left
    (fun r gi =>
       if String.eqb (gi_class gi) "MGRAPHIC"
          && ((gi_layer gi =? fcrtyd) || (gi_layer gi =? bcrtyd))
       then Rect_Union r (gi_bbox gi) else r)
    (GraphicalItems m) None.

Definition no_courtyard_warning (W_NOCRTYD r : string) : string :=
  W_NOCRTYD +:+ "Missing courtyard for `" +:+ r +:+ "`".

(** [not highlight]: nothing to highlight. *)
Definition to_highlight (highlight : option (list string)) : option (list string) :=
  match highlight with
  | Some (r :: rs) => Some (r :: rs)
  | _ => None
  end.

(** [highlight_3D_models]: every footprint named in [highlight] gets one
    more model at the back, the highlight file; a footprint without
    courtyard graphics is measured by the host and a warning says so. *)
Definition highlight_3D_models (gs : Globals) (W_NOCRTYD : string) (self : VariantOptions)
    (board : Board) (highlight : option (list string)) : VariantOptions * Board :=
  match to_highlight highlight with
  | Some hl =>
      let self := create_3D_highlight_file gs self in
      let file := default "" (_highlight_3D_file self) in
      let marked m := bool_decide (GetReference m ∈ hl) in
      let ms :=
        map (fun m => if marked m then set_models (Models m ++ [mkModel file]) m else m)
          (modules board) in
      let ws :=
        map (fun m => no_courtyard_warning W_NOCRTYD (GetReference m))
          (filter (fun m => marked m = true ∧ get_crtyd_bbox board m = None)
             (modules board)) in
      (add_warnings ws (set_highlighted highlight self), set_modules ms board)
  | None => (self, board)
  end.

Fixpoint unhighlight_loop (hl : list string) (ms : list Footprint) : result (list Footprint) :=
  match ms with
  | [] => Ok []
  | m :: rest =>
      if bool_decide (GetReference m ∈ hl) then
        match pop (Models m) with
        | Some (models, _) =>
            rest' ← unhighlight_loop hl rest; Ok (set_models models m :: rest')
        | None => Raise IndexError
        end
      else rest' ← unhighlight_loop hl rest; Ok (m :: rest')
  end.

Definition unhighlight_3D_models (self : VariantOptions) (board : Board)
    : result (VariantOptions * Board) :=
  match to_highlight (_highlighted_3D_components self) with
  | Some hl =>
      ms ← unhighlight_loop hl (modules board);
      Ok (set_highlighted None self, set_modules ms board)
  | None => Ok (self, board)
  end.

(** ** Filtering the board and restoring it *)

(** [hasattr(self, 'hide_excluded') and self.hide_excluded] *)
Definition hides_excluded (self : VariantOptions) : bool :=
  match hide_excluded self with
  | Some b => b
  | None => false
  end.

(** [filter_pcb_components]: the value returned, the object and the board. *)
Definition filter_pcb_components (gs : Globals)
    (DISABLE_3D_MODEL_TEXT W_WRONGPASTE W_NOCRTYD : string)
    (self : VariantOptions) (board : Board) (do_3D do_2D : bool)
    (highlight : option (list string)) : result (bool * VariantOptions * Board) :=
  if no_comps self then Ok (false, self, board)
  else
    let self := set_comps_hash (get_refs_hash self) self in
    let '(self, board) :=
      if do_2D then
        let '(self, board) := cross_modules gs self board (comps_hash self) in
        let '(self, board) :=
          remove_paste_and_glue gs W_WRONGPASTE self board (comps_hash self) in
        if hides_excluded self then remove_fab gs self board (comps_hash self)
        else (self, board)
      else (self, board) in
    '(self, board) ←
      (if do_3D then
         '(self, board) ← apply_3D_variant_aspect DISABLE_3D_MODEL_TEXT self board false;
         '(self, board) ← remove_3D_models gs self board (comps_hash self);
         Ok (highlight_3D_models gs W_NOCRTYD self board highlight)
       else Ok (self, board));
    Ok (true, self, board).

Definition unfilter_pcb_components (gs : Globals) (DISABLE_3D_MODEL_TEXT : string)
    (self : VariantOptions) (board : Board) (do_3D do_2D : bool)
    : result (VariantOptions * Board) :=
  if no_comps self then Ok (self, board)
  else
    '(self, board) ←
      (if do_2D then
         '(self, board) ← uncross_modules gs self board (comps_hash self);
         '(self, board) ← restore_paste_and_glue gs self board (comps_hash self);
         Ok (self,
             if hides_excluded self then restore_fab self board (comps_hash self)
             else board)
       else Ok (self, board));
    if do_3D then
      '(self, board) ← restore_3D_models self board (comps_hash self);
      '(self, board) ← apply_3D_variant_aspect DISABLE_3D_MODEL_TEXT self board true;
      unhighlight_3D_models self board
    else Ok (self, board).

(** * Properties *)

(** ** Strings *)


Lemma app_cons a (s t : string) : String a s +:+ t = String a (s +:+ t).
Proof. reflexivity. Qed.

Lemma app_nil_left (t : string) : "" +:+ t = t.
Proof. reflexivity. Qed.

Lemma app_nil_right (s : string) : s +:+ "" = s.
Proof. induction s as [|a s IH]; [reflexivity|]. rewrite app_cons, IH. reflexivity. Qed.

Lemma app_assoc_str (s t u : string) : (s +:+ t) +:+ u = s +:+ (t +:+ u).
Proof.
  induction s as [|a s IH]; [reflexivity|]. rewrite !app_cons, IH. reflexivity.
Qed.

Lemma length_app_str (s t : string) :
  String.length (s +:+ t) = (String.length s + String.length t)%nat.
Proof.
  induction s as [|a s IH]; [reflexivity|]. rewrite app_cons. simpl. rewrite IH. reflexivity.
Qed.

Lemma take_app_length (s t : string) : PyStr.take (String.length s) (s +:+ t) = s.
Proof.
  induction s as [|a s IH].
  - destruct t; reflexivity.
  - rewrite app_cons. simpl. rewrite IH. reflexivity.
Qed.


Lemma drop_last_app (d s : string) :
  d <> "" -> PyStr.drop_last (String.length d) (s +:+ d) = s.
Proof.
  intros Hd. unfold PyStr.drop_last.
  destruct (String.length d) as [|k] eqn:E.
  - destruct d; [congruence | discriminate].
  - rewrite length_app_str, E.
    replace (String.length s + S k - S k)%nat with (String.length s) by lia.
    apply take_app_length.
Qed.


(** ** The container *)

Lemma pop_snoc {A} (l : list A) (x : A) : pop (l ++ [x]) = Some (l, x).
Proof. unfold pop. rewrite rev_app_distr. simpl. rewrite rev_involutive. reflexivity. Qed.

Lemma pop_nil {A} : pop (@nil A) = None.
Proof. reflexivity. Qed.

Lemma drain_insert0_all {A} (models acc : list A) (fuel : nat) :
  (length models <= fuel)%nat -> drain_insert0 fuel models acc = models ++ acc.
Proof.
  revert models acc. induction fuel as [|f IH]; intros models acc Hlen.
  - destruct models; [reflexivity | simpl in Hlen; lia].
  - destruct models as [|y l'] using rev_ind; [reflexivity|].
    simpl. rewrite pop_snoc. rewrite length_app in Hlen. simpl in Hlen.
    rewrite IH by lia. rewrite <- app_assoc. reflexivity.
Qed.

Lemma drain_append_all {A} (models acc : list A) (fuel : nat) :
  (length models <= fuel)%nat -> drain_append fuel models acc = acc ++ rev models.
Proof.
  revert models acc. induction fuel as [|f IH]; intros models acc Hlen.
  - destruct models; [simpl; rewrite app_nil_r; reflexivity | simpl in Hlen; lia].
  - destruct models as [|y l'] using rev_ind; [simpl; rewrite app_nil_r; reflexivity|].
    simpl. rewrite pop_snoc. rewrite length_app in Hlen. simpl in Hlen.
    rewrite IH by lia. rewrite rev_app_distr. simpl. rewrite <- app_assoc. reflexivity.
Qed.

Lemma push_back_all_app {A} (l models : list A) : push_back_all l models = models ++ l.
Proof.
  unfold push_back_all. revert models. induction l as [|x l IH]; intros models; simpl.
  - rewrite app_nil_r. reflexivity.
  - rewrite IH, <- app_assoc. reflexivity.
Qed.

Lemma push_front_all_rev {A} (l models : list A) : push_front_all l models = rev l ++ models.
Proof.
  unfold push_front_all. revert models. induction l as [|x l IH]; intros models; simpl.
  - reflexivity.
  - rewrite IH, <- app_assoc. reflexivity.
Qed.

(** ** Masking the slots *)



Lemma mask_models_length D len enable ns i (l : list Model) :
  length (mask_models D len enable ns i l) = length l.
Proof. revert i. induction l as [|m l IH]; intros i; simpl; [|rewrite IH]; reflexivity. Qed.

Lemma apply_list_of_3D_models_eq D len enable slots ns (models : list Model) :
  slot_numbers slots = Ok ns ->
  apply_list_of_3D_models D len enable slots models
  = Ok (mask_models D len enable ns 0 models).
Proof.
  intros H. unfold apply_list_of_3D_models. rewrite H. simpl.
  rewrite drain_insert0_all by lia. rewrite app_nil_r, push_back_all_app. reflexivity.
Qed.

Lemma mask_disable_enable D ns i (l : list Model) :
  D <> "" ->
  mask_models D (String.length D) true ns i (mask_models D (String.length D) false ns i l) = l.
Proof.
  intros HD. revert i. induction l as [|[f] l IH]; intros i; [reflexivity|].
  cbn [mask_models]. rewrite IH. f_equal.
  destruct (bool_decide (i + 1 ∈ ns)) eqn:E; cbn [m_Filename].
  - reflexivity.
  - rewrite drop_last_app by exact HD. reflexivity.
Qed.





(** ** The scan for the rule of a footprint *)


(** A text the scan passes: no rule, a [_default_] rule, or a rule for
    another variant. *)
Definition passed (v : option Variant) (gi : GItem) : Prop :=
  match rule_of gi with
  | Named var _ => var = "_default_" \/ var <> variant_name_of v
  | Tagged var _ => exists vr, v = Some vr /\ matches_variant vr var = false
  | NoRule => True
  end.


Lemma scan_texts_no_match v items default slots :
  Forall (passed v) items ->
  exists d s, scan_texts v items default slots = Ok (Through d s).
Proof.
  intros Hall. revert default slots.
  induction Hall as [|g items Hg Hall IH]; intros default slots.
  - simpl. eauto.
  - simpl. unfold passed in Hg. destruct (rule_of g) as [|var sl'|var sl'].
    + apply IH.
    + destruct (String.eqb_spec var "_default_") as [_|Hd]; [apply IH|].
      destruct Hg as [Hg|Hg]; [contradiction|].
      apply String.eqb_neq in Hg. rewrite Hg. apply IH.
    + destruct Hg as (vr & -> & Hm). rewrite Hm. apply IH.
Qed.



(** C3 at the input where the code leaves it: the footprint carries
    [%_default_:1%] and then [%other:2%], the variant is [prod], so no
    explicit rule matches and the fallback applies.  The list that is
    applied is the one of the last rule read ([2]: the first model is
    disabled), not the one of the [_default_] rule ([1]: the second model
    would be). *)
Lemma apply_3D_variant_aspect_default_not_used :
  let D := "_Disabled_by_KiBot" in
  let t i s := mkGItem i "MTEXT" 0 s (mkRect 0 0 0 0) in
  let v := Some (mkVariant "prod" (fun l => l) (fun _ => false)) in
  let m := mkFootprint "U1" [t 1%nat "%_default_:1%"; t 2%nat "%other:2%"]
             [] [mkModel "a.wrl"; mkModel "b.wrl"] in
  scan_texts v (GraphicalItems m) None None = Ok (Through (Some ["1"]) (Some ["2"]))
  /\ aspect_loop D (String.length D) v false None [m]
     = Ok [set_models [mkModel "a.wrl_Disabled_by_KiBot"; mkModel "b.wrl"] m]
  /\ apply_list_of_3D_models D (String.length D) false ["1"] (Models m)
     = Ok [mkModel "a.wrl"; mkModel "b.wrl_Disabled_by_KiBot"].
Proof. repeat split; vm_compute; reflexivity. Qed.

(** ** Replacing the 3D models *)




(** ** Colours *)

Lemma load_svg_plain (content color holes_color : string) :
  PyStr.take 7 color <> "#000000" ->
  load_svg content color false holes_color false
  = Ok (PyStr.replace "stroke:rgb(0%,0%,0%)" ("stroke:" +:+ PyStr.take 7 color)
          (PyStr.replace "#000000" (PyStr.take 7 color) content)).
Proof.
  intros H. apply String.eqb_neq in H.
  unfold load_svg, mbind, result_bind, rbind. rewrite H. reflexivity.
Qed.

Lemma load_svg_monochrome (content color holes_color gray hgray : string) :
  to_gray_hex (PyStr.take 7 color) = Ok gray ->
  to_gray_hex holes_color = Ok hgray ->
  gray <> "#000000" ->
  load_svg content color false holes_color true
  = Ok (PyStr.replace "stroke:rgb(0%,0%,0%)" ("stroke:" +:+ gray)
          (PyStr.replace "#000000" gray content)).
Proof.
  intros Hg Hh H. apply String.eqb_neq in H.
  unfold load_svg, mbind, result_bind, rbind. rewrite Hg, Hh, H. reflexivity.
Qed.

(** C7 at the input where the code leaves it.  The gray [#0B0B0B] has the
    three channels 11, whose average is 11; [to_gray_hex] forms the
    average of the channels divided by 255 in double precision, multiplies
    by 255 and truncates, which gives 10: on a monochrome page the layer
    is drawn in [#0A0A0A]. *)
Lemma to_gray_hex_darkens_gray :
  to_gray_hex "#0B0B0B" = Ok "#0A0A0A"
  /\ load_svg "<path style='fill:#000000; stroke:rgb(0%,0%,0%)'/>" "#0B0B0B"
       false "#000000" true
     = Ok "<path style='fill:#0A0A0A; stroke:#0A0A0A'/>".
Proof. split; vm_compute; reflexivity. Qed.

(** ** Scaling *)



(** ** The order of the stages *)

(** The order the specification states: transform, reset, [dnf_filter],
    variant. *)
Definition resolve_as_stated (pre : option (Component -> Component))
    (dnf : option (Component -> bool)) (v : option Variant)
    (comps : list Component) : list Component :=
  let comps := apply_pre_transform comps pre in
  let comps := reset_filters comps in
  let comps := apply_fitted_filter comps dnf in
  match v with
  | Some v => variant_filter v comps
  | None => comps
  end.

(** The order of the code: reset, transform, [dnf_filter], variant. *)
Definition resolve_as_coded (pre : option (Component -> Component))
    (dnf : option (Component -> bool)) (v : option Variant)
    (comps : list Component) : list Component :=
  let comps := reset_filters comps in
  let comps := apply_pre_transform comps pre in
  let comps := apply_fitted_filter comps dnf in
  match v with
  | Some v => variant_filter v comps
  | None => comps
  end.

Definition configured (self : VariantOptions) : Prop :=
  is_Some (dnf_filter self) \/ is_Some (variant self) \/ is_Some (pre_transform self).

(** A transform that neither reads nor writes the two flags: it commutes
    with setting them. *)
Definition flag_blind (t : Component -> Component) : Prop :=
  forall c, t (set_included true (set_fitted true c))
            = set_included true (set_fitted true (t c)).

Lemma reset_transform_commute pre comps :
  (forall t, pre = Some t -> flag_blind t) ->
  apply_pre_transform (reset_filters comps) pre
  = reset_filters (apply_pre_transform comps pre).
Proof.
  intros H. destruct pre as [t|]; [|reflexivity]. simpl.
  unfold reset_filters. rewrite !map_map. apply map_ext. intros c.
  apply (H t eq_refl).
Qed.

(** C1, as the code has it.  With nothing configured [run] leaves the
    object as it is.  Otherwise the component list is the result of the
    stages in the order reset, transform, [dnf_filter], variant; when the
    transform neither reads nor writes the flags this is also what the
    order transform, reset, [dnf_filter], variant gives. *)
Theorem run_order (self : VariantOptions) (sch_comps : list Component) :
  (~ configured self -> run self sch_comps = self)
  /\ (configured self ->
      _comps (run self sch_comps)
      = Some (resolve_as_coded (pre_transform self) (dnf_filter self) (variant self)
                sch_comps)
      /\ ((forall t, pre_transform self = Some t -> flag_blind t) ->
          _comps (run self sch_comps)
          = Some (resolve_as_stated (pre_transform self) (dnf_filter self) (variant self)
                    sch_comps))).
Proof.
  unfold configured. split.
  - intros H. unfold run.
    destruct (dnf_filter self), (variant self), (pre_transform self);
      try reflexivity; exfalso; apply H; eauto.
  - intros H.
    assert (E : _comps (run self sch_comps)
                = Some (resolve_as_coded (pre_transform self) (dnf_filter self)
                          (variant self) sch_comps)).
    { unfold run, resolve_as_coded.
      destruct (dnf_filter self) eqn:Ed, (variant self) eqn:Ev,
        (pre_transform self) eqn:Ep; try reflexivity.
      destruct H as [[? H]|[[? H]|[? H]]]; discriminate. }
    split; [exact E|]. intros Hb. rewrite E.
    unfold resolve_as_coded, resolve_as_stated.
    rewrite reset_transform_commute by exact Hb. reflexivity.
Qed.

(** C1 as it is stated fails: a transform that marks a component as not
    fitted keeps its effect, because the flags are reset before it runs
    and not after. *)
Lemma run_resets_before_transform :
  let self := init_options None None (Some (set_fitted false)) None in
  let comps := [mkComponent "R1" true true [("Value", "10k")]] in
  _comps (run self comps) = Some [mkComponent "R1" false true [("Value", "10k")]]
  /\ resolve_as_stated (pre_transform self) (dnf_filter self) (variant self) comps
     = [mkComponent "R1" true true [("Value", "10k")]].
Proof. split; reflexivity. Qed.

(** ** The dictionary of the components *)

Lemma refs_foldl_other (comps : list Component) (acc : gmap string Component) (k : string) :
  k ∉ map ref comps ->
  foldl (fun h c => <[ref c := c]> h) acc comps !! k = acc !! k.
Proof.
  revert acc. induction comps as [|c comps IH]; intros acc Hk; [reflexivity|].
  simpl. rewrite IH.
  - apply lookup_insert_ne. intros E. apply Hk. simpl. rewrite E. left.
  - intros Hin. apply Hk. simpl. right. exact Hin.
Qed.

Lemma refs_foldl_key (comps : list Component) (acc : gmap string Component)
    (k : string) (c : Component) :
  foldl (fun h c => <[ref c := c]> h) acc comps !! k = Some c ->
  (c ∈ comps /\ ref c = k) \/ acc !! k = Some c.
Proof.
  revert acc. induction comps as [|c0 comps IH]; intros acc H; [right; exact H|].
  simpl in H. apply IH in H as [[Hin Hr]|H].
  - left. split; [right; exact Hin | exact Hr].
  - destruct (decide (ref c0 = k)) as [E|E].
    + subst k. rewrite lookup_insert_eq in H. injection H as ->. left. split; [left|reflexivity].
    + rewrite lookup_insert_ne in H by exact E. right. exact H.
Qed.

Lemma refs_dict_key (comps : list Component) (k : string) (c : Component) :
  refs_dict comps !! k = Some c -> c ∈ comps /\ ref c = k.
Proof.
  intros H. apply refs_foldl_key in H as [H|H]; [exact H|].
  rewrite lookup_empty in H. discriminate.
Qed.

Lemma refs_dict_unique (comps : list Component) (c : Component) :
  NoDup (map ref comps) -> c ∈ comps -> refs_dict comps !! ref c = Some c.
Proof.
  unfold refs_dict. generalize (∅ : gmap string Component).
  induction comps as [|c0 comps IH]; intros acc Hnd Hin.
  - inversion Hin.
  - simpl in Hnd. apply NoDup_cons in Hnd as [Hc0 Hnd]. simpl.
    apply elem_of_cons in Hin as [->|Hin].
    + rewrite refs_foldl_other by exact Hc0. apply lookup_insert_eq.
    + apply IH; assumption.
Qed.

(** ** The loops as maps *)

Definition paste_fp (gs : Globals) (fpaste bpaste fmask bmask : Z) (m : Footprint) : Footprint :=
  if global_remove_solder_paste_for_dnp gs
  then set_pads (map (strip_paste fpaste bpaste fmask bmask) (Pads m)) m
  else m.

Definition glue_fp (gs : Globals) (fadhes_id badhes_id rescue : Z) (m : Footprint) : Footprint :=
  if global_remove_adhesive_for_dnp gs
  then set_items (move_off fadhes_id badhes_id rescue (GraphicalItems m)) m
  else m.

Definition paste_glue_fp (gs : Globals) (h : gmap string Component)
    (fpaste bpaste fmask bmask fadhes_id badhes_id rescue : Z) (m : Footprint) : Footprint :=
  if is_dnp h (GetReference m)
  then glue_fp gs fadhes_id badhes_id rescue (paste_fp gs fpaste bpaste fmask bmask m)
  else m.

Definition fab_fp (h : gmap string Component) (ffab_id bfab_id rescue : Z)
    (m : Footprint) : Footprint :=
  if is_excluded h (GetReference m)
  then set_items (move_off ffab_id bfab_id rescue (GraphicalItems m)) m
  else m.

Lemma paste_loop_modules gs W h fp bp fm bm fa ba rs ms :
  po_modules (paste_loop gs W h fp bp fm bm fa ba rs ms)
  = map (paste_glue_fp gs h fp bp fm bm fa ba rs) ms.
Proof.
  induction ms as [|m ms IH]; [reflexivity|].
  simpl. unfold paste_glue_fp at 1, paste_fp, glue_fp.
  destruct (is_dnp h (GetReference m)); [|simpl; rewrite IH; reflexivity].
  destruct (global_remove_solder_paste_for_dnp gs),
    (global_remove_adhesive_for_dnp gs); simpl; rewrite IH; reflexivity.
Qed.

Lemma paste_loop_old_layers gs W h fp bp fm bm fa ba rs ms :
  po_old_layers (paste_loop gs W h fp bp fm bm fa ba rs ms)
  = flat_map (fun m => if is_dnp h (GetReference m)
                            && global_remove_solder_paste_for_dnp gs
                       then [Pads m] else []) ms.
Proof.
  induction ms as [|m ms IH]; [reflexivity|].
  simpl. destruct (is_dnp h (GetReference m)); [|simpl; rewrite IH; reflexivity].
  destruct (global_remove_solder_paste_for_dnp gs),
    (global_remove_adhesive_for_dnp gs); simpl; rewrite IH; reflexivity.
Qed.

Lemma paste_loop_old_fadhes gs W h fp bp fm bm fa ba rs ms :
  po_old_fadhes (paste_loop gs W h fp bp fm bm fa ba rs ms)
  = flat_map (fun m => if is_dnp h (GetReference m)
                            && global_remove_adhesive_for_dnp gs
                       then ids_on fa (GraphicalItems m) else []) ms.
Proof.
  induction ms as [|m ms IH]; [reflexivity|].
  simpl. destruct (is_dnp h (GetReference m)); [|simpl; rewrite IH; reflexivity].
  destruct (global_remove_solder_paste_for_dnp gs),
    (global_remove_adhesive_for_dnp gs); simpl; rewrite IH; reflexivity.
Qed.

Lemma paste_loop_old_badhes gs W h fp bp fm bm fa ba rs ms :
  po_old_badhes (paste_loop gs W h fp bp fm bm fa ba rs ms)
  = flat_map (fun m => if is_dnp h (GetReference m)
                            && global_remove_adhesive_for_dnp gs
                       then ids_on ba (GraphicalItems m) else []) ms.
Proof.
  induction ms as [|m ms IH]; [reflexivity|].
  simpl. destruct (is_dnp h (GetReference m)); [|simpl; rewrite IH; reflexivity].
  destruct (global_remove_solder_paste_for_dnp gs),
    (global_remove_adhesive_for_dnp gs); simpl; rewrite IH; reflexivity.
Qed.

Lemma paste_loop_warnings gs W h fp bp fm bm fa ba rs ms :
  po_warnings (paste_loop gs W h fp bp fm bm fa ba rs ms)
  = flat_map (fun m => if is_dnp h (GetReference m)
                            && global_remove_solder_paste_for_dnp gs
                       then map (fun _ => wrong_paste_warning W (GetReference m))
                              (filter (fun p => pad_warns fp bp p = true) (Pads m))
                       else []) ms.
Proof.
  induction ms as [|m ms IH]; [reflexivity|].
  simpl. destruct (is_dnp h (GetReference m)); [|simpl; rewrite IH; reflexivity].
  destruct (global_remove_solder_paste_for_dnp gs),
    (global_remove_adhesive_for_dnp gs); simpl; rewrite IH; reflexivity.
Qed.

Lemma fab_loop_spec h ff bf rs ms :
  fab_loop h ff bf rs ms
  = (map (fab_fp h ff bf rs) ms,
     flat_map (fun m => if is_excluded h (GetReference m)
                        then ids_on ff (GraphicalItems m) else []) ms,
     flat_map (fun m => if is_excluded h (GetReference m)
                        then ids_on bf (GraphicalItems m) else []) ms).
Proof.
  induction ms as [|m ms IH]; [reflexivity|].
  simpl. rewrite IH. unfold fab_fp.
  destruct (is_excluded h (GetReference m)); reflexivity.
Qed.

(** ** Solder paste *)

Lemma strip_paste_not_empty fp bp fm bm (p : gset Z) : strip_paste fp bp fm bm p <> ∅.
Proof.
  unfold strip_paste. case_bool_decide as E.
  - rewrite E. set_solver.
  - exact E.
Qed.

Lemma strip_paste_cases fp bp fm bm (p : gset Z) :
  (p ∖ ({[fp]} ∪ {[bp]}) <> ∅ -> strip_paste fp bp fm bm p = p ∖ ({[fp]} ∪ {[bp]}))
  /\ (p ∖ ({[fp]} ∪ {[bp]}) = ∅ ->
      strip_paste fp bp fm bm p = {[ if bool_decide (fp ∈ p) then fm else bm ]}).
Proof.
  unfold strip_paste. split; intros H.
  - rewrite bool_decide_eq_false_2 by exact H. reflexivity.
  - rewrite bool_decide_eq_true_2 by exact H. rewrite H. apply union_empty_r_L.
Qed.

Lemma glue_fp_pads gs fa ba rs m : Pads (glue_fp gs fa ba rs m) = Pads m.
Proof. unfold glue_fp. destruct (global_remove_adhesive_for_dnp gs); reflexivity. Qed.

Lemma glue_fp_ref gs fa ba rs m : GetReference (glue_fp gs fa ba rs m) = GetReference m.
Proof. unfold glue_fp. destruct (global_remove_adhesive_for_dnp gs); reflexivity. Qed.

Lemma paste_fp_ref gs fp bp fm bm m :
  GetReference (paste_fp gs fp bp fm bm m) = GetReference m.
Proof. unfold paste_fp. destruct (global_remove_solder_paste_for_dnp gs); reflexivity. Qed.

(** X1 (also claim C9).  With the removal of solder paste enabled, every pad of every
    footprint whose component is included and not fitted leaves
    [remove_paste_and_glue] with a layer set that is not empty: the paste
    layers are taken away, and a pad that would be left with nothing gets
    the front mask when it had front paste, the back mask otherwise, and a
    warning with the reference of the footprint is logged. *)
Theorem remove_paste_keeps_a_layer (gs : Globals) (W_WRONGPASTE : string)
    (self : VariantOptions) (board : Board) (h : gmap string Component) :
  global_remove_solder_paste_for_dnp gs = true ->
  let fpaste := GetLayerID board "F.Paste" in
  let bpaste := GetLayerID board "B.Paste" in
  let fmask := GetLayerID board "F.Mask" in
  let bmask := GetLayerID board "B.Mask" in
  let '(self', board') := remove_paste_and_glue gs W_WRONGPASTE self board (Some h) in
  forall (i : nat) (m : Footprint),
    modules board !! i = Some m ->
    is_dnp h (GetReference m) = true ->
    exists m',
      modules board' !! i = Some m'
      /\ GetReference m' = GetReference m
      /\ Pads m' = map (strip_paste fpaste bpaste fmask bmask) (Pads m)
      /\ Forall (fun p => p <> ∅) (Pads m')
      /\ forall p, p ∈ Pads m ->
           (p ∖ ({[fpaste]} ∪ {[bpaste]}) <> ∅ ->
            strip_paste fpaste bpaste fmask bmask p = p ∖ ({[fpaste]} ∪ {[bpaste]}))
           /\ (p ∖ ({[fpaste]} ∪ {[bpaste]}) = ∅ ->
               strip_paste fpaste bpaste fmask bmask p
               = {[ if bool_decide (fpaste ∈ p) then fmask else bmask ]}
               /\ wrong_paste_warning W_WRONGPASTE (GetReference m) ∈ warnings self').
Proof.
  intros Hflag fpaste bpaste fmask bmask.
  unfold remove_paste_and_glue. rewrite Hflag. cbn [orb].
  intros i m Hi Hdnp.
  exists (paste_glue_fp gs h fpaste bpaste fmask bmask
            (GetLayerID board "F.Adhes") (GetLayerID board "B.Adhes")
            (GetLayerID board (work_layer gs)) m).
  assert (Hp : Pads (paste_glue_fp gs h fpaste bpaste fmask bmask
                       (GetLayerID board "F.Adhes") (GetLayerID board "B.Adhes")
                       (GetLayerID board (work_layer gs)) m)
               = map (strip_paste fpaste bpaste fmask bmask) (Pads m)).
  { unfold paste_glue_fp. rewrite Hdnp, glue_fp_pads.
    unfold paste_fp. rewrite Hflag. reflexivity. }
  split; [|split; [|split; [|split]]].
  - cbn [modules set_modules]. rewrite paste_loop_modules.
    change (map ?f ?l) with (f <$> l). rewrite list_lookup_fmap, Hi. reflexivity.
  - unfold paste_glue_fp. rewrite Hdnp, glue_fp_ref, paste_fp_ref. reflexivity.
  - exact Hp.
  - rewrite Hp. apply Forall_forall. intros p Hin.
    apply list_elem_of_In, in_map_iff in Hin as (q & <- & _).
    apply strip_paste_not_empty.
  - intros p Hin. split; [apply strip_paste_cases|].
    intros He. split; [apply strip_paste_cases; exact He|].
    cbn [warnings add_warnings]. apply elem_of_app. right.
    rewrite paste_loop_warnings. apply list_elem_of_In, in_flat_map.
    exists m. split.
    + apply list_elem_of_In. eapply list_elem_of_lookup_2. exact Hi.
    + rewrite Hdnp, Hflag. cbn [andb]. apply in_map_iff. exists p. split; [reflexivity|].
      apply list_elem_of_In, list_elem_of_filter. split; [|exact Hin].
      unfold pad_warns. apply bool_decide_eq_true_2. exact He.
Qed.

Lemma remove_paste_keeps_a_layer_witness :
  let gs := mkGlobals true true true "Rescue" "3D_model" "/tmp/hl.wrl" in
  let layer_id (n : string) : Z :=
    if String.eqb n "F.Paste" then 35 else if String.eqb n "B.Paste" then 34
    else if String.eqb n "F.Mask" then 39 else if String.eqb n "B.Mask" then 38
    else if String.eqb n "F.Adhes" then 33 else if String.eqb n "B.Adhes" then 32
    else 50 in
  let m := mkFootprint "R2" [] [{[0; 35; 39]}; {[35]}; {[34]}] [] in
  let h : gmap string Component := {["R2" := mkComponent "R2" false true []]} in
  let r := remove_paste_and_glue gs "(W050) " (init_options None None None None)
             (mkBoard [m] layer_id) (Some h) in
  exists m', modules (snd r) !! 0%nat = Some m'
             /\ Pads m' = [{[0; 39]}; {[39]}; {[38]}]
             /\ warnings (fst r)
                = ["(W050) Pad with solder paste, but no copper or solder mask aperture in R2";
                   "(W050) Pad with solder paste, but no copper or solder mask aperture in R2"].
Proof.
  intros gs layer_id m h r.
  pose proof (remove_paste_keeps_a_layer gs "(W050) " (init_options None None None None)
                (mkBoard [m] layer_id) h eq_refl) as T.
  cbv zeta in T. fold r in T. destruct r as [self' board'] eqn:Er.
  destruct (T 0%nat m eq_refl eq_refl) as (m' & Hm' & _ & Hp & _).
  exists m'. split; [exact Hm'|]. split.
  - rewrite Hp. vm_compute. reflexivity.
  - assert (self' = fst r) as -> by (rewrite Er; reflexivity).
    subst r. vm_compute. reflexivity.
Defined.

(** ** Crossing and uncrossing *)

Definition rec_ids (r : option (list nat)) : list nat := default [] r.

Lemma set_items_same (m : Footprint) : set_items (GraphicalItems m) m = m.
Proof. destruct m; reflexivity. Qed.

Lemma set_items_twice (a b : list GItem) (m : Footprint) :
  set_items a (set_items b m) = set_items a m.
Proof. reflexivity. Qed.

Lemma filter_all {A} (P : A -> Prop) `{forall x, Decision (P x)} (l : list A) :
  Forall P l -> filter P l = l.
Proof.
  induction 1 as [|x l Hx Hl IH]; [reflexivity|].
  rewrite filter_cons_True by exact Hx. rewrite IH. reflexivity.
Qed.

Lemma remove_lines_eq (r : option (list nat)) (m : Footprint) :
  remove_lines r m
  = set_items (filter (fun gi => gi_id gi ∉ rec_ids r) (GraphicalItems m)) m.
Proof.
  destruct r as [ids|]; [reflexivity|]. simpl.
  rewrite filter_all; [symmetry; apply set_items_same|].
  apply Forall_forall. intros g _ Hin. inversion Hin.
Qed.

(** What crossing one footprint gives: new graphics in front of the old
    ones, with identities from [n] on, all of them in the two records. *)
Lemma cross_footprint_spec (n : nat) (ff bf : Z) (m m' : Footprint)
    (fl bl : option (list nat)) (n' : nat) :
  cross_footprint n ff bf m = (m', fl, bl, n') ->
  (n <= n')%nat
  /\ exists lines,
      m' = set_items (lines ++ GraphicalItems m) m
      /\ Forall (fun g => gi_class g = "MGRAPHIC"
                          /\ (gi_id g ∈ rec_ids fl \/ gi_id g ∈ rec_ids bl)) lines
      /\ Forall (fun id => (n <= id < n')%nat) (rec_ids fl ++ rec_ids bl).
Proof.
  unfold cross_footprint.
  destruct (measure ff (GraphicalItems m)) as [[[[x1 y1] x2] y2]|];
    destruct (measure bf (GraphicalItems m)) as [[[[u1 v1] u2] v2]|];
    cbn [cross_module]; intros H; injection H as <- <- <- <-.
  - split; [lia|]. eexists [_; _; _; _]. split; [reflexivity|]. split.
    + repeat constructor; cbn; set_solver.
    + repeat constructor; lia.
  - split; [lia|]. eexists [_; _]. split; [reflexivity|]. split.
    + repeat constructor; cbn; set_solver.
    + repeat constructor; lia.
  - split; [lia|]. eexists [_; _]. split; [reflexivity|]. split.
    + repeat constructor; cbn; set_solver.
    + repeat constructor; lia.
  - split; [lia|]. exists []. split; [symmetry; apply set_items_same|]. split; constructor.
Qed.

Lemma cross_loop_lookup_other h ff bf (ms : list Footprint) :
  forall n ms1 u (i : nat) m,
    cross_loop h ff bf n ms = (ms1, u) ->
    ms !! i = Some m -> is_dnp h (GetReference m) = false ->
    ms1 !! i = Some m.
Proof.
  induction ms as [|m0 ms IH]; intros n ms1 u i m H Hi Hd; [discriminate|].
  simpl in H. destruct (is_dnp h (GetReference m0)) eqn:E.
  - destruct (cross_footprint n ff bf m0) as [[[m0' fl] bl] n'].
    destruct (cross_loop h ff bf n' ms) as [rest' u'] eqn:Er.
    injection H as <- <-. destruct i as [|i].
    + simpl in Hi. injection Hi as ->. congruence.
    + simpl in *. eapply IH; eassumption.
  - destruct (cross_loop h ff bf n ms) as [rest' u'] eqn:Er.
    injection H as <- <-. destruct i as [|i].
    + exact Hi.
    + simpl in *. eapply IH; eassumption.
Qed.

(** A per-footprint change that keeps the reference and maps the items one
    by one, keeping their identities. *)
Record item_wise (T : Footprint -> Footprint) (tf : Footprint -> GItem -> GItem) : Prop := {
  iw_ref : forall m, GetReference (T m) = GetReference m;
  iw_set : forall m items, T (set_items items m) = set_items (map (tf m) items) (T m);
  iw_items : forall m, GraphicalItems (T m) = map (tf m) (GraphicalItems m);
  iw_id : forall m g, gi_id (tf m g) = gi_id g
}.

Lemma filter_lines_away (f : GItem -> GItem) (lines items : list GItem)
    (fl bl : option (list nat)) (n n' : nat) :
  (forall g, gi_id (f g) = gi_id g) ->
  Forall (fun g => gi_class g = "MGRAPHIC"
                   /\ (gi_id g ∈ rec_ids fl \/ gi_id g ∈ rec_ids bl)) lines ->
  Forall (fun id => (n <= id < n')%nat) (rec_ids fl ++ rec_ids bl) ->
  Forall (fun g => (gi_id g < n)%nat) items ->
  filter (fun gi => gi_id gi ∉ rec_ids bl)
    (filter (fun gi => gi_id gi ∉ rec_ids fl) (map f (lines ++ items)))
  = map f items.
Proof.
  intros Hid Hl Hr Hi. rewrite map_app.
  change (map f ?l) with (f <$> l). rewrite !filter_app.
  assert (E1 : filter (fun gi => gi_id gi ∉ rec_ids bl)
                 (filter (fun gi => gi_id gi ∉ rec_ids fl) (f <$> lines)) = []).
  { clear Hi. induction Hl as [|g lines [_ Hg] Hl IH]; [reflexivity|].
    rewrite fmap_cons, filter_cons. destruct (decide (gi_id (f g) ∉ rec_ids fl)) as [Hn|Hn].
    - rewrite filter_cons. destruct (decide (gi_id (f g) ∉ rec_ids bl)) as [Hn'|Hn'].
      + rewrite Hid in Hn, Hn'. destruct Hg; contradiction.
      + exact IH.
    - exact IH. }
  assert (E2 : filter (fun gi => gi_id gi ∉ rec_ids bl)
                 (filter (fun gi => gi_id gi ∉ rec_ids fl) (f <$> items)) = f <$> items).
  { rewrite Forall_app in Hr. destruct Hr as [Hf Hb].
    rewrite Forall_forall in Hi. rewrite Forall_forall in Hf. rewrite Forall_forall in Hb.
    assert (K : forall ids : list nat,
               (forall id, id ∈ ids -> (n <= id < n')%nat) ->
               Forall (fun gi => gi_id gi ∉ ids) (f <$> items)).
    { intros ids Hids. apply Forall_forall. intros g Hg Hin.
      apply list_elem_of_fmap in Hg as (g0 & -> & Hg0). rewrite Hid in Hin.
      specialize (Hi _ Hg0). specialize (Hids _ Hin). lia. }
    rewrite (filter_all (fun gi => gi_id gi ∉ rec_ids fl)) by (apply K; exact Hf).
    rewrite (filter_all (fun gi => gi_id gi ∉ rec_ids bl)) by (apply K; exact Hb).
    reflexivity. }
  rewrite E1, E2. reflexivity.
Qed.

Lemma all_ids_cons (m : Footprint) (ms : list Footprint) :
  all_ids (m :: ms) = map gi_id (GraphicalItems m) ++ all_ids ms.
Proof. reflexivity. Qed.

(** Uncrossing after crossing, through any item-wise change made in
    between: what is left is the change applied to the board as it was
    before the crossing, and both records are used up. *)
Lemma uncross_after_cross h ff bf T tf (ms : list Footprint) :
  item_wise T tf ->
  forall n ms1 u,
    cross_loop h ff bf n ms = (ms1, u) ->
    Forall (fun id => (id < n)%nat) (all_ids ms) ->
    uncross_loop h (map T ms1) u = Ok (map T ms, mkCrossUndo [] []).
Proof.
  intros HT. induction ms as [|m ms IH]; intros n ms1 u H Hb.
  - simpl in H. injection H as <- <-. reflexivity.
  - rewrite all_ids_cons, Forall_app in Hb. destruct Hb as [Hm Hb].
    simpl in H. destruct (is_dnp h (GetReference m)) eqn:E.
    + destruct (cross_footprint n ff bf m) as [[[m' fl] bl] n'] eqn:Ec.
      destruct (cross_loop h ff bf n' ms) as [rest' u'] eqn:Er.
      injection H as <- <-.
      apply cross_footprint_spec in Ec as (Hn & lines & -> & Hl & Hr).
      assert (Hhead : remove_lines bl
                        (remove_lines fl (T (set_items (lines ++ GraphicalItems m) m)))
                      = T m).
      { rewrite (iw_set _ _ HT), !remove_lines_eq. cbn [GraphicalItems set_items].
        rewrite !set_items_twice.
        rewrite (filter_lines_away (tf m) lines (GraphicalItems m) fl bl n n').
        - rewrite <- (iw_items _ _ HT). apply set_items_same.
        - apply (iw_id _ _ HT).
        - exact Hl.
        - exact Hr.
        - apply Forall_forall. intros g Hg. rewrite Forall_forall in Hm. apply Hm.
          apply list_elem_of_In, in_map, list_elem_of_In, Hg. }
      cbn [map uncross_loop]. rewrite (iw_ref _ _ HT). cbn [GetReference set_items].
      rewrite E. cbn [extra_ffab_lines extra_bfab_lines].
      destruct u' as [fls bls]. cbn [extra_ffab_lines extra_bfab_lines].
      rewrite (IH n' rest' (mkCrossUndo fls bls) Er).
      2:{ eapply Forall_impl; [exact Hb|]. cbn. intros; lia. }
      cbn [mbind result_bind rbind]. rewrite Hhead. reflexivity.
    + destruct (cross_loop h ff bf n ms) as [rest' u'] eqn:Er.
      injection H as <- <-.
      cbn [map uncross_loop]. rewrite (iw_ref _ _ HT), E.
      rewrite (IH n rest' u' Er Hb). reflexivity.
Qed.

(** ** The 2D changes, footprint by footprint *)

Definition move_item (l1 l2 rescue : Z) (gi : GItem) : GItem :=
  let l_gi := gi_layer gi in
  let gi := if l_gi =? l1 then SetLayer rescue gi else gi in
  if l_gi =? l2 then SetLayer rescue gi else gi.

Lemma move_off_map l1 l2 rescue items :
  move_off l1 l2 rescue items = map (move_item l1 l2 rescue) items.
Proof. reflexivity. Qed.

Lemma move_item_id l1 l2 rescue gi : gi_id (move_item l1 l2 rescue gi) = gi_id gi.
Proof. unfold move_item. destruct (_ =? l1), (_ =? l2); reflexivity. Qed.

Lemma move_item_other l1 l2 rescue gi :
  gi_layer gi <> l1 -> gi_layer gi <> l2 -> move_item l1 l2 rescue gi = gi.
Proof.
  intros H1 H2. unfold move_item.
  apply Z.eqb_neq in H1, H2. rewrite H1, H2. reflexivity.
Qed.

Lemma SetLayer_back l gi : SetLayer (gi_layer gi) (SetLayer l gi) = gi.
Proof. destruct gi; reflexivity. Qed.

Lemma SetLayer_twice l l' gi : SetLayer l (SetLayer l' gi) = SetLayer l gi.
Proof. reflexivity. Qed.

(** The layers and flags the 2D passes work with. *)
Record Layers := mkLayers {
  l_fpaste : Z; l_bpaste : Z; l_fmask : Z; l_bmask : Z;
  l_fadhes : Z; l_badhes : Z; l_ffab : Z; l_bfab : Z; l_rescue : Z
}.

Definition layers_of (gs : Globals) (board : Board) : Layers :=
  mkLayers (GetLayerID board "F.Paste") (GetLayerID board "B.Paste")
    (GetLayerID board "F.Mask") (GetLayerID board "B.Mask")
    (GetLayerID board "F.Adhes") (GetLayerID board "B.Adhes")
    (GetLayerID board "F.Fab") (GetLayerID board "B.Fab")
    (GetLayerID board (work_layer gs)).

(** Paste, adhesive and (when [hide]) Fab removal on one footprint. *)
Definition hide_fp (gs : Globals) (h : gmap string Component) (hide : bool) (L : Layers)
    (m : Footprint) : Footprint :=
  let m2 := paste_glue_fp gs h (l_fpaste L) (l_bpaste L) (l_fmask L) (l_bmask L)
              (l_fadhes L) (l_badhes L) (l_rescue L) m in
  if hide then fab_fp h (l_ffab L) (l_bfab L) (l_rescue L) m2 else m2.

Definition hide_item (gs : Globals) (h : gmap string Component) (hide : bool) (L : Layers)
    (m : Footprint) (gi : GItem) : GItem :=
  let g1 :=
    if is_dnp h (GetReference m) && global_remove_adhesive_for_dnp gs
    then move_item (l_fadhes L) (l_badhes L) (l_rescue L) gi else gi in
  if hide && is_excluded h (GetReference m)
  then move_item (l_ffab L) (l_bfab L) (l_rescue L) g1 else g1.

Lemma hide_fp_item_wise gs h hide L : item_wise (hide_fp gs h hide L) (hide_item gs h hide L).
Proof.
  split.
  - intros m. unfold hide_fp, fab_fp, paste_glue_fp, glue_fp, paste_fp.
    destruct hide, (is_dnp h (GetReference m)),
      (global_remove_adhesive_for_dnp gs), (global_remove_solder_paste_for_dnp gs);
      cbn [GetReference set_items set_pads];
      try destruct (is_excluded h (GetReference m)); reflexivity.
  - intros m items. unfold hide_fp, hide_item, fab_fp, paste_glue_fp, glue_fp, paste_fp.
    cbn [GetReference set_items].
    destruct hide, (is_dnp h (GetReference m)),
      (global_remove_adhesive_for_dnp gs), (global_remove_solder_paste_for_dnp gs);
      cbn [GetReference GraphicalItems Pads Models set_items set_pads andb];
      try destruct (is_excluded h (GetReference m));
      cbn [GetReference GraphicalItems Pads Models set_items set_pads andb];
      rewrite ?move_off_map, ?map_map, ?map_id; reflexivity.
  - intros m. unfold hide_fp, hide_item, fab_fp, paste_glue_fp, glue_fp, paste_fp.
    destruct hide, (is_dnp h (GetReference m)),
      (global_remove_adhesive_for_dnp gs), (global_remove_solder_paste_for_dnp gs);
      cbn [GetReference GraphicalItems Pads Models set_items set_pads andb];
      try destruct (is_excluded h (GetReference m));
      cbn [GetReference GraphicalItems Pads Models set_items set_pads andb];
      rewrite ?move_off_map, ?map_map, ?map_id; reflexivity.
  - intros m g. unfold hide_item.
    destruct (is_dnp h (GetReference m) && global_remove_adhesive_for_dnp gs),
      (hide && is_excluded h (GetReference m)); rewrite ?move_item_id; reflexivity.
Qed.

Lemma hide_fp_pads gs h hide L m :
  Pads (hide_fp gs h hide L m)
  = if is_dnp h (GetReference m) && global_remove_solder_paste_for_dnp gs
    then map (strip_paste (l_fpaste L) (l_bpaste L) (l_fmask L) (l_bmask L)) (Pads m)
    else Pads m.
Proof.
  unfold hide_fp, fab_fp, paste_glue_fp, glue_fp, paste_fp.
  destruct hide, (is_dnp h (GetReference m)),
    (global_remove_adhesive_for_dnp gs), (global_remove_solder_paste_for_dnp gs);
    cbn [GetReference GraphicalItems Pads Models set_items set_pads andb];
    try destruct (is_excluded h (GetReference m)); reflexivity.
Qed.

Lemma hide_fp_models gs h hide L m : Models (hide_fp gs h hide L m) = Models m.
Proof.
  unfold hide_fp, fab_fp, paste_glue_fp, glue_fp, paste_fp.
  destruct hide, (is_dnp h (GetReference m)),
    (global_remove_adhesive_for_dnp gs), (global_remove_solder_paste_for_dnp gs);
    cbn [GetReference GraphicalItems Pads Models set_items set_pads andb];
    try destruct (is_excluded h (GetReference m)); reflexivity.
Qed.

(** ** Restoring the pads *)

Lemma restore_pads_same_length (pads restore : list (gset Z)) :
  length pads = length restore -> restore_pads pads restore = Ok restore.
Proof.
  revert restore. induction pads as [|p pads IH]; intros [|r restore] H; try discriminate.
  - reflexivity.
  - simpl. rewrite IH by (simpl in H; lia). reflexivity.
Qed.

Lemma restore_paste_after h (T : Footprint -> Footprint) (ms : list Footprint)
    (tail : list (list (gset Z))) :
  (forall m, GetReference (T m) = GetReference m) ->
  (forall m, length (Pads (T m)) = length (Pads m)) ->
  (forall m, is_dnp h (GetReference m) = false -> Pads (T m) = Pads m) ->
  restore_paste_loop h (map T ms)
    (flat_map (fun m => if is_dnp h (GetReference m) then [Pads m] else []) ms ++ tail)
  = Ok (map (fun m => set_pads (Pads m) (T m)) ms, tail).
Proof.
  intros Hr Hl Hn. induction ms as [|m ms IH]; [reflexivity|].
  cbn [map flat_map restore_paste_loop]. rewrite Hr.
  destruct (is_dnp h (GetReference m)) eqn:E.
  - cbn [app]. rewrite restore_pads_same_length by apply Hl.
    cbn [mbind result_bind rbind]. rewrite IH. reflexivity.
  - cbn [app]. rewrite IH. cbn [mbind result_bind rbind].
    rewrite <- (Hn m E). destruct (T m); reflexivity.
Qed.

(** ** The items an undo list refers to *)

(** The identities of the items on layer [l] of the footprints whose
    reference satisfies [c]. *)
Definition marked (c : string -> bool) (l : Z) (ms : list Footprint) : list nat :=
  flat_map (fun m => if c (GetReference m) then ids_on l (GraphicalItems m) else []) ms.

Definition relayer (ids : list nat) (l : Z) (gi : GItem) : GItem :=
  if bool_decide (gi_id gi ∈ ids) then SetLayer l gi else gi.

Lemma set_layer_of_map ids l ms :
  set_layer_of ids l ms
  = map (fun m => set_items (map (relayer ids l) (GraphicalItems m)) m) ms.
Proof. reflexivity. Qed.

Lemma elem_ids_on (x : nat) (l : Z) (items : list GItem) :
  x ∈ ids_on l items <-> exists g, g ∈ items /\ gi_layer g = l /\ gi_id g = x.
Proof.
  unfold ids_on. change (map gi_id ?s) with (gi_id <$> s).
  rewrite list_elem_of_fmap. split.
  - intros (g & -> & Hg). apply list_elem_of_filter in Hg as [Hl Hg]. eauto.
  - intros (g & Hg & Hl & <-). exists g. split; [reflexivity|].
    apply list_elem_of_filter. split; assumption.
Qed.

Lemma elem_marked (c : string -> bool) (l : Z) (ms : list Footprint) (x : nat) :
  x ∈ marked c l ms
  <-> exists m g, m ∈ ms /\ c (GetReference m) = true /\ g ∈ GraphicalItems m
                  /\ gi_layer g = l /\ gi_id g = x.
Proof.
  unfold marked. rewrite list_elem_of_In, in_flat_map. split.
  - intros (m & Hm & Hx). destruct (c (GetReference m)) eqn:E; [|inversion Hx].
    apply list_elem_of_In, elem_ids_on in Hx as (g & Hg & Hl & Hi).
    exists m, g. rewrite list_elem_of_In. auto.
  - intros (m & g & Hm & Hc & Hg & Hl & Hi). exists m. split; [apply list_elem_of_In, Hm|].
    rewrite Hc. apply list_elem_of_In, elem_ids_on. eauto.
Qed.

Lemma elem_all_ids (ms : list Footprint) (x : nat) :
  x ∈ all_ids ms <-> exists m g, m ∈ ms /\ g ∈ GraphicalItems m /\ gi_id g = x.
Proof.
  unfold all_ids. rewrite list_elem_of_In, in_flat_map. split.
  - intros (m & Hm & Hx). apply in_map_iff in Hx as (g & Hi & Hg).
    exists m, g. rewrite !list_elem_of_In. auto.
  - intros (m & g & Hm & Hg & Hi). exists m. rewrite <- list_elem_of_In. split; [exact Hm|].
    apply in_map_iff. exists g. rewrite <- list_elem_of_In. auto.
Qed.

Lemma NoDup_map_eq {A B} (f : A -> B) (l : list A) (x y : A) :
  NoDup (map f l) -> x ∈ l -> y ∈ l -> f x = f y -> x = y.
Proof.
  induction l as [|a l IH]; intros Hnd Hx Hy E; [inversion Hx|].
  simpl in Hnd. apply NoDup_cons in Hnd as [Ha Hnd].
  assert (Hin : forall z, z ∈ l -> f z ∈ map f l).
  { intros z Hz. apply list_elem_of_In, in_map, list_elem_of_In, Hz. }
  apply elem_of_cons in Hx as [->|Hx]; apply elem_of_cons in Hy as [->|Hy].
  - reflexivity.
  - exfalso. apply Ha. rewrite E. apply Hin, Hy.
  - exfalso. apply Ha. rewrite <- E. apply Hin, Hx.
  - apply IH; assumption.
Qed.

(** Identities are distinct over the board: an identity has one item and
    one footprint. *)
Lemma unique_owner (ms : list Footprint) (m m' : Footprint) (g g' : GItem) :
  NoDup (all_ids ms) ->
  m ∈ ms -> m' ∈ ms -> g ∈ GraphicalItems m -> g' ∈ GraphicalItems m' ->
  gi_id g = gi_id g' -> m = m' /\ g = g'.
Proof.
  induction ms as [|m0 ms IH]; intros Hnd Hm Hm' Hg Hg' Hid; [inversion Hm|].
  rewrite all_ids_cons in Hnd. apply NoDup_app in Hnd as (Hnd0 & Hdis & Hnd).
  assert (Hin : forall (a : Footprint) (x : GItem),
             a ∈ ms -> x ∈ GraphicalItems a -> gi_id x ∈ all_ids ms).
  { intros a x Ha Hx. apply elem_all_ids. eauto. }
  assert (Hin0 : forall x : GItem,
             x ∈ GraphicalItems m0 -> gi_id x ∈ map gi_id (GraphicalItems m0)).
  { intros x Hx. apply list_elem_of_In, in_map, list_elem_of_In, Hx. }
  apply elem_of_cons in Hm as [->|Hm]; apply elem_of_cons in Hm' as [->|Hm'].
  - split; [reflexivity|]. eapply NoDup_map_eq; eassumption.
  - exfalso. apply (Hdis (gi_id g)); [apply Hin0, Hg|]. rewrite Hid. eapply Hin; eassumption.
  - exfalso. apply (Hdis (gi_id g')); [apply Hin0, Hg'|]. rewrite <- Hid.
    eapply Hin; eassumption.
  - apply IH; assumption.
Qed.

(** A footprint after crossing: new graphics in front, with identities
    from [n] on. *)
Definition crossed (n : nat) (m m1 : Footprint) : Prop :=
  exists lines,
    m1 = set_items (lines ++ GraphicalItems m) m
    /\ Forall (fun g => (n <= gi_id g)%nat /\ gi_class g = "MGRAPHIC") lines.

Lemma crossed_refl n m : crossed n m m.
Proof. exists []. split; [symmetry; apply set_items_same | constructor]. Qed.

Lemma crossed_weaken n n' m m1 : (n <= n')%nat -> crossed n' m m1 -> crossed n m m1.
Proof.
  intros Hn (lines & E & Hl). exists lines. split; [exact E|].
  eapply Forall_impl; [exact Hl|]. cbn. intros g [? ?]. split; [lia|assumption].
Qed.

Lemma cross_loop_crossed h ff bf (ms : list Footprint) :
  forall n ms1 u, cross_loop h ff bf n ms = (ms1, u) -> Forall2 (crossed n) ms ms1.
Proof.
  induction ms as [|m ms IH]; intros n ms1 u H.
  - simpl in H. injection H as <- <-. constructor.
  - simpl in H. destruct (is_dnp h (GetReference m)).
    + destruct (cross_footprint n ff bf m) as [[[m' fl] bl] n'] eqn:Ec.
      destruct (cross_loop h ff bf n' ms) as [rest' u'] eqn:Er.
      injection H as <- <-.
      apply cross_footprint_spec in Ec as (Hn & lines & -> & Hl & Hr).
      constructor.
      * exists lines. split; [reflexivity|].
        rewrite Forall_app in Hr. destruct Hr as [Hf Hb].
        rewrite Forall_forall in Hf. rewrite Forall_forall in Hb.
        eapply Forall_impl; [exact Hl|]. cbn. intros g [Hc [Hg|Hg]].
        -- specialize (Hf _ Hg). split; [lia|exact Hc].
        -- specialize (Hb _ Hg). split; [lia|exact Hc].
      * eapply Forall2_impl; [eapply IH; exact Er|].
        intros a b. apply crossed_weaken. exact Hn.
    + destruct (cross_loop h ff bf n ms) as [rest' u'] eqn:Er.
      injection H as <- <-. constructor; [apply crossed_refl|].
      eapply IH; exact Er.
Qed.

Lemma Forall2_refl_list {A} (R : A -> A -> Prop) (l : list A) :
  (forall x, R x x) -> Forall2 R l l.
Proof. intros H. induction l; constructor; auto. Qed.

(** Membership of an item of the board as it was in a list marked on the
    crossed board. *)
Lemma marked_crossed (c : string -> bool) (l : Z) (n : nat) (ms ms1 : list Footprint)
    (m : Footprint) (g : GItem) :
  NoDup (all_ids ms) ->
  Forall (fun id => (id < n)%nat) (all_ids ms) ->
  Forall2 (crossed n) ms ms1 ->
  m ∈ ms -> g ∈ GraphicalItems m ->
  (gi_id g ∈ marked c l ms1 <-> c (GetReference m) = true /\ gi_layer g = l).
Proof.
  intros Hnd Hb Hc Hm Hg. rewrite elem_marked. split.
  - intros (m1 & g1 & Hm1 & Hc1 & Hg1 & Hl1 & Hid).
    apply list_elem_of_lookup in Hm1 as [i Hi].
    destruct (Forall2_lookup_r _ _ _ _ _ Hc Hi) as (m0 & Hi0 & lines & -> & Hlines).
    cbn [GetReference GraphicalItems set_items] in *.
    apply elem_of_app in Hg1 as [Hg1|Hg1].
    + exfalso. rewrite Forall_forall in Hlines. destruct (Hlines _ Hg1) as [Hge _].
      rewrite Forall_forall in Hb.
      assert (gi_id g < n)%nat by (apply Hb, elem_all_ids; eauto). lia.
    + assert (Hm0 : m0 ∈ ms) by (eapply list_elem_of_lookup_2; exact Hi0).
      destruct (unique_owner ms m m0 g g1 Hnd Hm Hm0 Hg Hg1 (eq_sym Hid)) as [-> ->].
      auto.
  - intros [Hcm Hl].
    apply list_elem_of_lookup in Hm as [i Hi].
    destruct (Forall2_lookup_l _ _ _ _ _ Hc Hi) as (m1 & Hi1 & lines & -> & Hlines).
    eexists _, g. split; [eapply list_elem_of_lookup_2; exact Hi1|].
    cbn [GetReference GraphicalItems set_items].
    repeat split; try assumption. apply elem_of_app. right. exact Hg.
Qed.

Lemma marked_map (c : string -> bool) (l : Z) (P : Footprint -> Footprint)
    (ms : list Footprint) :
  (forall m, GetReference (P m) = GetReference m) ->
  (forall m, c (GetReference m) = true -> GraphicalItems (P m) = GraphicalItems m) ->
  marked c l (map P ms) = marked c l ms.
Proof.
  intros Hr Hc. unfold marked. induction ms as [|m ms IH]; [reflexivity|].
  cbn [map flat_map]. rewrite IH, Hr. destruct (c (GetReference m)) eqn:E; [|reflexivity].
  rewrite Hc by exact E. reflexivity.
Qed.

Lemma excluded_not_dnp h r : is_excluded h r = true -> is_dnp h r = false.
Proof.
  unfold is_excluded, is_dnp. destruct (h !! r) as [c|]; [|reflexivity].
  destruct (included c); [discriminate | reflexivity].
Qed.

Lemma paste_glue_fp_ref gs h fp bp fm bm fa ba rs m :
  GetReference (paste_glue_fp gs h fp bp fm bm fa ba rs m) = GetReference m.
Proof.
  unfold paste_glue_fp. destruct (is_dnp h (GetReference m)); [|reflexivity].
  rewrite glue_fp_ref, paste_fp_ref. reflexivity.
Qed.

Lemma relayer_decide (ids : list nat) (l : Z) (b : bool) (g g0 : GItem) :
  gi_id g = gi_id g0 ->
  (gi_id g0 ∈ ids <-> b = true) ->
  relayer ids l g = if b then SetLayer l g else g.
Proof.
  intros Hid Hb. unfold relayer. rewrite Hid. destruct b.
  - rewrite bool_decide_eq_true_2 by (apply Hb; reflexivity). reflexivity.
  - rewrite bool_decide_eq_false_2; [reflexivity|]. intros H. apply Hb in H. discriminate.
Qed.

Lemma footprint_eq (a b : Footprint) :
  GetReference a = GetReference b -> GraphicalItems a = GraphicalItems b ->
  Pads a = Pads b -> Models a = Models b -> a = b.
Proof. destruct a, b. cbn. intros -> -> -> ->. reflexivity. Qed.

Lemma relayer_id ids l g : gi_id (relayer ids l g) = gi_id g.
Proof. unfold relayer. destruct (bool_decide _); reflexivity. Qed.

Lemma hide_item_id gs h hide L m g : gi_id (hide_item gs h hide L m g) = gi_id g.
Proof. apply (iw_id _ _ (hide_fp_item_wise gs h hide L)). Qed.

Lemma relayer_marked (c : string -> bool) (l : Z) (n : nat) (ms ms1 : list Footprint)
    (m : Footprint) (g g' : GItem) :
  NoDup (all_ids ms) ->
  Forall (fun id => (id < n)%nat) (all_ids ms) ->
  Forall2 (crossed n) ms ms1 ->
  m ∈ ms -> g ∈ GraphicalItems m ->
  gi_id g' = gi_id g ->
  relayer (marked c l ms1) l g'
  = if c (GetReference m) && (gi_layer g =? l) then SetLayer l g' else g'.
Proof.
  intros Hnd Hb Hc Hm Hg Hid.
  apply (relayer_decide _ _ _ g' g Hid).
  rewrite (marked_crossed c l n ms ms1 m g Hnd Hb Hc Hm Hg).
  rewrite andb_true_iff, Z.eqb_eq. reflexivity.
Qed.

Lemma map_id_on {A} (f : A -> A) (l : list A) :
  (forall x, x ∈ l -> f x = x) -> map f l = l.
Proof.
  induction l as [|a l IH]; intros H; [reflexivity|].
  simpl. rewrite H by left. rewrite IH; [reflexivity|].
  intros x Hx. apply H. right. exact Hx.
Qed.

(** The layers come back: with the lists marked on the crossed board (the
    adhesive ones before, the Fab ones after the paste and adhesive were
    removed), setting the layers back undoes the moves on every item the
    board had before the crossing. *)
Lemma restore_layers_back gs h (hide : bool) L n (ms ms1 : list Footprint) :
  NoDup (all_ids ms) ->
  Forall (fun id => (id < n)%nat) (all_ids ms) ->
  Forall2 (crossed n) ms ms1 ->
  let adh := global_remove_adhesive_for_dnp gs in
  let cd (r : string) := is_dnp h r && adh in
  let ms2 := map (paste_glue_fp gs h (l_fpaste L) (l_bpaste L) (l_fmask L) (l_bmask L)
                    (l_fadhes L) (l_badhes L) (l_rescue L)) ms1 in
  let Rg (x : list Footprint) :=
    if adh then set_layer_of (marked cd (l_badhes L) ms1) (l_badhes L)
                  (set_layer_of (marked cd (l_fadhes L) ms1) (l_fadhes L) x)
    else x in
  let Rf (x : list Footprint) :=
    if hide then set_layer_of (marked (is_excluded h) (l_bfab L) ms2) (l_bfab L)
                   (set_layer_of (marked (is_excluded h) (l_ffab L) ms2) (l_ffab L) x)
    else x in
  Rf (Rg (map (fun m => set_pads (Pads m) (hide_fp gs h hide L m)) ms)) = ms.
Proof.
  intros Hnd Hb Hc adh cd ms2 Rg Rf.
  assert (Hms2 : forall l, marked (is_excluded h) l ms2 = marked (is_excluded h) l ms1).
  { intros l. apply marked_map.
    - intros m. apply paste_glue_fp_ref.
    - intros m He. unfold paste_glue_fp. rewrite (excluded_not_dnp _ _ He). reflexivity. }
  pose (back (m : Footprint) (g : GItem) :=
          (if hide then
             fun x => relayer (marked (is_excluded h) (l_bfab L) ms1) (l_bfab L)
                        (relayer (marked (is_excluded h) (l_ffab L) ms1) (l_ffab L) x)
           else fun x => x)
            ((if adh then
                fun x => relayer (marked cd (l_badhes L) ms1) (l_badhes L)
                           (relayer (marked cd (l_fadhes L) ms1) (l_fadhes L) x)
              else fun x => x)
               (hide_item gs h hide L m g))).
  assert (Hitem : forall m g, m ∈ ms -> g ∈ GraphicalItems m -> back m g = g).
  { intros m g Hm Hg. unfold back.
    assert (Hx : is_excluded h (GetReference m) = true -> is_dnp h (GetReference m) = false)
      by apply excluded_not_dnp.
    destruct hide, adh eqn:Eadh; subst adh; cbv beta;
      repeat (erewrite (relayer_marked _ _ n ms ms1 m g);
              [| eassumption | eassumption | eassumption | eassumption | eassumption
               | rewrite ?relayer_id, ?hide_item_id; reflexivity]);
      unfold hide_item, cd, move_item; rewrite ?Eadh;
      destruct (is_dnp h (GetReference m)), (is_excluded h (GetReference m));
      try (specialize (Hx eq_refl); discriminate);
      cbn [andb];
      generalize (l_fadhes L), (l_badhes L), (l_ffab L), (l_bfab L), (l_rescue L);
      intros fa ba ff bf rs;
      destruct (Z.eqb_spec (gi_layer g) fa), (Z.eqb_spec (gi_layer g) ba),
        (Z.eqb_spec (gi_layer g) ff), (Z.eqb_spec (gi_layer g) bf);
      destruct g; cbn in *; subst; reflexivity. }
  assert (Hfp : forall m, m ∈ ms ->
            set_items (map (back m) (GraphicalItems m))
              (set_pads (Pads m) (hide_fp gs h hide L m))
            = m).
  { intros m Hm. rewrite map_id_on by (intros g Hg; apply Hitem; assumption).
    pose proof (iw_ref _ _ (hide_fp_item_wise gs h hide L) m) as Hr.
    pose proof (hide_fp_models gs h hide L m) as Hmo.
    destruct (hide_fp gs h hide L m), m. cbn in *. subst. reflexivity. }
  transitivity (map (fun m => set_items (map (back m) (GraphicalItems m))
                                (set_pads (Pads m) (hide_fp gs h hide L m))) ms).
  - subst Rf Rg. cbv beta. rewrite !Hms2. unfold back.
    pose proof (iw_items _ _ (hide_fp_item_wise gs h hide L)) as Hi.
    destruct hide, adh; rewrite ?set_layer_of_map, ?map_map;
      apply map_ext; intros m; apply footprint_eq;
      cbn [GetReference GraphicalItems Pads Models set_items set_pads];
      rewrite ?Hi, ?map_map; reflexivity.
  - apply map_id_on. exact Hfp.
Qed.

(** ** Footprints that differ in their 3D models only *)

(** The footprints of [G] with the models of [X], position by position. *)
Definition graft (G X : list Footprint) : list Footprint :=
  zip_with (fun g x => set_models (Models x) g) G X.

Definition geo_eq (a b : Footprint) : Prop :=
  GetReference a = GetReference b /\ GraphicalItems a = GraphicalItems b
  /\ Pads a = Pads b.

Definition models_eq (a b : Footprint) : Prop :=
  GetReference a = GetReference b /\ Models a = Models b.

Lemma graft_cons g x G X : graft (g :: G) (x :: X) = set_models (Models x) g :: graft G X.
Proof. reflexivity. Qed.

Lemma graft_geo (G X : list Footprint) : Forall2 geo_eq G X -> graft G X = X.
Proof.
  induction 1 as [|g x G X (Hr & Hi & Hp) _ IH]; [reflexivity|].
  rewrite graft_cons, IH. f_equal. apply footprint_eq; cbn; auto.
Qed.

Lemma graft_models (G X : list Footprint) : Forall2 models_eq G X -> graft G X = G.
Proof.
  induction 1 as [|g x G X (Hr & Hm) _ IH]; [reflexivity|].
  rewrite graft_cons, IH. f_equal. apply footprint_eq; cbn; auto.
Qed.

Lemma graft_length (G X : list Footprint) :
  length G = length X -> length (graft G X) = length G.
Proof. intros H. unfold graft. rewrite length_zip_with. lia. Qed.

Lemma uncross_loop_graft h (G : list Footprint) :
  forall (X : list Footprint) u r u',
    length G = length X ->
    uncross_loop h G u = Ok (r, u') ->
    uncross_loop h (graft G X) u = Ok (graft r X, u').
Proof.
  induction G as [|g G IH]; intros [|x X] u r u' Hlen H; try discriminate.
  - simpl in H. injection H as <- <-. reflexivity.
  - rewrite graft_cons. cbn [uncross_loop] in H |- *. cbn [GetReference set_models].
    destruct (is_dnp h (GetReference g)).
    + destruct (extra_ffab_lines u) as [|fl fls]; [discriminate|].
      destruct (extra_bfab_lines u) as [|bl bls]; [discriminate|].
      destruct (uncross_loop h G (mkCrossUndo fls bls)) as [[rest' u'']|e] eqn:Er;
        [|discriminate].
      cbn [mbind result_bind rbind] in H. injection H as <- <-.
      rewrite (IH X _ _ _ (eq_add_S _ _ Hlen) Er). cbn [mbind result_bind rbind].
      rewrite graft_cons. destruct fl, bl; reflexivity.
    + destruct (uncross_loop h G u) as [[rest' u'']|e] eqn:Er; [|discriminate].
      cbn [mbind result_bind rbind] in H. injection H as <- <-.
      rewrite (IH X _ _ _ (eq_add_S _ _ Hlen) Er). reflexivity.
Qed.

Lemma restore_paste_loop_graft h (G : list Footprint) :
  forall (X : list Footprint) old r old',
    length G = length X ->
    restore_paste_loop h G old = Ok (r, old') ->
    restore_paste_loop h (graft G X) old = Ok (graft r X, old').
Proof.
  induction G as [|g G IH]; intros [|x X] old r old' Hlen H; try discriminate.
  - simpl in H. injection H as <- <-. reflexivity.
  - rewrite graft_cons. cbn [restore_paste_loop] in H |- *.
    cbn [GetReference Pads set_models].
    destruct (is_dnp h (GetReference g)).
    + destruct old as [|restore old0]; [discriminate|].
      destruct (restore_pads (Pads g) restore) as [ps|e] eqn:Ep; [|discriminate].
      cbn [mbind result_bind rbind] in H |- *.
      destruct (restore_paste_loop h G old0) as [[rest' old'']|e] eqn:Er; [|discriminate].
      cbn [mbind result_bind rbind] in H. injection H as <- <-.
      rewrite (IH X _ _ _ (eq_add_S _ _ Hlen) Er). reflexivity.
    + destruct (restore_paste_loop h G old) as [[rest' old'']|e] eqn:Er; [|discriminate].
      cbn [mbind result_bind rbind] in H. injection H as <- <-.
      rewrite (IH X _ _ _ (eq_add_S _ _ Hlen) Er). reflexivity.
Qed.

Lemma set_layer_of_graft ids l (G X : list Footprint) :
  set_layer_of ids l (graft G X) = graft (set_layer_of ids l G) X.
Proof.
  revert X. induction G as [|g G IH]; intros [|x X]; try reflexivity.
  rewrite graft_cons. cbn [set_layer_of map]. rewrite graft_cons.
  f_equal. apply IH.
Qed.

Lemma set_layer_of_length ids l ms : length (set_layer_of ids l ms) = length ms.
Proof. unfold set_layer_of. apply length_map. Qed.

(** ** The 2D part of filtering, there and back *)

(** The 2D part of [filter_pcb_components]. *)
Definition filter_2D (gs : Globals) (W_WRONGPASTE : string) (self : VariantOptions)
    (board : Board) : VariantOptions * Board :=
  let '(self, board) := cross_modules gs self board (comps_hash self) in
  let '(self, board) :=
    remove_paste_and_glue gs W_WRONGPASTE self board (comps_hash self) in
  if hides_excluded self then remove_fab gs self board (comps_hash self)
  else (self, board).

(** The 2D part of [unfilter_pcb_components]. *)
Definition unfilter_2D (gs : Globals) (self : VariantOptions) (board : Board)
    : result (VariantOptions * Board) :=
  '(self, board) ← uncross_modules gs self board (comps_hash self);
  '(self, board) ← restore_paste_and_glue gs self board (comps_hash self);
  Ok (self,
      if hides_excluded self then restore_fab self board (comps_hash self)
      else board).

Lemma fresh_id_above (ms : list Footprint) :
  Forall (fun id => (id < fresh_id ms)%nat) (all_ids ms).
Proof.
  unfold fresh_id. apply Forall_forall. intros x Hx.
  pose proof (max_list_elem_of_le _ _ Hx). lia.
Qed.

Lemma set_pads_same (m : Footprint) : set_pads (Pads m) m = m.
Proof. destruct m; reflexivity. Qed.

Lemma set_modules_same (b : Board) : set_modules (modules b) b = b.
Proof. destruct b; reflexivity. Qed.

Lemma set_cross_undo_same s : set_cross_undo (cross_undo s) s = s.
Proof. destruct s; reflexivity. Qed.

Lemma set_paste_undo_same s : set_paste_undo (paste_undo s) s = s.
Proof. destruct s; reflexivity. Qed.

Lemma set_fab_undo_same s : set_fab_undo (fab_undo s) s = s.
Proof. destruct s; reflexivity. Qed.

Lemma add_warnings_nil s : add_warnings [] s = s.
Proof. destruct s; unfold add_warnings; cbn. rewrite app_nil_r. reflexivity. Qed.

Lemma crossed_ref n m m1 : crossed n m m1 -> GetReference m1 = GetReference m.
Proof. intros (lines & -> & _). reflexivity. Qed.

Lemma crossed_pads n m m1 : crossed n m m1 -> Pads m1 = Pads m.
Proof. intros (lines & -> & _). reflexivity. Qed.

Lemma crossed_models n m m1 : crossed n m m1 -> Models m1 = Models m.
Proof. intros (lines & -> & _). reflexivity. Qed.

Lemma old_layers_crossed h n (ms ms1 : list Footprint) :
  Forall2 (crossed n) ms ms1 ->
  flat_map (fun m => if is_dnp h (GetReference m) then [Pads m] else []) ms1
  = flat_map (fun m => if is_dnp h (GetReference m) then [Pads m] else []) ms.
Proof.
  induction 1 as [|m m1 ms ms1 Hc _ IH]; [reflexivity|].
  cbn [flat_map]. rewrite IH, (crossed_ref _ _ _ Hc), (crossed_pads _ _ _ Hc). reflexivity.
Qed.

(** Crossing, and what uncrossing does after it. *)
Lemma cross_modules_spec gs self board h :
  exists ms1 cu,
    cross_modules gs self board (Some h) = (set_cross_undo cu self, set_modules ms1 board)
    /\ Forall2 (crossed (fresh_id (modules board))) (modules board) ms1
    /\ forall T tf s' X lid,
         item_wise T tf -> cross_undo s' = cu -> length X = length (modules board) ->
         exists cu',
           uncross_modules gs s' (mkBoard (graft (map T ms1) X) lid) (Some h)
           = Ok (set_cross_undo cu' s', mkBoard (graft (map T (modules board)) X) lid).
Proof.
  unfold cross_modules, uncross_modules.
  destruct (global_cross_footprints_for_dnp gs).
  - destruct (cross_loop _ _ _ _ _) as [ms1 u] eqn:Ec. exists ms1, u.
    pose proof (cross_loop_crossed _ _ _ _ _ _ _ Ec) as Hc.
    split; [reflexivity|]. split; [exact Hc|].
    intros T tf s' X lid HT Hcu Hlen. cbn [modules]. rewrite Hcu.
    pose proof (uncross_after_cross _ _ _ T tf _ HT _ _ _ Ec (fresh_id_above _)) as Hu.
    erewrite uncross_loop_graft; [| |exact Hu].
    + cbn [mbind result_bind rbind]. eexists. reflexivity.
    + rewrite length_map. apply Forall2_length in Hc. lia.
  - exists (modules board), (cross_undo self).
    rewrite set_cross_undo_same, set_modules_same.
    split; [reflexivity|]. split; [apply Forall2_refl_list, crossed_refl|].
    intros T tf s' X lid HT Hcu Hlen. exists (cross_undo s').
    rewrite set_cross_undo_same. reflexivity.
Qed.

(** Removing paste and adhesive. *)
Lemma remove_paste_and_glue_spec gs W self board h :
  let L := layers_of gs board in
  let cd (r : string) := is_dnp h r && global_remove_adhesive_for_dnp gs in
  exists pu ws,
    remove_paste_and_glue gs W self board (Some h)
    = (add_warnings ws (set_paste_undo pu self),
       set_modules
         (map (paste_glue_fp gs h (l_fpaste L) (l_bpaste L) (l_fmask L) (l_bmask L)
                 (l_fadhes L) (l_badhes L) (l_rescue L)) (modules board)) board)
    /\ (global_remove_solder_paste_for_dnp gs = true ->
        old_layers pu
        = flat_map (fun m => if is_dnp h (GetReference m) then [Pads m] else [])
            (modules board))
    /\ (global_remove_adhesive_for_dnp gs = true ->
        old_fadhes pu = marked cd (l_fadhes L) (modules board)
        /\ old_badhes pu = marked cd (l_badhes L) (modules board)
        /\ fadhes pu = l_fadhes L /\ badhes pu = l_badhes L).
Proof.
  intros L cd. unfold remove_paste_and_glue.
  destruct (global_remove_solder_paste_for_dnp gs) eqn:Ep;
    destruct (global_remove_adhesive_for_dnp gs) eqn:Ea; cbn [orb].
  1-3: eexists _, _; split;
    [rewrite paste_loop_modules; reflexivity|];
    cbn [old_layers old_fadhes old_badhes fadhes badhes];
    rewrite paste_loop_old_layers, paste_loop_old_fadhes, paste_loop_old_badhes, ?Ep, ?Ea;
    (split;
     [intros H; try discriminate; apply flat_map_ext; intros m;
      rewrite andb_true_r; reflexivity|]);
    intros H; try discriminate;
    repeat split; unfold marked, cd; rewrite ?Ea; reflexivity.
  exists (paste_undo self), []. rewrite add_warnings_nil, set_paste_undo_same.
  split; [|split; discriminate].
  f_equal. rewrite <- (set_modules_same board) at 1. f_equal.
  symmetry. apply map_id_on. intros m _. unfold paste_glue_fp, glue_fp, paste_fp.
  rewrite Ep, Ea. destruct (is_dnp h (GetReference m)); reflexivity.
Qed.

Lemma remove_fab_spec gs self board h :
  let L := layers_of gs board in
  remove_fab gs self board (Some h)
  = (set_fab_undo
       (mkFabUndo (marked (is_excluded h) (l_ffab L) (modules board))
          (marked (is_excluded h) (l_bfab L) (modules board)) (l_ffab L) (l_bfab L)) self,
     set_modules (map (fab_fp h (l_ffab L) (l_bfab L) (l_rescue L)) (modules board)) board).
Proof. intros L. unfold remove_fab. rewrite fab_loop_spec. reflexivity. Qed.

(** ** What the scan reads *)

Definition scan_equiv (a b : list GItem) : Prop :=
  forall v d s, scan_texts v a d s = scan_texts v b d s.

Lemma rule_of_same g g' :
  gi_class g = gi_class g' -> gi_text g = gi_text g' -> rule_of g = rule_of g'.
Proof. intros Hc Ht. unfold rule_of. rewrite Hc, Ht. reflexivity. Qed.

Lemma rule_of_graphic g : gi_class g = "MGRAPHIC" -> rule_of g = NoRule.
Proof. intros H. unfold rule_of. rewrite H. reflexivity. Qed.

Lemma rule_of_move_item l1 l2 rs g : rule_of (move_item l1 l2 rs g) = rule_of g.
Proof.
  apply rule_of_same; unfold move_item; destruct (_ =? l1), (_ =? l2); reflexivity.
Qed.

Lemma rule_of_hide_item gs h hide L m g : rule_of (hide_item gs h hide L m g) = rule_of g.
Proof.
  unfold hide_item.
  destruct (is_dnp h (GetReference m) && global_remove_adhesive_for_dnp gs),
    (hide && is_excluded h (GetReference m)); rewrite ?rule_of_move_item; reflexivity.
Qed.

Lemma scan_texts_rules v (a b : list GItem) :
  map rule_of a = map rule_of b -> forall d s, scan_texts v a d s = scan_texts v b d s.
Proof.
  revert b. induction a as [|x a IH]; intros [|y b] H d s; try discriminate; [reflexivity|].
  simpl in H. injection H as Hx H. cbn [scan_texts]. rewrite Hx.
  destruct (rule_of y) as [|var sl|var sl].
  - apply IH, H.
  - destruct (String.eqb var "_default_"); [apply IH, H|].
    destruct (String.eqb var (variant_name_of v)); [reflexivity|apply IH, H].
  - destruct v as [vr|]; [|reflexivity].
    destruct (matches_variant vr var); [reflexivity|apply IH, H].
Qed.

Lemma scan_texts_skip v (l a : list GItem) d s :
  Forall (fun g => rule_of g = NoRule) l ->
  scan_texts v (l ++ a) d s = scan_texts v a d s.
Proof.
  induction 1 as [|g l Hg _ IH]; [reflexivity|].
  cbn [app scan_texts]. rewrite Hg. exact IH.
Qed.

Lemma scan_equiv_hidden gs h hide L n m m1 :
  crossed n m m1 ->
  scan_equiv (GraphicalItems (hide_fp gs h hide L m1)) (GraphicalItems m).
Proof.
  intros (lines & -> & Hl) v d s.
  rewrite (iw_items _ _ (hide_fp_item_wise gs h hide L)).
  cbn [GraphicalItems set_items]. rewrite map_app, scan_texts_skip.
  - apply scan_texts_rules. rewrite map_map. apply map_ext. intros g.
    apply rule_of_hide_item.
  - apply Forall_forall. intros g Hg. apply list_elem_of_In, in_map_iff in Hg as (g0 & <- & Hg0).
    rewrite rule_of_hide_item. apply rule_of_graphic.
    rewrite Forall_forall in Hl. apply Hl, list_elem_of_In, Hg0.
Qed.

Lemma hide_fp_hide_excluded_eq gs h L m :
  hide_fp gs h true L m
  = fab_fp h (l_ffab L) (l_bfab L) (l_rescue L)
      (paste_glue_fp gs h (l_fpaste L) (l_bpaste L) (l_fmask L) (l_bmask L)
         (l_fadhes L) (l_badhes L) (l_rescue L) m).
Proof. reflexivity. Qed.

(** The 2D part, there and back: whatever models [X] the footprints carry
    when the board is restored. *)
Lemma twoD_round_trip gs W self board h :
  comps_hash self = Some h ->
  NoDup (all_ids (modules board)) ->
  exists cu pu fu ws ms3,
    filter_2D gs W self board
    = (set_fab_undo fu (add_warnings ws (set_paste_undo pu (set_cross_undo cu self))),
       set_modules ms3 board)
    /\ Forall2 models_eq (modules board) ms3
    /\ Forall2 (fun m m3 => scan_equiv (GraphicalItems m3) (GraphicalItems m))
         (modules board) ms3
    /\ forall s' X,
         length X = length (modules board) ->
         cross_undo s' = cu -> paste_undo s' = pu -> fab_undo s' = fu ->
         comps_hash s' = Some h -> hide_excluded s' = hide_excluded self ->
         exists cu' pu',
           unfilter_2D gs s' (set_modules (graft ms3 X) board)
           = Ok (set_paste_undo pu' (set_cross_undo cu' s'),
                 set_modules (graft (modules board) X) board).
Proof.
  intros Hh Hnd. unfold filter_2D. rewrite Hh.
  destruct (cross_modules_spec gs self board h) as (ms1 & cu & E1 & Hc & Hun).
  rewrite E1. cbn [comps_hash set_cross_undo]. rewrite Hh.
  destruct (remove_paste_and_glue_spec gs W (set_cross_undo cu self)
              (set_modules ms1 board) h) as (pu & ws & E2 & Hol & Hadh).
  rewrite E2. clear E1 E2.
  change (hides_excluded (add_warnings ws (set_paste_undo pu (set_cross_undo cu self))))
    with (hides_excluded self).
  change (layers_of gs (set_modules ms1 board)) with (layers_of gs board) in *.
  set (L := layers_of gs board) in *. cbn [modules set_modules] in Hol, Hadh.
  set (hide := hides_excluded self).
  set (ms := modules board) in *.
  set (n := fresh_id ms) in *.
  pose proof (restore_layers_back gs h hide L n ms ms1 Hnd (fresh_id_above ms) Hc) as RB.
  cbv zeta in RB. cbv beta in RB.
  set (ms2 := map (paste_glue_fp gs h (l_fpaste L) (l_bpaste L) (l_fmask L) (l_bmask L)
                     (l_fadhes L) (l_badhes L) (l_rescue L)) ms1) in *.
  exists cu, pu,
    (if hide
     then mkFabUndo (marked (is_excluded h) (l_ffab L) ms2)
            (marked (is_excluded h) (l_bfab L) ms2) (l_ffab L) (l_bfab L)
     else fab_undo self),
    ws, (map (hide_fp gs h hide L) ms1).
  split; [|split; [|split]].
  - destruct hide eqn:Eh.
    + change (comps_hash (add_warnings ws (set_paste_undo pu (set_cross_undo cu self))))
        with (comps_hash self). rewrite Hh.
      rewrite remove_fab_spec. cbn [modules set_modules]. fold ms2.
      unfold ms2. rewrite map_map. reflexivity.
    + replace (set_fab_undo (fab_undo self)
                 (add_warnings ws (set_paste_undo pu (set_cross_undo cu self))))
        with (add_warnings ws (set_paste_undo pu (set_cross_undo cu self)))
        by exact (eq_sym (set_fab_undo_same
                            (add_warnings ws (set_paste_undo pu (set_cross_undo cu self))))).
      reflexivity.
  - change (map ?f ?l) with (f <$> l). apply Forall2_fmap_r.
    eapply Forall2_impl; [exact Hc|]. intros m m1 Hm. split.
    + rewrite (iw_ref _ _ (hide_fp_item_wise gs h hide L)).
      symmetry. eapply crossed_ref, Hm.
    + rewrite hide_fp_models. symmetry. eapply crossed_models, Hm.
  - change (map ?f ?l) with (f <$> l). apply Forall2_fmap_r.
    eapply Forall2_impl; [exact Hc|]. intros m m1 Hm.
    eapply scan_equiv_hidden, Hm.
  - intros s' X Hlen Hcu Hpu Hfu Hh' Hhide.
    unfold unfilter_2D. rewrite Hh'.
    destruct (Hun (hide_fp gs h hide L) (hide_item gs h hide L) s' X (GetLayerID board)
                (hide_fp_item_wise gs h hide L) Hcu Hlen) as (cu' & Eu).
    change (set_modules (graft (map (hide_fp gs h hide L) ms1) X) board)
      with (mkBoard (graft (map (hide_fp gs h hide L) ms1) X) (GetLayerID board)).
    rewrite Eu. cbn [mbind result_bind rbind comps_hash set_cross_undo]. rewrite Hh'.
    set (T := hide_fp gs h hide L) in *.
    set (s1 := set_cross_undo cu' s').
    assert (Hp : exists pu1,
               old_fadhes pu1 = old_fadhes pu /\ old_badhes pu1 = old_badhes pu
               /\ fadhes pu1 = fadhes pu /\ badhes pu1 = badhes pu
               /\ (if global_remove_solder_paste_for_dnp gs
                   then
                     '(ms, old) ← restore_paste_loop h (graft (map T ms) X) (old_layers pu);
                     Ok (set_paste_undo
                           (mkPasteUndo old (old_fadhes pu) (old_badhes pu)
                              (fadhes pu) (badhes pu)) s1, ms)
                   else Ok (s1, graft (map T ms) X))
                  = Ok (set_paste_undo pu1 s1,
                        graft (map (fun m => set_pads (Pads m) (T m)) ms) X)).
    { destruct (global_remove_solder_paste_for_dnp gs) eqn:Ep.
      - eexists (mkPasteUndo [] _ _ _ _). repeat split.
        rewrite (Hol eq_refl), (old_layers_crossed _ _ _ _ Hc).
        rewrite <- (app_nil_r (flat_map _ ms)).
        erewrite restore_paste_loop_graft;
          [| |apply restore_paste_after].
        + reflexivity.
        + rewrite length_map. lia.
        + apply (iw_ref _ _ (hide_fp_item_wise gs h hide L)).
        + intros m. unfold T. rewrite hide_fp_pads.
          destruct (_ && _); [apply length_map|reflexivity].
        + intros m Hd. unfold T. rewrite hide_fp_pads, Hd. reflexivity.
      - exists pu. repeat split. f_equal. f_equal.
        + subst s1. rewrite <- Hpu. symmetry.
          exact (set_paste_undo_same (set_cross_undo cu' s')).
        + f_equal. apply map_ext. intros m. unfold T.
          rewrite <- (set_pads_same (hide_fp gs h hide L m)) at 1.
          rewrite hide_fp_pads, Ep, andb_false_r. reflexivity. }
    destruct Hp as (pu1 & Hfa & Hba & Hfl & Hbl & Hp).
    unfold restore_paste_and_glue. cbn [modules]. fold s1.
    assert (Hs1 : paste_undo s1 = pu) by exact Hpu. rewrite Hs1.
    rewrite Hp. cbn [mbind result_bind rbind].
    change (paste_undo (set_paste_undo pu1 s1)) with pu1.
    change (comps_hash (set_paste_undo pu1 s1)) with (comps_hash s'). rewrite Hh'.
    assert (Hhs : hides_excluded (set_paste_undo pu1 s1) = hide).
    { unfold hide, hides_excluded. cbn [hide_excluded set_paste_undo]. subst s1.
      cbn [hide_excluded set_cross_undo]. rewrite Hhide. reflexivity. }
    rewrite Hhs. exists cu', pu1. fold s1.
    unfold restore_fab.
    change (fab_undo (set_paste_undo pu1 s1)) with (fab_undo s'). rewrite Hfu.
    rewrite Hfa, Hba, Hfl, Hbl.
    destruct hide, (global_remove_adhesive_for_dnp gs) eqn:Ea;
      cbn [old_ffab old_bfab ffab bfab set_modules modules GetLayerID];
      try (destruct (Hadh eq_refl) as (-> & -> & -> & ->));
      rewrite ?set_layer_of_graft, RB; reflexivity.
Qed.


(** ** The 3D part: the slots *)

(** The slot list a scan makes the code apply, if any. *)
Definition choice (e : scan_end) : option (list string) :=
  match e with
  | Matched sl => Some sl
  | Through (Some _) (Some sl) => Some sl
  | Through _ _ => None
  end.

Definition rmap {A B} (f : A -> B) (r : result A) : result B :=
  match r with
  | Ok a => Ok (f a)
  | Raise e => Raise e
  end.

Lemma choice_independent v (items : list GItem) :
  forall d s s',
    (d <> None -> s = s') ->
    rmap choice (scan_texts v items d s) = rmap choice (scan_texts v items d s').
Proof.
  induction items as [|g items IH]; intros d s s' H.
  - cbn. destruct d as [d|]; [|reflexivity]. rewrite (H ltac:(discriminate)). reflexivity.
  - cbn [scan_texts]. destruct (rule_of g) as [|var sl|var sl].
    + apply IH, H.
    + reflexivity.
    + reflexivity.
Qed.

Lemma aspect_footprint_choice D len v enable sv m :
  rmap fst (aspect_footprint D len v enable sv m)
  = (c ← rmap choice (scan_texts v (GraphicalItems m) None sv);
     match c with
     | Some sl =>
         ms ← apply_list_of_3D_models D len enable sl (Models m); Ok (set_models ms m)
     | None => Ok m
     end).
Proof.
  unfold aspect_footprint.
  destruct (scan_texts v (GraphicalItems m) None sv) as [[sl|[d|] [s|]]|e]; cbn;
    try reflexivity;
    destruct (apply_list_of_3D_models D len enable _ (Models m)); reflexivity.
Qed.

Lemma aspect_footprint_independent D len v enable sv sv' m :
  rmap fst (aspect_footprint D len v enable sv m)
  = rmap fst (aspect_footprint D len v enable sv' m).
Proof.
  rewrite !aspect_footprint_choice.
  rewrite (choice_independent v (GraphicalItems m) None sv sv'); [reflexivity|].
  intros H. contradiction.
Qed.

Lemma rmap_fst_inv {A B} (r : result (A * B)) (a : A) :
  rmap fst r = Ok a -> exists b, r = Ok (a, b).
Proof. destruct r as [[a' b]|e]; cbn; intros H; [|discriminate]. injection H as ->. eauto. Qed.

Lemma aspect_loop_independent D len v enable (ms : list Footprint) :
  forall sv sv', aspect_loop D len v enable sv ms = aspect_loop D len v enable sv' ms.
Proof.
  induction ms as [|m ms IH]; intros sv sv'; [reflexivity|].
  cbn [aspect_loop].
  pose proof (aspect_footprint_independent D len v enable sv sv' m) as H.
  destruct (aspect_footprint D len v enable sv m) as [[m1 s1]|e1],
    (aspect_footprint D len v enable sv' m) as [[m2 s2]|e2]; cbn in H; try discriminate.
  - injection H as ->. cbn. rewrite (IH s1 s2). reflexivity.
  - injection H as ->. reflexivity.
Qed.

Lemma apply_list_ok D len enable sl models ms :
  apply_list_of_3D_models D len enable sl models = Ok ms ->
  exists ns, slot_numbers sl = Ok ns /\ ms = mask_models D len enable ns 0 models.
Proof.
  intros H. destruct (slot_numbers sl) as [ns|e] eqn:E.
  - rewrite (apply_list_of_3D_models_eq _ _ _ _ _ _ E) in H. injection H as <-. eauto.
  - unfold apply_list_of_3D_models in H. rewrite E in H. discriminate.
Qed.

(** One footprint: enabling after disabling gives the models back. *)
Lemma aspect_footprint_back D v sv sv' m m4 s4 :
  D <> "" ->
  aspect_footprint D (String.length D) v false sv m = Ok (m4, s4) ->
  rmap fst (aspect_footprint D (String.length D) v true sv' m4) = Ok m.
Proof.
  intros HD H.
  assert (H' : rmap fst (aspect_footprint D (String.length D) v false sv m) = Ok m4)
    by (rewrite H; reflexivity).
  rewrite aspect_footprint_choice in H' |- *.
  assert (Hi : GraphicalItems m4 = GraphicalItems m).
  { destruct (rmap choice _) as [[sl|]|]; cbn in H'; try discriminate.
    - destruct (apply_list_of_3D_models _ _ _ _ _); cbn in H'; [|discriminate].
      injection H' as <-. reflexivity.
    - injection H' as <-. reflexivity. }
  rewrite Hi, (choice_independent v (GraphicalItems m) None sv' sv) by contradiction.
  destruct (rmap choice (scan_texts v (GraphicalItems m) None sv)) as [[sl|]|];
    cbn in H' |- *; try discriminate.
  - destruct (apply_list_of_3D_models D _ false sl (Models m)) as [ms|] eqn:E;
      cbn in H'; [|discriminate].
    injection H' as <-. cbn [Models set_models].
    apply apply_list_ok in E as (ns & Hs & ->).
    rewrite (apply_list_of_3D_models_eq _ _ _ _ _ _ Hs), mask_disable_enable by exact HD.
    cbn. destruct m; reflexivity.
  - injection H' as <-. reflexivity.
Qed.

Lemma aspect_loop_back D v (ms : list Footprint) :
  D <> "" ->
  forall sv sv' ms4,
    aspect_loop D (String.length D) v false sv ms = Ok ms4 ->
    aspect_loop D (String.length D) v true sv' ms4 = Ok ms.
Proof.
  intros HD. induction ms as [|m ms IH]; intros sv sv' ms4 H.
  - cbn in H. injection H as <-. reflexivity.
  - cbn [aspect_loop] in H.
    destruct (aspect_footprint D _ v false sv m) as [[m4 s4]|] eqn:E; [|discriminate].
    cbn in H. destruct (aspect_loop D _ v false s4 ms) as [rest|] eqn:Er; [|discriminate].
    cbn in H. injection H as <-. cbn [aspect_loop].
    destruct (rmap_fst_inv _ _ (aspect_footprint_back D v sv sv' m m4 s4 HD E)) as [s5 ->].
    cbn. rewrite (IH s4 s5 rest Er). reflexivity.
Qed.

Lemma aspect_loop_geo D len v enable (ms : list Footprint) :
  forall sv ms', aspect_loop D len v enable sv ms = Ok ms' -> Forall2 geo_eq ms ms'.
Proof.
  induction ms as [|m ms IH]; intros sv ms' H.
  - cbn in H. injection H as <-. constructor.
  - cbn [aspect_loop] in H.
    destruct (aspect_footprint D len v enable sv m) as [[m1 s1]|] eqn:E; [|discriminate].
    cbn in H. destruct (aspect_loop D len v enable s1 ms) as [rest|] eqn:Er; [|discriminate].
    cbn in H. injection H as <-. constructor; [|eapply IH; exact Er].
    unfold aspect_footprint in E.
    destruct (scan_texts v (GraphicalItems m) None sv) as [[sl|[d|] [s|]]|]; cbn in E;
      try discriminate;
      try (injection E as <- <-; repeat split);
      destruct (apply_list_of_3D_models _ _ _ _ _); cbn in E; try discriminate;
      injection E as <- <-; repeat split.
Qed.

(** The scan of a footprint with other graphics, as long as the scan reads
    the same in them. *)
Lemma aspect_loop_graft D len v enable (G : list Footprint) :
  forall (X r : list Footprint) sv sv',
    Forall2 (fun g x => scan_equiv (GraphicalItems g) (GraphicalItems x)) G X ->
    aspect_loop D len v enable sv X = Ok r ->
    aspect_loop D len v enable sv' (graft G X) = Ok (graft G r).
Proof.
  induction G as [|g G IH]; intros X r sv sv' HF H.
  - inversion HF; subst. cbn in H. injection H as <-. reflexivity.
  - inversion HF as [|? x ? X' Hs HF']; subst. cbn [aspect_loop] in H.
    destruct (aspect_footprint D len v enable sv x) as [[x1 s1]|] eqn:E; [|discriminate].
    cbn in H. destruct (aspect_loop D len v enable s1 X') as [rest|] eqn:Er; [|discriminate].
    cbn in H. injection H as <-. rewrite !graft_cons. cbn [aspect_loop].
    assert (Hx : rmap fst (aspect_footprint D len v enable sv' (set_models (Models x) g))
                 = Ok (set_models (Models x1) g)).
    { assert (E' : rmap fst (aspect_footprint D len v enable sv x) = Ok x1)
        by (rewrite E; reflexivity).
      rewrite aspect_footprint_choice in E' |- *. cbn [GraphicalItems Models set_models].
      rewrite (choice_independent v (GraphicalItems g) None sv' sv) by contradiction.
      rewrite (Hs v None sv).
      destruct (rmap choice (scan_texts v (GraphicalItems x) None sv)) as [[sl|]|];
        cbn in E' |- *; try discriminate.
      - destruct (apply_list_of_3D_models D len enable sl (Models x)); cbn in E' |- *;
          [|discriminate]. injection E' as <-. reflexivity.
      - injection E' as <-. reflexivity. }
    destruct (rmap_fst_inv _ _ Hx) as [s2 ->]. cbn.
    rewrite (IH X' rest s1 s2 HF' Er). reflexivity.
Qed.


(** ** The 3D part: removing and renaming the models *)

Lemma mkModel_name (ms : list Model) : map mkModel (map m_Filename ms) = ms.
Proof. induction ms as [|[f] ms IH]; [reflexivity|]. cbn. rewrite IH. reflexivity. Qed.

Lemma drain_rev (models : list Model) :
  drain_append (length models) models [] = rev models.
Proof. rewrite drain_append_all by lia. reflexivity. Qed.

Lemma push_front_rev (l : list Model) : push_front_all (rev l) [] = l.
Proof. rewrite push_front_all_rev, rev_involutive, app_nil_r. reflexivity. Qed.

Lemma undo_names_none (l : list Model) (i : nat) :
  undo_names ∅ None i l = Ok l.
Proof.
  revert i. induction l as [|[f] l IH]; intros i; [reflexivity|].
  cbn [undo_names]. rewrite lookup_empty. cbn. rewrite IH. reflexivity.
Qed.

Lemma undo_names_empty (l : list Model) (i : nat) :
  undo_names ∅ (Some []) i l = Ok l.
Proof.
  revert i. induction l as [|[f] l IH]; intros i; [reflexivity|].
  cbn [undo_names]. rewrite lookup_empty. cbn. rewrite IH. reflexivity.
Qed.

Lemma undo_names_all (names : list string) (l : list Model) :
  forall i : nat,
    (i + length l)%nat = length names ->
    undo_names ∅ (Some names) i l = Ok (map mkModel (drop i names)).
Proof.
  induction l as [|m l IH]; intros i H.
  - simpl in H. rewrite drop_ge by lia. destruct names; reflexivity.
  - simpl in H. destruct (lookup_lt_is_Some_2 names i ltac:(lia)) as [y Hy].
    cbn [undo_names]. rewrite lookup_empty.
    destruct names as [|x xs]; [simpl in H; lia|].
    rewrite Hy. cbn [mbind result_bind rbind].
    rewrite IH by lia. cbn [mbind result_bind rbind].
    rewrite (drop_S _ _ _ Hy). reflexivity.
Qed.

Definition consistent (h : gmap string Component) : Prop :=
  forall k c, h !! k = Some c -> ref c = k.

Lemma refs_dict_consistent comps : consistent (refs_dict comps).
Proof. intros k c H. apply refs_dict_key in H. tauto. Qed.

(** The footprint as the removal of its models leaves it, names put back. *)
Definition emptied (h : gmap string Component) (m : Footprint) : Footprint :=
  if is_dnp h (GetReference m) then set_models [] m else m.

Lemma set_models_same (m : Footprint) : set_models (Models m) m = m.
Proof. destruct m; reflexivity. Qed.

Lemma rename_all_length (l : list Model) (names : list string) (l' : list Model) :
  rename_all l names = Ok l' -> length l' = length l.
Proof.
  revert names l'. induction l as [|m l IH]; intros names l' H.
  - cbn in H. injection H as <-. reflexivity.
  - cbn in H. destruct names as [|n names]; [discriminate|].
    destruct (rename_all l names) as [r|] eqn:E; [|discriminate].
    cbn in H. injection H as <-. simpl. f_equal. eapply IH, E.
Qed.

Lemma replace_3D_models_ok u models new_model c models' u' :
  replace_3D_models u models new_model c = Ok (models', u') ->
  length models' = length models
  /\ u' = <[ref c := map m_Filename (rev models)]> u.
Proof.
  unfold replace_3D_models. rewrite drain_rev, length_rev.
  intros H.
  destruct (if (1 <? length models)%nat then _ else _) as [names|]; [|discriminate].
  cbn [mbind result_bind rbind] in H.
  destruct (rename_all (rev models) names) as [l|] eqn:E; [|discriminate].
  cbn [mbind result_bind rbind] in H. injection H as <- <-.
  split; [|reflexivity].
  rewrite push_front_all_rev, app_nil_r, length_rev.
  rewrite (rename_all_length _ _ _ E), length_rev. reflexivity.
Qed.

Lemma undo_one (names : list string) (models models' : list Model) :
  length models' = length models ->
  names = map m_Filename (rev models) ->
  undo_names ∅ (Some names) 0 (rev models') = Ok (rev models).
Proof.
  intros Hl ->. destruct models as [|m models].
  - destruct models'; [|discriminate]. reflexivity.
  - rewrite undo_names_all.
    + rewrite drop_0, mkModel_name. reflexivity.
    + rewrite !length_map, !length_rev. simpl. simpl in Hl. lia.
Qed.

Lemma remove_then_undo gs h (ms : list Footprint) :
  consistent h ->
  forall u0 ms5 rem u',
    NoDup (map GetReference ms) ->
    (forall m, m ∈ ms -> u0 !! GetReference m = None) ->
    remove_models_loop gs h u0 ms = Ok (ms5, rem, u') ->
    undo_rename_loop ∅ u' ms5 = Ok (map (emptied h) ms)
    /\ rem = flat_map (fun m => if is_dnp h (GetReference m) then [rev (Models m)] else [])
               ms
    /\ (forall k, k ∉ map GetReference ms -> u' !! k = u0 !! k).
Proof.
  intros Hh. induction ms as [|m ms IH]; intros u0 ms5 rem u' Hnd Hu H.
  - cbn in H. injection H as <- <- <-. repeat split.
  - cbn [map] in Hnd. apply NoDup_cons in Hnd as [Hm Hnd].
    assert (Hu' : forall u1 : gmap string (list string),
                  (forall k, k <> GetReference m -> u1 !! k = u0 !! k) ->
                  forall a, a ∈ ms -> u1 !! GetReference a = None).
    { intros u1 H1 a Ha. rewrite H1; [apply Hu; right; exact Ha|].
      intros E. apply Hm. rewrite <- E. apply list_elem_of_In, in_map, list_elem_of_In, Ha. }
    cbn [remove_models_loop] in H. cbn [map flat_map].
    assert (Hd : is_dnp h (GetReference m)
                 = match h !! GetReference m with
                   | Some c => included c && negb (fitted c)
                   | None => false
                   end) by reflexivity.
    replace (emptied h m)
      with (if is_dnp h (GetReference m) then set_models [] m else m) by reflexivity.
    rewrite Hd. clear Hd.
    destruct (h !! GetReference m) as [c|] eqn:Ec.
    + destruct (included c && negb (fitted c)) eqn:Ed.
      * destruct (remove_models_loop gs h u0 ms) as [[[rest r0] u1]|] eqn:Er; [|discriminate].
        cbn in H. injection H as <- <- <-.
        destruct (IH u0 rest r0 u1 Hnd (Hu' u0 ltac:(reflexivity)) Er) as (IH1 & IH2 & IH3).
        split; [|split].
        -- cbn [undo_rename_loop Models set_models GetReference].
           cbn. rewrite IH1. reflexivity.
        -- rewrite drain_rev, IH2. reflexivity.
        -- intros k Hk. apply IH3. intros Hin. apply Hk. right. exact Hin.
      * destruct (String.eqb (get_field_value (fields c) (global_field_3D_model gs)) "").
        -- destruct (remove_models_loop gs h u0 ms) as [[[rest r0] u1]|] eqn:Er;
             [|discriminate].
           cbn in H. injection H as <- <- <-.
           destruct (IH u0 rest r0 u1 Hnd (Hu' u0 ltac:(reflexivity)) Er)
             as (IH1 & IH2 & IH3).
           split; [|split].
           ++ cbn [undo_rename_loop]. rewrite IH3 by exact Hm.
              rewrite (Hu m ltac:(left)), drain_rev, undo_names_none.
              cbn [mbind result_bind rbind]. rewrite IH1. cbn.
              rewrite push_front_rev, set_models_same. reflexivity.
           ++ exact IH2.
           ++ intros k Hk. apply IH3. intros Hin. apply Hk. right. exact Hin.
        -- destruct (replace_3D_models u0 (Models m) _ c) as [[models1 u1]|] eqn:Erep;
             [|discriminate].
           cbn [mbind result_bind rbind] in H.
           destruct (remove_models_loop gs h u1 ms) as [[[rest r0] u2]|] eqn:Er;
             [|discriminate].
           cbn in H. injection H as <- <- <-.
           apply replace_3D_models_ok in Erep as [Hlen ->].
           rewrite (Hh _ _ Ec) in *.
           assert (Hne : forall a, a ∈ ms ->
                      <[GetReference m := map m_Filename (rev (Models m))]> u0
                        !! GetReference a = None).
           { apply Hu'. intros k Hk. apply lookup_insert_ne. congruence. }
           destruct (IH _ rest r0 u2 Hnd Hne Er) as (IH1 & IH2 & IH3).
           split; [|split].
           ++ cbn [undo_rename_loop GetReference Models set_models].
              rewrite IH3 by exact Hm. rewrite lookup_insert_eq, drain_rev.
              rewrite (undo_one _ (Models m) models1 Hlen eq_refl).
              cbn [mbind result_bind rbind]. rewrite IH1. cbn.
              rewrite push_front_rev. destruct m; reflexivity.
           ++ exact IH2.
           ++ intros k Hk. rewrite IH3 by (intros Hin; apply Hk; right; exact Hin).
              apply lookup_insert_ne. intros E. apply Hk. rewrite <- E. left.
    + destruct (remove_models_loop gs h u0 ms) as [[[rest r0] u1]|] eqn:Er; [|discriminate].
      cbn in H. injection H as <- <- <-.
      destruct (IH u0 rest r0 u1 Hnd (Hu' u0 ltac:(reflexivity)) Er) as (IH1 & IH2 & IH3).
      split; [|split].
      * cbn [undo_rename_loop]. rewrite IH3 by exact Hm.
        rewrite (Hu m ltac:(left)), drain_rev, undo_names_none.
        cbn [mbind result_bind rbind]. rewrite IH1. cbn.
        rewrite push_front_rev, set_models_same. reflexivity.
      * exact IH2.
      * intros k Hk. apply IH3. intros Hin. apply Hk. right. exact Hin.
Qed.


Definition ref_eq (a b : Footprint) : Prop := GetReference a = GetReference b.

Lemma ref_eq_map (a b : list Footprint) :
  Forall2 ref_eq a b -> map GetReference a = map GetReference b.
Proof. induction 1 as [|x y a b H _ IH]; [reflexivity|]. cbn. rewrite H, IH. reflexivity. Qed.

Lemma geo_ref (a b : list Footprint) : Forall2 geo_eq a b -> Forall2 ref_eq a b.
Proof. intros H. eapply Forall2_impl; [exact H|]. intros x y (E & _). exact E. Qed.

Lemma models_ref (a b : list Footprint) : Forall2 models_eq a b -> Forall2 ref_eq a b.
Proof. intros H. eapply Forall2_impl; [exact H|]. intros x y (E & _). exact E. Qed.

Lemma restore_models_after h (ms : list Footprint) (tail : list (list Model)) :
  restore_models_loop h (map (emptied h) ms)
    (flat_map (fun m => if is_dnp h (GetReference m) then [rev (Models m)] else []) ms
     ++ tail)
  = Ok (ms, tail).
Proof.
  induction ms as [|m ms IH]; [reflexivity|].
  cbn [map flat_map restore_models_loop].
  assert (He : emptied h m = if is_dnp h (GetReference m) then set_models [] m else m)
    by reflexivity.
  destruct (is_dnp h (GetReference m)) eqn:E; rewrite He.
  - cbn [GetReference set_models Models app]. rewrite E, IH.
    cbn [mbind result_bind rbind]. rewrite push_front_rev. destruct m; reflexivity.
  - rewrite E. cbn [app]. rewrite IH. reflexivity.
Qed.

Lemma undo_rename_loop_graft un ur (G : list Footprint) :
  forall (X r : list Footprint),
    Forall2 ref_eq G X ->
    undo_rename_loop un ur X = Ok r ->
    undo_rename_loop un ur (graft G X) = Ok (graft G r).
Proof.
  induction G as [|g G IH]; intros X r HF H.
  - inversion HF; subst. cbn in H. injection H as <-. reflexivity.
  - inversion HF as [|? x ? X' Hr HF']; subst. cbn [undo_rename_loop] in H.
    rewrite graft_cons. cbn [undo_rename_loop GetReference Models set_models].
    rewrite Hr.
    destruct (undo_names un (ur !! GetReference x) 0 _) as [l|]; [|discriminate].
    cbn [mbind result_bind rbind] in H |- *.
    destruct (undo_rename_loop un ur X') as [rest|] eqn:Er; [|discriminate].
    cbn [mbind result_bind rbind] in H. injection H as <-.
    rewrite (IH X' rest HF' Er). reflexivity.
Qed.

Lemma restore_models_loop_graft h (G : list Footprint) :
  forall (X r : list Footprint) rem rem',
    Forall2 ref_eq G X ->
    restore_models_loop h X rem = Ok (r, rem') ->
    restore_models_loop h (graft G X) rem = Ok (graft G r, rem').
Proof.
  induction G as [|g G IH]; intros X r rem rem' HF H.
  - inversion HF; subst. cbn in H. injection H as <- <-. reflexivity.
  - inversion HF as [|? x ? X' Hr HF']; subst. cbn [restore_models_loop] in H.
    rewrite graft_cons. cbn [restore_models_loop GetReference Models set_models].
    rewrite Hr. destruct (is_dnp h (GetReference x)).
    + destruct rem as [|restore rem0]; [discriminate|].
      destruct (restore_models_loop h X' rem0) as [[rest rem1]|] eqn:Er; [|discriminate].
      cbn [mbind result_bind rbind] in H. injection H as <- <-.
      rewrite (IH X' rest _ _ HF' Er). reflexivity.
    + destruct (restore_models_loop h X' rem) as [[rest rem1]|] eqn:Er; [|discriminate].
      cbn [mbind result_bind rbind] in H. injection H as <- <-.
      rewrite (IH X' rest _ _ HF' Er). reflexivity.
Qed.

Lemma remove_models_loop_geo gs h (ms : list Footprint) :
  forall u ms' rem u',
    remove_models_loop gs h u ms = Ok (ms', rem, u') -> Forall2 geo_eq ms ms'.
Proof.
  induction ms as [|m ms IH]; intros u ms' rem u' H.
  - cbn in H. injection H as <- <- <-. constructor.
  - cbn [remove_models_loop] in H.
    destruct (h !! GetReference m) as [c|].
    + destruct (included c && negb (fitted c)).
      * destruct (remove_models_loop gs h u ms) as [[[rest r0] u1]|] eqn:Er; [|discriminate].
        cbn in H. injection H as <- <- <-.
        constructor; [repeat split|eapply IH; exact Er].
      * destruct (String.eqb _ _).
        -- destruct (remove_models_loop gs h u ms) as [[[rest r0] u1]|] eqn:Er;
             [|discriminate].
           cbn in H. injection H as <- <- <-.
           constructor; [repeat split|eapply IH; exact Er].
        -- destruct (replace_3D_models u (Models m) _ c) as [[models1 u1]|]; [|discriminate].
           cbn [mbind result_bind rbind] in H.
           destruct (remove_models_loop gs h u1 ms) as [[[rest r0] u2]|] eqn:Er;
             [|discriminate].
           cbn in H. injection H as <- <- <-.
           constructor; [repeat split|eapply IH; exact Er].
    + destruct (remove_models_loop gs h u ms) as [[[rest r0] u1]|] eqn:Er; [|discriminate].
      cbn in H. injection H as <- <- <-.
      constructor; [repeat split|eapply IH; exact Er].
Qed.

Lemma undo_rename_loop_clean (ms : list Footprint) :
  undo_rename_loop ∅ ∅ ms = Ok ms.
Proof.
  induction ms as [|m ms IH]; [reflexivity|].
  cbn [undo_rename_loop]. rewrite lookup_empty, drain_rev, undo_names_none.
  cbn [mbind result_bind rbind]. rewrite IH. cbn.
  rewrite push_front_rev, set_models_same. reflexivity.
Qed.

Lemma refs_foldl_nonempty (comps : list Component) (acc : gmap string Component) :
  acc <> ∅ -> foldl (fun h c => <[ref c := c]> h) acc comps <> ∅.
Proof.
  revert acc. induction comps as [|c comps IH]; intros acc H; [exact H|].
  cbn. apply IH. apply insert_non_empty.
Qed.

Lemma refs_dict_nonempty (c : Component) (comps : list Component) :
  refs_dict (c :: comps) <> ∅.
Proof. unfold refs_dict. cbn. apply refs_foldl_nonempty, insert_non_empty. Qed.

Lemma Forall2_chain {A B C} (P : A -> B -> Prop) (Q : B -> C -> Prop) (R : A -> C -> Prop)
    (l : list A) (k : list B) (j : list C) :
  (forall x y z, P x y -> Q y z -> R x z) ->
  Forall2 P l k -> Forall2 Q k j -> Forall2 R l j.
Proof.
  intros H HP. revert j. induction HP as [|x y l k Hxy _ IH]; intros j HQ.
  - inversion HQ. constructor.
  - inversion HQ as [|? z ? j' Hyz HQ']; subst. constructor; [eapply H; eassumption|].
    apply IH, HQ'.
Qed.

Lemma emptied_ref h m : GetReference (emptied h m) = GetReference m.
Proof. unfold emptied. destruct (is_dnp h (GetReference m)); reflexivity. Qed.

(** ** The 3D part of filtering, there and back *)

(** The 3D part of [filter_pcb_components]. *)
Definition filter_3D (gs : Globals) (DISABLE_3D_MODEL_TEXT W_NOCRTYD : string)
    (self : VariantOptions) (board : Board) (highlight : option (list string))
    : result (VariantOptions * Board) :=
  '(self, board) ← apply_3D_variant_aspect DISABLE_3D_MODEL_TEXT self board false;
  '(self, board) ← remove_3D_models gs self board (comps_hash self);
  Ok (highlight_3D_models gs W_NOCRTYD self board highlight).

(** The 3D part of [unfilter_pcb_components]. *)
Definition unfilter_3D (DISABLE_3D_MODEL_TEXT : string) (self : VariantOptions)
    (board : Board) : result (VariantOptions * Board) :=
  '(self, board) ← restore_3D_models self board (comps_hash self);
  '(self, board) ← apply_3D_variant_aspect DISABLE_3D_MODEL_TEXT self board true;
  unhighlight_3D_models self board.

Lemma filter_pcb_components_parts gs D W1 W2 self board do_3D do_2D highlight :
  filter_pcb_components gs D W1 W2 self board do_3D do_2D highlight
  = if no_comps self then Ok (false, self, board)
    else
      let self1 := set_comps_hash (get_refs_hash self) self in
      let '(self2, board2) :=
        if do_2D then filter_2D gs W1 self1 board else (self1, board) in
      '(self3, board3) ←
        (if do_3D then filter_3D gs D W2 self2 board2 highlight else Ok (self2, board2));
      Ok (true, self3, board3).
Proof. reflexivity. Qed.

Lemma unfilter_pcb_components_parts gs D self board do_3D do_2D :
  unfilter_pcb_components gs D self board do_3D do_2D
  = if no_comps self then Ok (self, board)
    else
      '(self1, board1) ←
        (if do_2D then unfilter_2D gs self board else Ok (self, board));
      if do_3D then unfilter_3D D self1 board1 else Ok (self1, board1).
Proof. reflexivity. Qed.

(** The three 3D passes on the lists of footprints, and the passes that
    undo them applied to the same models under the footprints [ms0]. *)
Lemma threeD_lists gs D v h (ms0 ms3 ms4 ms5 : list Footprint) rem u' :
  D <> "" -> consistent h ->
  NoDup (map GetReference ms3) ->
  Forall2 models_eq ms0 ms3 ->
  Forall2 (fun m m3 => scan_equiv (GraphicalItems m3) (GraphicalItems m)) ms0 ms3 ->
  aspect_loop D (String.length D) v false None ms3 = Ok ms4 ->
  remove_models_loop gs h ∅ ms4 = Ok (ms5, rem, u') ->
  Forall2 geo_eq ms3 ms5
  /\ undo_rename_loop ∅ u' (graft ms0 ms5) = Ok (graft ms0 (map (emptied h) ms4))
  /\ restore_models_loop h (graft ms0 (map (emptied h) ms4)) rem = Ok (graft ms0 ms4, [])
  /\ aspect_loop D (String.length D) v true None (graft ms0 ms4) = Ok ms0.
Proof.
  intros HD Hh Hnd Hmo Hsc Ha Hr.
  pose proof (aspect_loop_geo _ _ _ _ _ _ _ Ha) as G34.
  pose proof (remove_models_loop_geo _ _ _ _ _ _ _ Hr) as G45.
  pose proof (models_ref _ _ Hmo) as R03.
  pose proof (geo_ref _ _ G34) as R34.
  pose proof (geo_ref _ _ G45) as R45.
  assert (R04 : Forall2 ref_eq ms0 ms4).
  { eapply Forall2_chain; [|exact R03|exact R34]. unfold ref_eq. congruence. }
  assert (R05 : Forall2 ref_eq ms0 ms5).
  { eapply Forall2_chain; [|exact R04|exact R45]. unfold ref_eq. congruence. }
  assert (Hnd4 : NoDup (map GetReference ms4)).
  { rewrite <- (ref_eq_map _ _ R34). exact Hnd. }
  destruct (remove_then_undo gs h ms4 Hh ∅ ms5 rem u' Hnd4
              ltac:(intros; apply lookup_empty) Hr) as (U1 & Hrem & _).
  split; [|split; [|split]].
  - eapply Forall2_chain; [|exact G34|exact G45].
    intros x y z (? & ? & ?) (? & ? & ?). repeat split; congruence.
  - apply undo_rename_loop_graft; assumption.
  - apply restore_models_loop_graft.
    + change (map ?f ?l) with (f <$> l). apply Forall2_fmap_r.
      eapply Forall2_impl; [exact R04|]. intros x y E. unfold compose, ref_eq.
      rewrite emptied_ref. exact E.
    + rewrite Hrem. rewrite <- (app_nil_r (flat_map _ ms4)). apply restore_models_after.
  - rewrite (aspect_loop_graft D _ v true ms0 ms4 ms3 None None).
    + rewrite graft_models by exact Hmo. reflexivity.
    + eapply Forall2_chain; [|exact Hsc|exact G34].
      intros x y z Hs (_ & Hi & _) w d s. rewrite <- Hi. symmetry. apply Hs.
    + eapply aspect_loop_back; eassumption.
Qed.

Lemma usable_hash_some (h : gmap string Component) : h <> ∅ -> usable_hash (Some h) = Some h.
Proof. intros H. unfold usable_hash. rewrite bool_decide_false by exact H. reflexivity. Qed.

(** The 3D part, there and back: [ms0] are the footprints the 3D models
    go back under. *)
Lemma threeD_round_trip gs D W self board h (ms0 : list Footprint) self' board' :
  D <> "" -> comps_hash self = Some h -> h <> ∅ -> consistent h ->
  NoDup (map GetReference (modules board)) ->
  undo_3d_models self = ∅ -> undo_3d_models_rep self = ∅ ->
  Forall2 models_eq ms0 (modules board) ->
  Forall2 (fun m m3 => scan_equiv (GraphicalItems m3) (GraphicalItems m))
    ms0 (modules board) ->
  filter_3D gs D W self board None = Ok (self', board') ->
  exists ms5 rem u',
    self' = set_rem_models rem (set_undo_3d ∅ u' (set_len_disable (String.length D) self))
    /\ board' = set_modules ms5 board
    /\ Forall2 geo_eq (modules board) ms5
    /\ forall s',
         comps_hash s' = Some h -> undo_3d_models s' = ∅ ->
         undo_3d_models_rep s' = u' -> rem_models s' = rem ->
         variant s' = variant self -> _highlighted_3D_components s' = None ->
         exists s'',
           unfilter_3D D s' (set_modules (graft ms0 ms5) board)
           = Ok (s'', set_modules ms0 board).
Proof.
  intros HD Hh Hne Hc Hnd Hu Hur Hmo Hsc H.
  unfold filter_3D, apply_3D_variant_aspect in H.
  cbn [len_disable set_len_disable variant] in H.
  destruct (aspect_loop D (String.length D) (variant self) false None (modules board))
    as [ms4|] eqn:Ea; [|discriminate].
  cbn [mbind result_bind rbind] in H. unfold remove_3D_models in H.
  cbn [comps_hash set_len_disable undo_3d_models_rep undo_3d_models modules set_modules] in H.
  rewrite Hh, (usable_hash_some h Hne), Hur, Hu in H.
  destruct (remove_models_loop gs h ∅ ms4) as [[[ms5 rem] u']|] eqn:Er; [|discriminate].
  cbn [mbind result_bind rbind highlight_3D_models to_highlight] in H.
  injection H as <- <-.
  destruct (threeD_lists gs D (variant self) h ms0 (modules board) ms4 ms5 rem u'
              HD Hc Hnd Hmo Hsc Ea Er) as (G35 & U1 & U2 & U3).
  exists ms5, rem, u'. split; [reflexivity|]. split; [reflexivity|]. split; [exact G35|].
  intros s' Hh' Hu' Hur' Hrem Hv Hhl.
  unfold unfilter_3D, restore_3D_models, undo_3d_models_rename.
  cbn [modules set_modules]. rewrite Hu', Hur', U1.
  cbn [mbind result_bind rbind modules set_modules]. rewrite Hh', (usable_hash_some h Hne).
  cbn [rem_models set_undo_3d]. rewrite Hrem, U2.
  cbn [mbind result_bind rbind]. unfold apply_3D_variant_aspect.
  cbn [len_disable set_len_disable variant set_rem_models set_undo_3d modules set_modules].
  rewrite Hv, U3. cbn [mbind result_bind rbind]. unfold unhighlight_3D_models.
  cbn [_highlighted_3D_components set_len_disable set_rem_models set_undo_3d].
  rewrite Hhl. cbn [to_highlight]. eexists. reflexivity.
Qed.

Lemma get_refs_hash_some (self : VariantOptions) :
  no_comps self = false ->
  exists h, get_refs_hash self = Some h /\ h <> ∅ /\ consistent h.
Proof.
  intros H. unfold get_refs_hash. rewrite H. eexists. split; [reflexivity|].
  split; [|apply refs_dict_consistent].
  unfold no_comps, comps_list in *. destruct (_comps self) as [[|c l]|]; try discriminate.
  apply refs_dict_nonempty.
Qed.

(** X8.  [unfilter_pcb_components] after [filter_pcb_components] (no
    highlight) gives back the board: every graphical item is on the layer
    it was on and the crosses are gone, every pad has the layer set it
    had, every footprint has its 3D models under their names.  The
    graphical items are distinct objects; when the 3D part runs no two
    footprints share a reference, and the object starts with nothing to
    undo. *)
Theorem unfilter_pcb_components_after_filter gs D W1 W2 self board (do_3D do_2D : bool)
    r self' board' :
  D <> "" ->
  NoDup (all_ids (modules board)) ->
  (do_3D = true -> NoDup (map GetReference (modules board))) ->
  undo_3d_models self = ∅ -> undo_3d_models_rep self = ∅ ->
  _highlighted_3D_components self = None ->
  filter_pcb_components gs D W1 W2 self board do_3D do_2D None = Ok (r, self', board') ->
  exists self'', unfilter_pcb_components gs D self' board' do_3D do_2D = Ok (self'', board).
Proof.
  intros HD Hids Hrefs Hu Hur Hhl H.
  rewrite filter_pcb_components_parts in H. rewrite unfilter_pcb_components_parts.
  destruct (no_comps self) eqn:En.
  - injection H as <- <- <-. rewrite En. eauto.
  - destruct (get_refs_hash_some self En) as (h & Eh & Hne & Hc).
    cbv zeta in H. rewrite Eh in H.
    set (self1 := set_comps_hash (Some h) self) in *.
    assert (Hh1 : comps_hash self1 = Some h) by reflexivity.
    destruct do_2D.
    + destruct (twoD_round_trip gs W1 self1 board h Hh1 Hids)
        as (cu & pu & fu & ws & ms3 & E2 & Hmo & Hsc & Hback).
      rewrite E2 in H. clear E2.
      set (self2 := set_fab_undo fu (add_warnings ws (set_paste_undo pu
                      (set_cross_undo cu self1)))) in *.
      destruct do_3D.
      * destruct (threeD_round_trip gs D W2 self2 (set_modules ms3 board) h (modules board)
                    self' board' HD eq_refl Hne Hc) as (ms5 & rem & u' & -> & -> & G35 & Hun).
        -- cbn [modules set_modules]. rewrite <- (ref_eq_map _ _ (models_ref _ _ Hmo)).
           apply Hrefs. reflexivity.
        -- exact Hu.
        -- exact Hur.
        -- exact Hmo.
        -- exact Hsc.
        -- destruct (filter_3D gs D W2 self2 (set_modules ms3 board) None) as [[s3 b3]|];
             [|discriminate]. cbn in H. injection H as _ <- <-. reflexivity.
        -- cbn [modules set_modules] in G35, Hun.
           change (no_comps (set_rem_models rem (set_undo_3d ∅ u'
                     (set_len_disable (String.length D) self2)))) with (no_comps self).
           rewrite En.
           change (set_modules ms5 (set_modules ms3 board)) with (set_modules ms5 board).
           replace (set_modules ms5 board) with (set_modules (graft ms3 ms5) board)
             by (rewrite (graft_geo ms3 ms5 G35); reflexivity).
           edestruct (Hback (set_rem_models rem (set_undo_3d ∅ u'
                        (set_len_disable (String.length D) self2))) ms5)
             as (cu' & pu' & ->); try reflexivity.
           { apply Forall2_length in G35. apply Forall2_length in Hmo. lia. }
           cbn [mbind result_bind rbind].
           edestruct (Hun (set_paste_undo pu' (set_cross_undo cu'
                        (set_rem_models rem (set_undo_3d ∅ u'
                           (set_len_disable (String.length D) self2))))))
             as (s'' & E); try reflexivity; try assumption.
           change (set_modules (graft (modules board) ms5) (set_modules ms3 board))
             with (set_modules (graft (modules board) ms5) board) in E.
           rewrite E. exists s''. f_equal. f_equal. exact (set_modules_same board).
      * cbn [mbind result_bind rbind] in H. injection H as _ <- <-.
        change (no_comps self2) with (no_comps self). rewrite En.
        assert (G33 : Forall2 geo_eq ms3 ms3)
          by (apply Forall2_refl_list; intros m; repeat split).
        replace (set_modules ms3 board) with (set_modules (graft ms3 ms3) board)
          by (rewrite (graft_geo ms3 ms3 G33); reflexivity).
        edestruct (Hback self2 ms3) as (cu' & pu' & ->); try reflexivity.
        { apply Forall2_length in Hmo. lia. }
        cbn [mbind result_bind rbind]. eexists. f_equal. f_equal.
        rewrite (graft_models _ _ Hmo). exact (set_modules_same board).
    + destruct do_3D.
      * destruct (threeD_round_trip gs D W2 self1 board h (modules board)
                    self' board' HD eq_refl Hne Hc) as (ms5 & rem & u' & -> & -> & G35 & Hun).
        -- apply Hrefs. reflexivity.
        -- exact Hu.
        -- exact Hur.
        -- apply Forall2_refl_list. intros m. split; reflexivity.
        -- apply Forall2_refl_list. intros m v d s. reflexivity.
        -- destruct (filter_3D gs D W2 self1 board None) as [[s3 b3]|];
             [|discriminate]. cbn in H. injection H as _ <- <-. reflexivity.
        -- change (no_comps (set_rem_models rem (set_undo_3d ∅ u'
                     (set_len_disable (String.length D) self1)))) with (no_comps self).
           rewrite En. cbn [mbind result_bind rbind].
           replace (set_modules ms5 board)
             with (set_modules (graft (modules board) ms5) board)
             by (rewrite (graft_geo (modules board) ms5 G35); reflexivity).
           edestruct (Hun (set_rem_models rem (set_undo_3d ∅ u'
                        (set_len_disable (String.length D) self1))))
             as (s'' & E); try reflexivity; try assumption.
           rewrite E. exists s''. f_equal. f_equal. exact (set_modules_same board).
      * cbn [mbind result_bind rbind] in H. injection H as _ <- <-.
        change (no_comps self1) with (no_comps self). rewrite En.
        cbn [mbind result_bind rbind]. eauto.
Qed.


Lemma item_wise_same : item_wise (fun m => m) (fun _ g => g).
Proof.
  split; try reflexivity.
  - intros m items. rewrite map_id. reflexivity.
  - intros m. rewrite map_id. reflexivity.
Qed.

(** X2.  [uncross_modules] after [cross_modules], with the same
    dictionary, removes exactly the lines the crossing added: the board is
    as it was, whatever the footprints and the components are. *)
Theorem uncross_modules_after_cross_modules gs self board ch :
  let r := cross_modules gs self board ch in
  exists self2, uncross_modules gs (fst r) (snd r) ch = Ok (self2, board).
Proof.
  unfold cross_modules, uncross_modules. destruct ch as [h|]; [|cbn; eauto].
  destruct (global_cross_footprints_for_dnp gs); [|cbn; eauto].
  destruct (cross_loop _ _ _ _ _) as [ms1 u] eqn:Ec.
  pose proof (uncross_after_cross _ _ _ _ _ _ item_wise_same _ _ _ Ec (fresh_id_above _)) as Hu.
  rewrite !map_id in Hu. cbn [fst snd modules set_modules cross_undo set_cross_undo].
  replace (cross_undo (set_cross_undo u self)) with u by (destruct self; reflexivity).
  rewrite Hu. cbn [mbind result_bind rbind]. eexists. f_equal. f_equal.
  exact (set_modules_same board).
Qed.

Lemma hide_fp_false gs h L m :
  hide_fp gs h false L m
  = paste_glue_fp gs h (l_fpaste L) (l_bpaste L) (l_fmask L) (l_bmask L)
      (l_fadhes L) (l_badhes L) (l_rescue L) m.
Proof. reflexivity. Qed.

(** X3.  [restore_paste_and_glue] after [remove_paste_and_glue], with the
    same dictionary, gives the board back: the pads have their layer sets
    again (also those that were given a mask layer) and the adhesive
    graphics are on their layers.  The graphical items are distinct
    objects. *)
Theorem restore_paste_and_glue_after_remove gs W self board ch :
  NoDup (all_ids (modules board)) ->
  let r := remove_paste_and_glue gs W self board ch in
  exists self2, restore_paste_and_glue gs (fst r) (snd r) ch = Ok (self2, board).
Proof.
  intros Hnd. destruct ch as [h|]; [|cbn; eauto]. cbv zeta.
  destruct (remove_paste_and_glue_spec gs W self board h) as (pu & ws & E & Hol & Hadh).
  rewrite E. clear E. cbn [fst snd].
  set (L := layers_of gs board) in *. set (ms := modules board) in *.
  pose proof (restore_layers_back gs h false L (fresh_id ms) ms ms Hnd (fresh_id_above ms)
                (Forall2_refl_list _ _ (crossed_refl _))) as RB.
  cbv zeta in RB. cbv beta in RB. cbv iota in RB.
  unfold restore_paste_and_glue. cbn [modules set_modules].
  change (paste_undo (add_warnings ws (set_paste_undo pu self))) with pu.
  set (T := paste_glue_fp gs h (l_fpaste L) (l_bpaste L) (l_fmask L) (l_bmask L)
              (l_fadhes L) (l_badhes L) (l_rescue L)) in *.
  assert (HT : forall m, hide_fp gs h false L m = T m) by reflexivity.
  change (fun m => set_pads (Pads m) (hide_fp gs h false L m))
    with (fun m => set_pads (Pads m) (T m)) in RB.
  destruct (global_remove_solder_paste_for_dnp gs) eqn:Ep.
  - rewrite (Hol eq_refl). rewrite <- (app_nil_r (flat_map _ ms)).
    rewrite (restore_paste_after h T ms []).
    + cbn [mbind result_bind rbind paste_undo set_paste_undo old_fadhes old_badhes
             fadhes badhes].
      destruct (global_remove_adhesive_for_dnp gs) eqn:Ea.
      * destruct (Hadh eq_refl) as (-> & -> & -> & ->). rewrite RB.
        eexists. f_equal. f_equal. exact (set_modules_same board).
      * rewrite RB. eexists. f_equal. f_equal. exact (set_modules_same board).
    + intros m. apply paste_glue_fp_ref.
    + intros m. rewrite <- HT, hide_fp_pads.
      destruct (_ && _); [apply length_map|reflexivity].
    + intros m Hd. rewrite <- HT, hide_fp_pads, Hd. reflexivity.
  - cbn [mbind result_bind rbind].
    assert (Hsame : map (fun m => set_pads (Pads m) (T m)) ms = map T ms).
    { apply map_ext. intros m. rewrite <- (set_pads_same (T m)) at 2.
      rewrite <- HT, hide_fp_pads, Ep, andb_false_r. reflexivity. }
    rewrite Hsame in RB. cbv zeta.
    change (paste_undo (add_warnings ws (set_paste_undo pu self))) with pu.
    destruct (global_remove_adhesive_for_dnp gs) eqn:Ea.
    + destruct (Hadh eq_refl) as (-> & -> & -> & ->). rewrite RB.
      eexists. f_equal. f_equal. exact (set_modules_same board).
    + rewrite RB. eexists. f_equal. f_equal. exact (set_modules_same board).
Qed.

(** X4.  [restore_fab] after [remove_fab], with the same dictionary, puts
    the Fab graphics of the excluded components back on their layers:
    the board is as it was.  The graphical items are distinct objects. *)
Theorem restore_fab_after_remove_fab gs self board ch :
  NoDup (all_ids (modules board)) ->
  let r := remove_fab gs self board ch in
  restore_fab (fst r) (snd r) ch = board.
Proof.
  intros Hnd. destruct ch as [h|]; [|reflexivity]. cbv zeta.
  rewrite remove_fab_spec. cbn [fst snd]. unfold restore_fab.
  cbn [fab_undo set_fab_undo old_ffab old_bfab ffab bfab modules set_modules].
  set (L := layers_of gs board). set (ms := modules board) in *.
  set (gs0 := mkGlobals false false false (work_layer gs) (global_field_3D_model gs)
                (highlight_tmp_name gs)).
  pose proof (restore_layers_back gs0 h true L (fresh_id ms) ms ms Hnd (fresh_id_above ms)
                (Forall2_refl_list _ _ (crossed_refl _))) as RB.
  cbv zeta in RB. cbv beta in RB. cbn [global_remove_adhesive_for_dnp gs0] in RB.
  cbv iota in RB.
  assert (Hid : forall m, paste_glue_fp gs0 h (l_fpaste L) (l_bpaste L) (l_fmask L) (l_bmask L)
                            (l_fadhes L) (l_badhes L) (l_rescue L) m = m).
  { intros m. unfold paste_glue_fp, glue_fp, paste_fp. cbn.
    destruct (is_dnp h (GetReference m)); reflexivity. }
  rewrite (map_id_on _ ms) in RB by (intros m _; apply Hid).
  assert (Hsame : map (fun m => set_pads (Pads m) (hide_fp gs0 h true L m)) ms
                  = map (fab_fp h (l_ffab L) (l_bfab L) (l_rescue L)) ms).
  { apply map_ext. intros m. rewrite hide_fp_hide_excluded_eq, Hid.
    unfold fab_fp. destruct (is_excluded h (GetReference m)); destruct m; reflexivity. }
  rewrite Hsame in RB.
  replace (fab_undo (set_fab_undo _ self)) with
    (mkFabUndo (marked (is_excluded h) (l_ffab L) ms) (marked (is_excluded h) (l_bfab L) ms)
       (l_ffab L) (l_bfab L)) by (destruct self; reflexivity).
  cbn [old_ffab old_bfab ffab bfab]. rewrite RB. exact (set_modules_same board).
Qed.

(** X5.  [apply_3D_variant_aspect] with [enable=True] after a run with
    [enable=False] that did not fail gives every 3D model its name back,
    whatever texts the footprints carry. *)
Theorem apply_3D_variant_aspect_enable_after_disable D self board self1 board1 :
  D <> "" ->
  apply_3D_variant_aspect D self board false = Ok (self1, board1) ->
  apply_3D_variant_aspect D self1 board1 true = Ok (self1, board).
Proof.
  intros HD H. unfold apply_3D_variant_aspect in *.
  cbn [len_disable set_len_disable variant] in H.
  destruct (aspect_loop D (String.length D) (variant self) false None (modules board))
    as [ms4|] eqn:Ea; [|discriminate].
  cbn [mbind result_bind rbind] in H. injection H as <- <-.
  cbn [len_disable set_len_disable variant modules set_modules].
  rewrite (aspect_loop_back D (variant self) (modules board) HD None None ms4 Ea).
  cbn [mbind result_bind rbind]. destruct self, board; reflexivity.
Qed.

(** X6.  [restore_3D_models] after a [remove_3D_models] that did not fail
    gives back the board: the models removed from the footprints that are
    not fitted are in place again, in their order, and the renamed ones
    have their names.  No two footprints share a reference, the dictionary
    is keyed by the references of its components, and there was nothing
    to undo before. *)
Theorem restore_3D_models_after_remove gs self board ch self1 board1 :
  (forall h, ch = Some h -> consistent h) ->
  NoDup (map GetReference (modules board)) ->
  undo_3d_models self = ∅ -> undo_3d_models_rep self = ∅ ->
  remove_3D_models gs self board ch = Ok (self1, board1) ->
  exists self2,
    restore_3D_models self1 board1 ch = Ok (self2, board)
    /\ undo_3d_models self2 = ∅ /\ undo_3d_models_rep self2 = ∅.
Proof.
  intros Hc Hnd Hu Hur H. unfold remove_3D_models in H.
  unfold restore_3D_models, undo_3d_models_rename.
  destruct (usable_hash ch) as [h|] eqn:Eh.
  - assert (Hch : ch = Some h).
    { unfold usable_hash in Eh. destruct ch as [h'|]; [|discriminate].
      destruct (bool_decide (h' = ∅)); [discriminate|]. injection Eh as ->. reflexivity. }
    rewrite Hur, Hu in H.
    destruct (remove_models_loop gs h ∅ (modules board)) as [[[ms5 rem] u']|] eqn:Er;
      [|discriminate].
    cbn [mbind result_bind rbind] in H. injection H as <- <-.
    destruct (remove_then_undo gs h (modules board) (Hc h Hch) ∅ ms5 rem u' Hnd
                ltac:(intros; apply lookup_empty) Er) as (U1 & Hrem & _).
    cbn [undo_3d_models undo_3d_models_rep set_rem_models set_undo_3d modules set_modules].
    rewrite U1. cbn [mbind result_bind rbind modules set_modules rem_models set_undo_3d
                       set_rem_models].
    rewrite Hrem, <- (app_nil_r (flat_map _ (modules board))), restore_models_after.
    cbn [mbind result_bind rbind]. eexists. split; [f_equal; f_equal; exact (set_modules_same board)|].
    split; reflexivity.
  - injection H as <- <-. rewrite Hu, Hur, undo_rename_loop_clean.
    cbn [mbind result_bind rbind]. eexists. split; [f_equal; f_equal; exact (set_modules_same board)|].
    split; reflexivity.
Qed.

Lemma unhighlight_loop_after (hl : list string) (file : string) (ms : list Footprint) :
  unhighlight_loop hl
    (map (fun m => if bool_decide (GetReference m ∈ hl)
                   then set_models (Models m ++ [mkModel file]) m else m) ms)
  = Ok ms.
Proof.
  induction ms as [|m ms IH]; [reflexivity|].
  cbn [map unhighlight_loop]. destruct (bool_decide (GetReference m ∈ hl)) eqn:E.
  - cbn [GetReference set_models Models]. rewrite E, pop_snoc, IH.
    cbn [mbind result_bind rbind]. destruct m; reflexivity.
  - rewrite E, IH. reflexivity.
Qed.

(** X7.  [unhighlight_3D_models] after [highlight_3D_models] takes away
    exactly the models that were added: the board is as it was and no
    component is recorded as highlighted. *)
Theorem unhighlight_3D_models_after_highlight gs W self board hl :
  _highlighted_3D_components self = None ->
  let r := highlight_3D_models gs W self board hl in
  exists self2,
    unhighlight_3D_models (fst r) (snd r) = Ok (self2, board)
    /\ _highlighted_3D_components self2 = None.
Proof.
  intros Hn. cbv zeta. unfold highlight_3D_models, unhighlight_3D_models.
  destruct (to_highlight hl) as [l|] eqn:E.
  - cbn [fst snd _highlighted_3D_components add_warnings set_highlighted modules set_modules].
    rewrite E.
    rewrite unhighlight_loop_after. cbn [mbind result_bind rbind].
    eexists. split; [f_equal; f_equal; exact (set_modules_same board)|]. reflexivity.
  - cbn [fst snd]. rewrite Hn. cbn. eauto.
Qed.

(** ** A small board to run the passes on *)

Definition sample_globals : Globals :=
  mkGlobals true true true "Rescue" "3D_model" "/tmp/kibot_hl.wrl".

Definition sample_layer_id (n : string) : Z :=
  if String.eqb n "B.Adhes" then 32 else if String.eqb n "F.Adhes" then 33
  else if String.eqb n "B.Paste" then 34 else if String.eqb n "F.Paste" then 35
  else if String.eqb n "B.Mask" then 38 else if String.eqb n "F.Mask" then 39
  else if String.eqb n "B.CrtYd" then 46 else if String.eqb n "F.CrtYd" then 47
  else if String.eqb n "B.Fab" then 48 else if String.eqb n "F.Fab" then 49
  else if String.eqb n "Edge.Cuts" then 44 else 50.

(** R1 is not fitted, U1 is fitted and takes another 3D model, J1 is
    excluded, C1 is fitted and has per-variant models. *)
Definition sample_components : list Component :=
  [ mkComponent "R1" false true [];
    mkComponent "U1" true true [("3D_model", "u1_alt.wrl")];
    mkComponent "J1" true false [];
    mkComponent "C1" true true [] ].

Definition sample_board : Board :=
  mkBoard
    [ mkFootprint "R1"
        [ mkGItem 1 "MGRAPHIC" 49 "" (mkRect 0 0 10 5);
          mkGItem 2 "MGRAPHIC" 33 "" (mkRect 4 2 1 1);
          mkGItem 3 "MTEXT" 49 "R1" (mkRect 0 6 4 2) ]
        [ {[0; 35; 39]}; {[35]} ]
        [ mkModel "r_0603.wrl" ];
      mkFootprint "U1"
        [ mkGItem 4 "MGRAPHIC" 49 "" (mkRect 20 0 8 8) ]
        [ {[0; 35; 39]} ]
        [ mkModel "soic8.wrl" ];
      mkFootprint "J1"
        [ mkGItem 5 "MGRAPHIC" 49 "" (mkRect 40 0 8 8);
          mkGItem 6 "MGRAPHIC" 48 "" (mkRect 40 0 8 8) ]
        []
        [ mkModel "conn.wrl" ];
      mkFootprint "C1"
        [ mkGItem 7 "MTEXT" 49 "%_default_:1%" (mkRect 60 0 1 1);
          mkGItem 8 "MTEXT" 49 "%prod:2%" (mkRect 60 2 1 1) ]
        [ {[31; 34; 38]} ]
        [ mkModel "c_small.wrl"; mkModel "c_big.wrl" ] ]
    sample_layer_id.

Definition sample_options : VariantOptions :=
  set_comps (Some sample_components)
    (init_options (Some (mkVariant "prod" (fun l => l) (fun _ => false))) None None
       (Some true)).

Lemma sample_board_ids : NoDup (all_ids (modules sample_board)).
Proof. apply (bool_decide_unpack _). vm_compute. exact I. Qed.

Lemma sample_board_refs : NoDup (map GetReference (modules sample_board)).
Proof. apply (bool_decide_unpack _). vm_compute. exact I. Qed.

Lemma restore_paste_and_glue_after_remove_witness :
  let h := refs_dict sample_components in
  let r := remove_paste_and_glue sample_globals "(W050) " sample_options sample_board
             (Some h) in
  exists self2,
    restore_paste_and_glue sample_globals (fst r) (snd r) (Some h) = Ok (self2, sample_board).
Proof.
  exact (restore_paste_and_glue_after_remove sample_globals "(W050) " sample_options
           sample_board (Some (refs_dict sample_components)) sample_board_ids).
Defined.

Lemma restore_fab_after_remove_fab_witness :
  let h := refs_dict sample_components in
  let r := remove_fab sample_globals sample_options sample_board (Some h) in
  restore_fab (fst r) (snd r) (Some h) = sample_board.
Proof.
  exact (restore_fab_after_remove_fab sample_globals sample_options sample_board
           (Some (refs_dict sample_components)) sample_board_ids).
Defined.

Lemma apply_3D_variant_aspect_enable_after_disable_witness :
  let D := "_Disabled_by_KiBot" in
  exists self1 board1,
    apply_3D_variant_aspect D sample_options sample_board false = Ok (self1, board1)
    /\ map Models (modules board1)
       = [ [mkModel "r_0603.wrl"]; [mkModel "soic8.wrl"]; [mkModel "conn.wrl"];
           [mkModel "c_small.wrl_Disabled_by_KiBot"; mkModel "c_big.wrl"] ]
    /\ apply_3D_variant_aspect D self1 board1 true = Ok (self1, sample_board).
Proof.
  intros D.
  destruct (apply_3D_variant_aspect D sample_options sample_board false)
    as [[self1 board1]|e] eqn:E; [|vm_compute in E; discriminate].
  exists self1, board1. split; [reflexivity|]. split.
  - vm_compute in E. injection E as <- <-. reflexivity.
  - exact (apply_3D_variant_aspect_enable_after_disable D sample_options sample_board
             self1 board1 ltac:(discriminate) E).
Defined.

Lemma restore_3D_models_after_remove_witness :
  let h := refs_dict sample_components in
  exists self1 board1,
    remove_3D_models sample_globals sample_options sample_board (Some h)
    = Ok (self1, board1)
    /\ map Models (modules board1)
       = [ []; [mkModel "u1_alt.wrl"]; [mkModel "conn.wrl"];
           [mkModel "c_small.wrl"; mkModel "c_big.wrl"] ]
    /\ exists self2,
         restore_3D_models self1 board1 (Some h) = Ok (self2, sample_board)
         /\ undo_3d_models self2 = ∅ /\ undo_3d_models_rep self2 = ∅.
Proof.
  intros h.
  destruct (remove_3D_models sample_globals sample_options sample_board (Some h))
    as [[self1 board1]|e] eqn:E; [|vm_compute in E; discriminate].
  exists self1, board1. split; [reflexivity|]. split.
  - vm_compute in E. injection E as <- <-. reflexivity.
  - refine (restore_3D_models_after_remove sample_globals sample_options sample_board
              (Some h) self1 board1 _ sample_board_refs eq_refl eq_refl E).
    intros h' Hh'. injection Hh' as <-. apply refs_dict_consistent.
Defined.

Lemma unhighlight_3D_models_after_highlight_witness :
  let r := highlight_3D_models sample_globals "(W099) " sample_options sample_board
             (Some ["U1"; "C1"]) in
  map (fun m => length (Models m)) (modules (snd r)) = [1; 2; 1; 3]%nat
  /\ exists self2,
       unhighlight_3D_models (fst r) (snd r) = Ok (self2, sample_board)
       /\ _highlighted_3D_components self2 = None.
Proof.
  split; [vm_compute; reflexivity|].
  exact (unhighlight_3D_models_after_highlight sample_globals "(W099) " sample_options
           sample_board (Some ["U1"; "C1"]) eq_refl).
Defined.

Lemma unfilter_pcb_components_after_filter_witness :
  let D := "_Disabled_by_KiBot" in
  exists self' board',
    filter_pcb_components sample_globals D "(W050) " "(W099) " sample_options sample_board
      true true None = Ok (true, self', board')
    /\ board' <> sample_board
    /\ exists self'',
         unfilter_pcb_components sample_globals D self' board' true true
         = Ok (self'', sample_board).
Proof.
  intros D.
  destruct (filter_pcb_components sample_globals D "(W050) " "(W099) " sample_options
              sample_board true true None) as [[[r self'] board']|e] eqn:E;
    [|vm_compute in E; discriminate].
  assert (Hr : r = true) by (vm_compute in E; injection E as <- _ _; reflexivity).
  subst r. exists self', board'. split; [reflexivity|]. split.
  - vm_compute in E. injection E as _ <-. discriminate.
  - exact (unfilter_pcb_components_after_filter sample_globals D "(W050) " "(W099) "
             sample_options sample_board true true true self' board'
             ltac:(discriminate) sample_board_ids (fun _ => sample_board_refs)
             eq_refl eq_refl eq_refl E).
Defined.


(** ** The two lists of references *)

Lemma refs_split (comps : list Component) :
  Permutation
    (map ref (filter (fun c => fitted c && included c) comps)
     ++ map ref (filter (fun c => negb (fitted c) || negb (included c)) comps))
    (map ref comps).
Proof.
  induction comps as [|c comps IH]; [reflexivity|].
  rewrite !filter_cons.
  destruct (fitted c), (included c); cbn [andb orb negb];
    destruct (decide (Is_true true)) as [Ht|Ht]; try (exfalso; apply Ht; exact I);
    destruct (decide (Is_true false)) as [Hf|Hf]; try (exfalso; exact Hf);
    cbn [map app];
    first [ apply perm_skip; exact IH
          | rewrite <- Permutation_middle; apply perm_skip; exact IH ].
Qed.

(** X9.  [get_fitted_refs] and [get_not_fitted_refs] split the references
    of the components: together they hold every reference as often as the
    component list does, a component that is not included is on the second
    list whatever its [fitted] flag, and when the references are unique no
    reference is on both. *)
Theorem fitted_refs_partition (self : VariantOptions) :
  NoDup (map ref (comps_list self)) ->
  Permutation (get_fitted_refs self ++ get_not_fitted_refs self) (map ref (comps_list self))
  /\ (forall c, c ∈ comps_list self -> included c = false ->
                ref c ∈ get_not_fitted_refs self /\ ref c ∉ get_fitted_refs self)
  /\ (forall r, r ∈ get_fitted_refs self -> r ∉ get_not_fitted_refs self).
Proof.
  intros Hnd.
  assert (HP : Permutation (get_fitted_refs self ++ get_not_fitted_refs self)
                 (map ref (comps_list self))).
  { unfold get_fitted_refs, get_not_fitted_refs. destruct (no_comps self) eqn:E.
    - unfold no_comps, comps_list in *. destruct (_comps self) as [[|c l]|]; try discriminate;
        reflexivity.
    - apply refs_split. }
  assert (Hdis : forall r, r ∈ get_fitted_refs self -> r ∉ get_not_fitted_refs self).
  { intros r H1 H2. rewrite <- HP in Hnd. apply NoDup_app in Hnd as (_ & Hd & _).
    exact (Hd r H1 H2). }
  split; [exact HP|]. split; [|exact Hdis].
  intros c Hc Hi.
  assert (Hin : ref c ∈ get_not_fitted_refs self).
  { unfold get_not_fitted_refs. destruct (no_comps self) eqn:E.
    - unfold no_comps, comps_list in *. destruct (_comps self) as [[|c0 l]|];
        try discriminate; inversion Hc.
    - change (map ref ?l) with (ref <$> l). apply list_elem_of_fmap. exists c.
      split; [reflexivity|]. apply list_elem_of_filter. split; [|exact Hc].
      rewrite Hi. destruct (fitted c); exact I. }
  split; [exact Hin|]. intros Hf. exact (Hdis _ Hf Hin).
Qed.


Lemma sample_components_refs : NoDup (map ref (comps_list sample_options)).
Proof. apply (bool_decide_unpack _). vm_compute. exact I. Qed.

Lemma fitted_refs_partition_witness :
  get_fitted_refs sample_options = ["U1"; "C1"]
  /\ get_not_fitted_refs sample_options = ["R1"; "J1"]
  /\ Permutation (get_fitted_refs sample_options ++ get_not_fitted_refs sample_options)
       (map ref (comps_list sample_options))
  /\ (forall c, c ∈ comps_list sample_options -> included c = false ->
                ref c ∈ get_not_fitted_refs sample_options
                /\ ref c ∉ get_fitted_refs sample_options)
  /\ (forall r, r ∈ get_fitted_refs sample_options ->
                r ∉ get_not_fitted_refs sample_options).
Proof.
  split; [vm_compute; reflexivity|]. split; [vm_compute; reflexivity|].
  exact (fitted_refs_partition sample_options sample_components_refs).
Defined.

(** ** Detecting solder paste *)

(** The pads of one footprint in [detect_solder_paste]: the two flags, and
    whether the function returned from inside the loop. *)
Fixpoint detect_pads (fpaste bpaste : Z) (pads : list (gset Z)) (top bottom : bool)
    : bool * bool * bool :=
  match pads with
  | [] => (top, bottom, false)
  | pad_layers :: ps =>
      let top := if negb top && bool_decide (fpaste ∈ pad_layers) then true else top in
      let bottom :=
        if negb bottom && bool_decide (bpaste ∈ pad_layers) then true else bottom in
      if top && bottom then (top, bottom, true)
      else detect_pads fpaste bpaste ps top bottom
  end.

Fixpoint detect_modules (fpaste bpaste : Z) (ms : list Footprint) (top bottom : bool)
    : bool * bool :=
  match ms with
  | [] => (top, bottom)
  | m :: rest =>
      let '(top, bottom, returned) := detect_pads fpaste bpaste (Pads m) top bottom in
      if returned then (top, bottom)
      else detect_modules fpaste bpaste rest top bottom
  end.

(** [detect_solder_paste]: (top, bottom). *)
Definition detect_solder_paste (board : Board) : bool * bool :=
  detect_modules (GetLayerID board "F.Paste") (GetLayerID board "B.Paste")
    (modules board) false false.

(** Some pad of the board is on layer [l]. *)
Definition some_pad_on (l : Z) (ms : list Footprint) : bool :=
  existsb (fun m => existsb (fun p => bool_decide (l ∈ p)) (Pads m)) ms.

Lemma flag_set (flag d : bool) : (if negb flag && d then true else flag) = flag || d.
Proof. destruct flag, d; reflexivity. Qed.

Lemma detect_pads_spec fp bp (pads : list (gset Z)) :
  forall top bottom t b r,
    detect_pads fp bp pads top bottom = (t, b, r) ->
    t = top || existsb (fun p => bool_decide (fp ∈ p)) pads
    /\ b = bottom || existsb (fun p => bool_decide (bp ∈ p)) pads
    /\ (r = true -> t = true /\ b = true).
Proof.
  induction pads as [|p ps IH]; intros top bottom t b r H.
  - cbn in H. injection H as <- <- <-. rewrite !orb_false_r.
    repeat split; discriminate.
  - cbn [detect_pads] in H. cbv zeta in H. rewrite !flag_set in H.
    cbn [existsb]. rewrite !orb_assoc.
    destruct ((top || bool_decide (fp ∈ p)) && (bottom || bool_decide (bp ∈ p))) eqn:E.
    + injection H as <- <- <-. apply andb_prop in E as [E1 E2].
      rewrite E1, E2. repeat split.
    + apply IH in H. exact H.
Qed.

Lemma detect_modules_spec fp bp (ms : list Footprint) :
  forall top bottom,
    detect_modules fp bp ms top bottom
    = (top || some_pad_on fp ms, bottom || some_pad_on bp ms).
Proof.
  induction ms as [|m ms IH]; intros top bottom.
  - cbn. rewrite !orb_false_r. reflexivity.
  - cbn [detect_modules].
    destruct (detect_pads fp bp (Pads m) top bottom) as [[t b] r] eqn:E.
    apply detect_pads_spec in E as (Ht & Hb & Hr).
    unfold some_pad_on. cbn [existsb]. rewrite !orb_assoc, <- Ht, <- Hb.
    destruct r.
    + destruct (Hr eq_refl) as [-> ->]. reflexivity.
    + apply IH.
Qed.

(** X11.  [detect_solder_paste] tells whether some pad of the board is on
    the front paste layer and whether some pad is on the back one; leaving
    the loops early changes nothing. *)
Theorem detect_solder_paste_spec (board : Board) :
  detect_solder_paste board
  = (some_pad_on (GetLayerID board "F.Paste") (modules board),
     some_pad_on (GetLayerID board "B.Paste") (modules board)).
Proof. unfold detect_solder_paste. rewrite detect_modules_spec. reflexivity. Qed.


(** ** What the 2D passes do to an excluded component *)

(** X10.  The footprint of a component that is not included goes through
    the 2D passes of [filter_pcb_components] without a cross, with its
    pads and its adhesive graphics as they were, whatever its [fitted]
    flag says: it is left alone, or, when [hide_excluded] is set, only its
    graphics on the Fab layers move to the work layer. *)
Theorem filter_pcb_components_excluded gs D W1 W2 self board (c : Component)
    (i : nat) (m : Footprint) :
  c ∈ comps_list self -> included c = false ->
  NoDup (map ref (comps_list self)) ->
  modules board !! i = Some m -> GetReference m = ref c ->
  exists self' board',
    filter_pcb_components gs D W1 W2 self board false true None = Ok (true, self', board')
    /\ modules board' !! i
       = Some (if hides_excluded self
               then set_items
                      (move_off (GetLayerID board "F.Fab") (GetLayerID board "B.Fab")
                         (GetLayerID board (work_layer gs)) (GraphicalItems m)) m
               else m).
Proof.
  intros Hc Hi Hnd Hm Hr.
  assert (En : no_comps self = false).
  { unfold no_comps, comps_list in *. destruct (_comps self) as [[|c0 l]|];
      try reflexivity; inversion Hc. }
  set (h := refs_dict (comps_list self)).
  assert (Hh : h !! GetReference m = Some c)
    by (rewrite Hr; apply refs_dict_unique; assumption).
  assert (Hd : is_dnp h (GetReference m) = false)
    by (unfold is_dnp; rewrite Hh, Hi; reflexivity).
  assert (Hx : is_excluded h (GetReference m) = true)
    by (unfold is_excluded; rewrite Hh, Hi; reflexivity).
  rewrite filter_pcb_components_parts, En. cbv zeta.
  unfold get_refs_hash. rewrite En. fold h.
  set (self1 := set_comps_hash (Some h) self).
  unfold filter_2D. change (comps_hash self1) with (Some h).
  destruct (cross_modules_spec gs self1 board h) as (ms1 & cu & E1 & _ & _).
  assert (H1 : ms1 !! i = Some m).
  { unfold cross_modules in E1. destruct (global_cross_footprints_for_dnp gs).
    - destruct (cross_loop _ _ _ _ _) as [ms1' u] eqn:Ec.
      apply (f_equal (fun p => modules (snd p))) in E1. cbn in E1. subst ms1'.
      eapply cross_loop_lookup_other; eassumption.
    - apply (f_equal (fun p => modules (snd p))) in E1. cbn in E1. subst ms1.
      exact Hm. }
  rewrite E1. cbn [comps_hash set_cross_undo]. change (comps_hash self1) with (Some h).
  destruct (remove_paste_and_glue_spec gs W1 (set_cross_undo cu self1)
              (set_modules ms1 board) h) as (pu & ws & E2 & _ & _).
  rewrite E2. clear E1 E2. cbn [modules set_modules].
  change (layers_of gs (set_modules ms1 board)) with (layers_of gs board).
  set (L := layers_of gs board).
  set (pgf := paste_glue_fp gs h (l_fpaste L) (l_bpaste L) (l_fmask L) (l_bmask L)
                (l_fadhes L) (l_badhes L) (l_rescue L)).
  assert (H2 : map pgf ms1 !! i = Some m).
  { change (map pgf ms1) with (pgf <$> ms1). rewrite list_lookup_fmap, H1. cbn.
    unfold pgf, paste_glue_fp. rewrite Hd. reflexivity. }
  change (hides_excluded (add_warnings ws (set_paste_undo pu (set_cross_undo cu self1))))
    with (hides_excluded self).
  destruct (hides_excluded self).
  - change (comps_hash (add_warnings ws (set_paste_undo pu (set_cross_undo cu self1))))
      with (Some h).
    rewrite remove_fab_spec. cbn [mbind result_bind rbind modules set_modules].
    eexists _, _. split; [reflexivity|]. cbn [modules set_modules].
    change (layers_of gs (set_modules (map pgf ms1) board)) with L.
    change (map ?f ?l) with (f <$> l). rewrite list_lookup_fmap.
    change (pgf <$> ms1) with (map pgf ms1). rewrite H2. cbn.
    unfold fab_fp. rewrite Hx. reflexivity.
  - cbn [mbind result_bind rbind]. eexists _, _. split; [reflexivity|].
    cbn [modules set_modules]. exact H2.
Qed.

Lemma filter_pcb_components_excluded_witness :
  exists self' board',
    filter_pcb_components sample_globals "_Disabled_by_KiBot" "(W050) " "(W099) "
      sample_options sample_board false true None = Ok (true, self', board')
    /\ modules board' !! 2%nat
       = Some (mkFootprint "J1"
                 [ mkGItem 5 "MGRAPHIC" 50 "" (mkRect 40 0 8 8);
                   mkGItem 6 "MGRAPHIC" 50 "" (mkRect 40 0 8 8) ]
                 [] [ mkModel "conn.wrl" ]).
Proof.
  exact (filter_pcb_components_excluded sample_globals "_Disabled_by_KiBot" "(W050) "
           "(W099) " sample_options sample_board (mkComponent "J1" true false []) 2%nat
           (mkFootprint "J1"
              [ mkGItem 5 "MGRAPHIC" 49 "" (mkRect 40 0 8 8);
                mkGItem 6 "MGRAPHIC" 48 "" (mkRect 40 0 8 8) ]
              [] [ mkModel "conn.wrl" ])
           ltac:(vm_compute; right; right; left) eq_refl sample_components_refs
           eq_refl eq_refl).
Defined.


(** * The PCB print output *)

(** ** Filtering the components for a print *)

(** [self.hide_excluded] read as a condition: the attribute is there in
    every [PCB_PrintOptions]; without it the read fails. *)
Definition read_hide_excluded (self : VariantOptions) : result bool :=
  match hide_excluded self with
  | Some b => Ok b
  | None => Raise AttributeError
  end.

(** [PCB_PrintOptions.filter_components]; [board] is [GS.board]. *)
Definition filter_components (gs : Globals) (W_WRONGPASTE : string)
    (self : VariantOptions) (board : Board) : result (VariantOptions * Board) :=
  if no_comps self then Ok (self, board)
  else
    let comps_hash := get_refs_hash self in
    let '(self, board) := cross_modules gs self board comps_hash in
    let '(self, board) := remove_paste_and_glue gs W_WRONGPASTE self board comps_hash in
    rbind (read_hide_excluded self)
      (fun hide : bool =>
         if hide then Ok (remove_fab gs self board comps_hash) else Ok (self, board)).

(** [PCB_PrintOptions.unfilter_components]. *)
Definition unfilter_components (gs : Globals) (self : VariantOptions) (board : Board)
    : result (VariantOptions * Board) :=
  if no_comps self then Ok (self, board)
  else
    let comps_hash := get_refs_hash self in
    '(self, board) ← uncross_modules gs self board comps_hash;
    '(self, board) ← restore_paste_and_glue gs self board comps_hash;
    rbind (read_hide_excluded self)
      (fun hide : bool =>
         if hide then Ok (self, restore_fab self board comps_hash) else Ok (self, board)).

(** The 2D passes do not read [self.comps_hash]. *)
Lemma cross_modules_frame gs c s b ch :
  cross_modules gs (set_comps_hash c s) b ch
  = (set_comps_hash c (fst (cross_modules gs s b ch)), snd (cross_modules gs s b ch)).
Proof.
  unfold cross_modules. destruct ch as [h|]; [|reflexivity].
  destruct (global_cross_footprints_for_dnp gs); [|reflexivity].
  destruct (cross_loop _ _ _ _ _). reflexivity.
Qed.

Lemma remove_paste_and_glue_frame gs W c s b ch :
  remove_paste_and_glue gs W (set_comps_hash c s) b ch
  = (set_comps_hash c (fst (remove_paste_and_glue gs W s b ch)),
     snd (remove_paste_and_glue gs W s b ch)).
Proof.
  unfold remove_paste_and_glue. destruct ch as [h|]; [|reflexivity].
  destruct (_ || _); reflexivity.
Qed.

Lemma remove_fab_frame gs c s b ch :
  remove_fab gs (set_comps_hash c s) b ch
  = (set_comps_hash c (fst (remove_fab gs s b ch)), snd (remove_fab gs s b ch)).
Proof.
  unfold remove_fab. destruct ch as [h|]; [|reflexivity].
  destruct (fab_loop _ _ _ _ _) as [[ms fo] bo]. reflexivity.
Qed.

Definition with_hash (c : option (gmap string Component))
    (r : result (VariantOptions * Board)) : result (VariantOptions * Board) :=
  '(s, b) ← r; Ok (set_comps_hash c s, b).

Lemma uncross_modules_frame gs c s b ch :
  uncross_modules gs (set_comps_hash c s) b ch = with_hash c (uncross_modules gs s b ch).
Proof.
  unfold uncross_modules, with_hash. destruct ch as [h|]; [|reflexivity].
  destruct (global_cross_footprints_for_dnp gs); [|reflexivity].
  cbn [cross_undo set_comps_hash].
  destruct (uncross_loop h (modules b) (cross_undo s)) as [[ms u]|e]; reflexivity.
Qed.

Lemma restore_paste_and_glue_frame gs c s b ch :
  restore_paste_and_glue gs (set_comps_hash c s) b ch
  = with_hash c (restore_paste_and_glue gs s b ch).
Proof.
  unfold restore_paste_and_glue, with_hash. destruct ch as [h|]; [|reflexivity].
  cbn [paste_undo set_comps_hash].
  destruct (global_remove_solder_paste_for_dnp gs).
  - destruct (restore_paste_loop h (modules b) (old_layers (paste_undo s))) as [[ms old]|e];
      reflexivity.
  - reflexivity.
Qed.

Lemma restore_fab_frame c s b ch :
  restore_fab (set_comps_hash c s) b ch = restore_fab s b ch.
Proof. reflexivity. Qed.

Lemma set_comps_hash_twice c c' s : set_comps_hash c (set_comps_hash c' s) = set_comps_hash c s.
Proof. reflexivity. Qed.

Lemma set_comps_hash_same s : set_comps_hash (comps_hash s) s = s.
Proof. destruct s; reflexivity. Qed.

(** [filter_components] is the 2D part of [filter_pcb_components] run
    with the dictionary of the moment. *)
Lemma filter_components_2D gs W self board (b : bool) :
  no_comps self = false -> hide_excluded self = Some b ->
  filter_components gs W self board
  = Ok (set_comps_hash (comps_hash self)
          (fst (filter_2D gs W (set_comps_hash (get_refs_hash self) self) board)),
        snd (filter_2D gs W (set_comps_hash (get_refs_hash self) self) board)).
Proof.
  intros En Hb. unfold filter_components, filter_2D. rewrite En. cbv zeta.
  set (ch := get_refs_hash self).
  change (comps_hash (set_comps_hash ch self)) with ch.
  rewrite cross_modules_frame.
  destruct (cross_modules gs self board ch) as [s1 b1] eqn:E1. cbn [fst snd].
  change (comps_hash (set_comps_hash ch s1)) with ch.
  rewrite remove_paste_and_glue_frame.
  destruct (remove_paste_and_glue gs W s1 b1 ch) as [s2 b2] eqn:E2. cbn [fst snd].
  assert (H2 : hide_excluded s2 = Some b).
  { rewrite <- Hb.
    transitivity (hide_excluded s1).
    - unfold remove_paste_and_glue in E2. destruct ch; [|injection E2 as <- _; reflexivity].
      destruct (_ || _); injection E2 as <- _; reflexivity.
    - unfold cross_modules in E1. destruct ch; [|injection E1 as <- _; reflexivity].
      destruct (global_cross_footprints_for_dnp gs); [|injection E1 as <- _; reflexivity].
      destruct (cross_loop _ _ _ _ _). injection E1 as <- _. reflexivity. }
  assert (Hc2 : comps_hash s2 = comps_hash self).
  { transitivity (comps_hash s1).
    - unfold remove_paste_and_glue in E2. destruct ch; [|injection E2 as <- _; reflexivity].
      destruct (_ || _); injection E2 as <- _; reflexivity.
    - unfold cross_modules in E1. destruct ch; [|injection E1 as <- _; reflexivity].
      destruct (global_cross_footprints_for_dnp gs); [|injection E1 as <- _; reflexivity].
      destruct (cross_loop _ _ _ _ _). injection E1 as <- _. reflexivity. }
  unfold read_hide_excluded, hides_excluded. cbn [hide_excluded set_comps_hash].
  rewrite H2. cbn [mbind result_bind rbind].
  destruct b.
  - change (comps_hash (set_comps_hash ch s2)) with ch. rewrite remove_fab_frame.
    destruct (remove_fab gs s2 b2 ch) as [s3 b3] eqn:E3. cbn [fst snd].
    assert (Hc3 : comps_hash s3 = comps_hash self).
    { rewrite <- Hc2. unfold remove_fab in E3.
      destruct ch; [|injection E3 as <- _; reflexivity].
      destruct (fab_loop _ _ _ _ _) as [[ms fo] bo]. injection E3 as <- _. reflexivity. }
    rewrite set_comps_hash_twice, <- Hc3, set_comps_hash_same. reflexivity.
  - cbn [fst snd]. rewrite set_comps_hash_twice, <- Hc2, set_comps_hash_same. reflexivity.
Qed.


(** What a 2D pass leaves of the configuration of the object. *)
Definition same_config (s s' : VariantOptions) : Prop :=
  hide_excluded s' = hide_excluded s /\ comps_hash s' = comps_hash s
  /\ _comps s' = _comps s.

Lemma same_config_refl s : same_config s s.
Proof. repeat split. Qed.

Lemma same_config_trans s1 s2 s3 :
  same_config s1 s2 -> same_config s2 s3 -> same_config s1 s3.
Proof. unfold same_config. intros (? & ? & ?) (? & ? & ?). repeat split; congruence. Qed.

Lemma cross_modules_config gs s b ch : same_config s (fst (cross_modules gs s b ch)).
Proof.
  unfold cross_modules. destruct ch as [h|]; [|apply same_config_refl].
  destruct (global_cross_footprints_for_dnp gs); [|apply same_config_refl].
  destruct (cross_loop _ _ _ _ _). repeat split.
Qed.

Lemma remove_paste_and_glue_config gs W s b ch :
  same_config s (fst (remove_paste_and_glue gs W s b ch)).
Proof.
  unfold remove_paste_and_glue. destruct ch as [h|]; [|apply same_config_refl].
  destruct (_ || _); repeat split.
Qed.

Lemma remove_fab_config gs s b ch : same_config s (fst (remove_fab gs s b ch)).
Proof.
  unfold remove_fab. destruct ch as [h|]; [|apply same_config_refl].
  destruct (fab_loop _ _ _ _ _) as [[ms fo] bo]. repeat split.
Qed.

Lemma uncross_modules_config gs s b ch s' b' :
  uncross_modules gs s b ch = Ok (s', b') -> same_config s s'.
Proof.
  unfold uncross_modules. destruct ch as [h|]; [|intros H; injection H as <- _; repeat split].
  destruct (global_cross_footprints_for_dnp gs); [|intros H; injection H as <- _; repeat split].
  destruct (uncross_loop _ _ _) as [[ms u]|e]; [|discriminate].
  cbn. intros H. injection H as <- _. repeat split.
Qed.

Lemma restore_paste_and_glue_config gs s b ch s' b' :
  restore_paste_and_glue gs s b ch = Ok (s', b') -> same_config s s'.
Proof.
  unfold restore_paste_and_glue.
  destruct ch as [h|]; [|intros H; injection H as <- _; repeat split].
  destruct (global_remove_solder_paste_for_dnp gs).
  - destruct (restore_paste_loop _ _ _) as [[ms old]|e]; [|discriminate].
    cbn. intros H. injection H as <- _. repeat split.
  - cbn. intros H. injection H as <- _. repeat split.
Qed.

(** Without the attribute the filter does not come back. *)
Lemma filter_components_no_attribute gs W self board :
  no_comps self = false -> hide_excluded self = None ->
  filter_components gs W self board = Raise AttributeError.
Proof.
  intros En Hn. unfold filter_components. rewrite En. cbv zeta.
  pose proof (cross_modules_config gs self board (get_refs_hash self)) as C1.
  destruct (cross_modules gs self board (get_refs_hash self)) as [s1 b1]. cbn [fst] in C1.
  pose proof (remove_paste_and_glue_config gs W s1 b1 (get_refs_hash self)) as C2.
  destruct (remove_paste_and_glue gs W s1 b1 (get_refs_hash self)) as [s2 b2].
  cbn [fst] in C2. destruct C1 as (H1 & _), C2 as (H2 & _).
  unfold read_hide_excluded. rewrite H2, H1, Hn. reflexivity.
Qed.

(** [unfilter_components] is the 2D part of [unfilter_pcb_components] run
    with the dictionary of the moment. *)
Lemma unfilter_components_2D gs self board (b : bool) :
  no_comps self = false -> hide_excluded self = Some b ->
  unfilter_components gs self board
  = with_hash (comps_hash self)
      (unfilter_2D gs (set_comps_hash (get_refs_hash self) self) board).
Proof.
  intros En Hb. unfold unfilter_components, unfilter_2D, with_hash. rewrite En. cbv zeta.
  set (ch := get_refs_hash self).
  change (comps_hash (set_comps_hash ch self)) with ch.
  rewrite uncross_modules_frame. unfold with_hash.
  destruct (uncross_modules gs self board ch) as [[s1 b1]|e] eqn:E1; [|reflexivity].
  apply uncross_modules_config in E1 as C1.
  cbn [mbind result_bind rbind].
  change (comps_hash (set_comps_hash ch s1)) with ch.
  rewrite restore_paste_and_glue_frame. unfold with_hash.
  destruct (restore_paste_and_glue gs s1 b1 ch) as [[s2 b2]|e] eqn:E2; [|reflexivity].
  apply restore_paste_and_glue_config in E2 as C2.
  pose proof (same_config_trans _ _ _ C1 C2) as (H2 & Hc2 & _).
  cbn [mbind result_bind rbind].
  unfold read_hide_excluded, hides_excluded. cbn [hide_excluded set_comps_hash].
  rewrite H2, Hb. cbn [mbind result_bind rbind].
  change (comps_hash (set_comps_hash ch s2)) with ch.
  rewrite set_comps_hash_twice, <- Hc2, set_comps_hash_same.
  destruct b; reflexivity.
Qed.


(** X12.  [unfilter_components] after a [filter_components] that came
    back gives the board as it was before the print: no cross is left,
    the pads have their layer sets and the adhesive and Fab graphics are
    on their layers.  The graphical items are distinct objects. *)
Theorem unfilter_components_after_filter gs W self board self1 board1 :
  NoDup (all_ids (modules board)) ->
  filter_components gs W self board = Ok (self1, board1) ->
  exists self2, unfilter_components gs self1 board1 = Ok (self2, board).
Proof.
  intros Hnd H. destruct (no_comps self) eqn:En.
  - unfold filter_components in H. rewrite En in H. injection H as <- <-.
    unfold unfilter_components. rewrite En. eauto.
  - destruct (hide_excluded self) as [b|] eqn:Hb;
      [|rewrite (filter_components_no_attribute _ _ _ _ En Hb) in H; discriminate].
    rewrite (filter_components_2D _ _ _ _ b En Hb) in H.
    destruct (get_refs_hash_some self En) as (h & Eh & _ & _). rewrite Eh in H.
    set (s0 := set_comps_hash (Some h) self) in *.
    destruct (twoD_round_trip gs W s0 board h eq_refl Hnd)
      as (cu & pu & fu & ws & ms3 & E2 & Hmo & _ & Hback).
    rewrite E2 in H. cbn [fst snd] in H. injection H as <- <-.
    set (s2 := set_fab_undo fu (add_warnings ws (set_paste_undo pu (set_cross_undo cu s0)))).
    set (self1 := set_comps_hash (comps_hash self) s2).
    assert (En1 : no_comps self1 = false) by exact En.
    assert (Hb1 : hide_excluded self1 = Some b) by exact Hb.
    rewrite (unfilter_components_2D _ _ _ b En1 Hb1).
    change (get_refs_hash self1) with (get_refs_hash self). rewrite Eh.
    assert (G33 : Forall2 geo_eq ms3 ms3)
      by (apply Forall2_refl_list; intros m; repeat split).
    replace (set_modules ms3 board) with (set_modules (graft ms3 ms3) board)
      by (rewrite (graft_geo ms3 ms3 G33); reflexivity).
    edestruct (Hback (set_comps_hash (Some h) self1) ms3) as (cu' & pu' & ->);
      try reflexivity.
    { apply Forall2_length in Hmo. lia. }
    unfold with_hash. cbn [mbind result_bind rbind]. eexists. f_equal. f_equal.
    rewrite (graft_models _ _ Hmo). exact (set_modules_same board).
Qed.

Lemma unfilter_components_after_filter_witness :
  exists self1 board1,
    filter_components sample_globals "(W050) " sample_options sample_board
    = Ok (self1, board1)
    /\ board1 <> sample_board
    /\ exists self2,
         unfilter_components sample_globals self1 board1 = Ok (self2, sample_board).
Proof.
  destruct (filter_components sample_globals "(W050) " sample_options sample_board)
    as [[self1 board1]|e] eqn:E; [|vm_compute in E; discriminate].
  exists self1, board1. split; [reflexivity|]. split.
  - vm_compute in E. injection E as _ <-. discriminate.
  - exact (unfilter_components_after_filter sample_globals "(W050) " sample_options
             sample_board self1 board1 sample_board_ids E).
Defined.


(** ** Clearing a layer for the frame *)

(** What [clear_layer] leaves in the object for [restore_layer]. *)
Record LayerUndo := mkLayerUndo {
  moved_items : list nat;
  cleared_layer : Z
}.

(** [if g.GetLayer() == cleared_layer: g.SetLayer(tmp_layer)] *)
Definition clear_item (cleared tmp : Z) (g : GItem) : GItem :=
  if gi_layer g =? cleared then SetLayer tmp g else g.

(** [clear_layer]: [drawings] are [GS.board.GetDrawings()]; the drawings
    and then the graphics of the footprints that are on the layer go to
    the work layer and are remembered. *)
Definition clear_layer (gs : Globals) (drawings : list GItem) (board : Board)
    (layer : string) : LayerUndo * list GItem * Board :=
  let tmp_layer := GetLayerID board (work_layer gs) in
  let cleared_layer := GetLayerID board layer in
  let moved :=
    ids_on cleared_layer drawings
    ++ flat_map (fun m => ids_on cleared_layer (GraphicalItems m)) (modules board) in
  (mkLayerUndo moved cleared_layer,
   map (clear_item cleared_layer tmp_layer) drawings,
   set_modules
     (map (fun m => set_items (map (clear_item cleared_layer tmp_layer) (GraphicalItems m)) m)
        (modules board))
     board).

(** [restore_layer]: every remembered item goes to the cleared layer. *)
Definition restore_layer (u : LayerUndo) (drawings : list GItem) (board : Board)
    : list GItem * Board :=
  (map (relayer (moved_items u) (cleared_layer u)) drawings,
   set_modules (set_layer_of (moved_items u) (cleared_layer u) (modules board)) board).

Lemma clear_item_id cleared tmp g : gi_id (clear_item cleared tmp g) = gi_id g.
Proof. unfold clear_item. destruct (_ =? _); reflexivity. Qed.

(** The drawings as the graphics of one more footprint. *)
Definition with_drawings (drawings : list GItem) (ms : list Footprint) : list Footprint :=
  mkFootprint "" drawings [] [] :: ms.

Lemma marked_all (l : Z) (ms : list Footprint) :
  marked (fun _ => true) l ms = flat_map (fun m => ids_on l (GraphicalItems m)) ms.
Proof. reflexivity. Qed.

Lemma clear_item_back (drawings : list GItem) (ms : list Footprint) (cleared tmp : Z)
    (m : Footprint) (g : GItem) :
  NoDup (map gi_id drawings ++ all_ids ms) ->
  m ∈ with_drawings drawings ms -> g ∈ GraphicalItems m ->
  relayer (ids_on cleared drawings ++ flat_map (fun m => ids_on cleared (GraphicalItems m)) ms)
    cleared (clear_item cleared tmp g)
  = g.
Proof.
  intros Hnd Hm Hg.
  set (dm := with_drawings drawings ms) in *.
  assert (Hnd' : NoDup (all_ids dm)) by exact Hnd.
  change (ids_on cleared drawings
          ++ flat_map (fun m => ids_on cleared (GraphicalItems m)) ms)
    with (marked (fun _ => true) cleared dm).
  rewrite (relayer_marked (fun _ => true) cleared (fresh_id dm) dm dm m g
             (clear_item cleared tmp g) Hnd' (fresh_id_above dm)
             (Forall2_refl_list _ _ (crossed_refl _)) Hm Hg (clear_item_id _ _ _)).
  cbn [andb]. unfold clear_item.
  destruct (Z.eqb_spec (gi_layer g) cleared) as [E|E]; [|reflexivity].
  rewrite SetLayer_twice. rewrite <- E. destruct g; reflexivity.
Qed.

(** X13.  [restore_layer] after [clear_layer] puts every drawing and every
    graphic of a footprint back on its layer: the drawings and the board
    are as they were.  The items are distinct objects. *)
Theorem restore_layer_after_clear_layer gs (drawings : list GItem) board layer :
  NoDup (map gi_id drawings ++ all_ids (modules board)) ->
  let '(u, drawings1, board1) := clear_layer gs drawings board layer in
  restore_layer u drawings1 board1 = (drawings, board).
Proof.
  intros Hnd. unfold clear_layer, restore_layer.
  cbn [moved_items cleared_layer modules set_modules].
  set (tmp := GetLayerID board (work_layer gs)). set (cleared := GetLayerID board layer).
  f_equal.
  - rewrite map_map. apply map_id_on. intros g Hg.
    apply (clear_item_back drawings (modules board) cleared tmp
             (mkFootprint "" drawings [] []) g Hnd); [left|exact Hg].
  - rewrite set_layer_of_map, map_map.
    rewrite (map_id_on _ (modules board)); [exact (set_modules_same board)|].
    intros m Hm. cbn [GraphicalItems set_items]. rewrite map_map.
    rewrite (map_id_on _ (GraphicalItems m)).
    + destruct m; reflexivity.
    + intros g Hg.
      apply (clear_item_back drawings (modules board) cleared tmp m g Hnd);
        [right; exact Hm|exact Hg].
Qed.

(** X14.  After [clear_layer] nothing is left on the cleared layer, among
    the drawings and among the graphics of the footprints, as long as the
    work layer is another layer. *)
Theorem clear_layer_empties gs (drawings : list GItem) board layer :
  GetLayerID board (work_layer gs) <> GetLayerID board layer ->
  let '(u, drawings1, board1) := clear_layer gs drawings board layer in
  cleared_layer u = GetLayerID board layer
  /\ Forall (fun g => gi_layer g <> GetLayerID board layer) drawings1
  /\ Forall (fun m => Forall (fun g => gi_layer g <> GetLayerID board layer)
                        (GraphicalItems m)) (modules board1).
Proof.
  intros Hne. unfold clear_layer. cbn [cleared_layer modules set_modules].
  assert (K : forall items : list GItem,
             Forall (fun g => gi_layer g <> GetLayerID board layer)
               (map (clear_item (GetLayerID board layer) (GetLayerID board (work_layer gs)))
                  items)).
  { intros items. apply Forall_forall. intros g Hg.
    apply list_elem_of_In, in_map_iff in Hg as (g0 & <- & _). unfold clear_item.
    destruct (Z.eqb_spec (gi_layer g0) (GetLayerID board layer)) as [E|E];
      [exact Hne|exact E]. }
  split; [reflexivity|]. split; [apply K|].
  apply Forall_forall. intros m Hm.
  apply list_elem_of_In, in_map_iff in Hm as (m0 & <- & _). apply K.
Qed.


(** The outline of the sample board and a note on a drawing layer. *)
Definition sample_drawings : list GItem :=
  [ mkGItem 20 "DRAWSEGMENT" 44 "" (mkRect 0 0 100 0);
    mkGItem 21 "DRAWSEGMENT" 44 "" (mkRect 0 0 0 60);
    mkGItem 22 "PTEXT" 40 "rev A" (mkRect 5 55 10 2) ].

Lemma sample_drawings_ids :
  NoDup (map gi_id sample_drawings ++ all_ids (modules sample_board)).
Proof. apply (bool_decide_unpack _). vm_compute. exact I. Qed.

Lemma restore_layer_after_clear_layer_witness :
  let '(u, drawings1, board1) :=
    clear_layer sample_globals sample_drawings sample_board "Edge.Cuts" in
  moved_items u = [20; 21]%nat
  /\ map gi_layer drawings1 = [50; 50; 40]
  /\ restore_layer u drawings1 board1 = (sample_drawings, sample_board).
Proof.
  pose proof (restore_layer_after_clear_layer sample_globals sample_drawings sample_board
                "Edge.Cuts" sample_drawings_ids) as T.
  destruct (clear_layer sample_globals sample_drawings sample_board "Edge.Cuts")
    as [[u drawings1] board1] eqn:E.
  split; [vm_compute in E; injection E as <- _ _; reflexivity|].
  split; [vm_compute in E; injection E as _ <- _; reflexivity|].
  exact T.
Defined.

Lemma clear_layer_empties_witness :
  let '(u, drawings1, board1) :=
    clear_layer sample_globals sample_drawings sample_board "F.Fab" in
  cleared_layer u = 49
  /\ Forall (fun g => gi_layer g <> 49) drawings1
  /\ Forall (fun m => Forall (fun g => gi_layer g <> 49) (GraphicalItems m))
       (modules board1).
Proof.
  exact (clear_layer_empties sample_globals sample_drawings sample_board "F.Fab"
           ltac:(vm_compute; discriminate)).
Defined.

(** * Titles *)

Section Title.

(** The schematic object [GS.sch] with its two methods (kibot/kicad, not
    among the sources), and [expand_filename_pcb] (kibot/optionable). *)
Context {Sch : Type}.
Variable expand_filename_pcb : string -> string.
Variable sch_get_title : Sch -> string.
Variable sch_set_title : string -> Sch -> option string * Sch.

(** [self.old_title], the title of the title block of [GS.board], and
    the schematic. *)
Record TitleState := mkTitleState {
  old_title : option string;
  board_title : string;
  the_sch : Sch
}.

(** [set_title] *)
Definition set_title (title : string) (is_sch : bool) (st : TitleState)
    : result TitleState :=
  let st := mkTitleState None (board_title st) (the_sch st) in
  if String.eqb title "" then Ok st
  else
    let old := if is_sch then sch_get_title (the_sch st) else board_title st in
    match expand_filename_pcb title with
    | EmptyString => Raise IndexError
    | String c rest =>
        let text := if Ascii.eqb c "+" then old +:+ rest else String c rest in
        if is_sch then
          let '(ret, sch') := sch_set_title text (the_sch st) in
          Ok (mkTitleState ret (board_title st) sch')
        else Ok (mkTitleState (Some old) text (the_sch st))
    end.

(** [restore_title] *)
Definition restore_title (is_sch : bool) (st : TitleState) : TitleState :=
  match old_title st with
  | Some old =>
      if is_sch then
        mkTitleState None (board_title st) (snd (sch_set_title old (the_sch st)))
      else mkTitleState None old (the_sch st)
  | None => st
  end.

(** X15.  On the board, [restore_title] after a [set_title] that came
    back gives the title block its title again and forgets the old one;
    in between the title is the expanded text, or the old title followed
    by the rest of the text when it starts with [+]; an empty title
    changes nothing. *)
Theorem restore_title_after_set_title (title : string) (st st1 : TitleState) :
  set_title title false st = Ok st1 ->
  restore_title false st1 = mkTitleState None (board_title st) (the_sch st)
  /\ the_sch st1 = the_sch st
  /\ (title = "" -> st1 = mkTitleState None (board_title st) (the_sch st))
  /\ (title <> "" ->
      old_title st1 = Some (board_title st)
      /\ exists c rest,
           expand_filename_pcb title = String c rest
           /\ board_title st1
              = if Ascii.eqb c "+" then board_title st +:+ rest else String c rest).
Proof.
  unfold set_title, restore_title. cbn [board_title the_sch].
  destruct (String.eqb_spec title "") as [E|E].
  - intros H. injection H as <-. cbn.
    split; [reflexivity|]. split; [reflexivity|]. split; [intros _; reflexivity|].
    intros Hn. contradiction.
  - destruct (expand_filename_pcb title) as [|c rest]; [discriminate|].
    intros H. injection H as <-. cbn.
    split; [reflexivity|]. split; [reflexivity|]. split; [intros Hn; contradiction|].
    intros _. split; [reflexivity|]. exists c, rest. split; reflexivity.
Qed.

End Title.

Lemma restore_title_after_set_title_witness :
  let expand (s : string) := s in
  let get (_ : unit) := "" in
  let set (_ : string) (s : unit) : option string * unit := (None, s) in
  let st := mkTitleState (Some "stale") "Amplifier" tt in
  exists st1,
    set_title expand get set "+ (top)" false st = Ok st1
    /\ board_title st1 = "Amplifier (top)"
    /\ restore_title set false st1 = mkTitleState None "Amplifier" tt.
Proof.
  intros expand get set st. eexists. split; [reflexivity|]. split; [reflexivity|].
  exact (proj1 (restore_title_after_set_title expand get set "+ (top)" st _ eq_refl)).
Defined.

(** * The fields of the schematic on the board *)

Module SchFields.

(** What can go wrong in [sch_fields_to_pcb] and its undo. *)
Inductive field_exc : Type :=
  | KeyError (key : string)
  | UnboundLocalError (name : string)
  | NoneTypeAttributeError
  | MissingAttributeError (name : string)
  | TupleIndexError
  | TypeError.

Inductive outcome (A : Type) : Type :=
  | Done (a : A)
  | Fails (e : field_exc).
Arguments Done {A} a.
Arguments Fails {A} e.

(** What the two functions read and write of a footprint. *)
Record FpData := mkFpData {
  fd_ref : string;
  fd_value : string;
  fd_properties : gmap string string;
  fd_fpid : string
}.

(** The entry of [self.sch_fields_to_pcb_bkp] for a reference: the old
    value alone, or a tuple of two or of three. *)
Inductive bkp_data : Type :=
  | OldValue (v : string)
  | OldPair (v : string) (p : gmap string string)
  | OldTriple (v : string) (p : gmap string string) (fp : string).

(** [self.sch_fields_to_pcb_bkp] and [self._has_GetFPIDAsString] (not
    there before the first run). *)
Record FieldsUndo := mkFieldsUndo {
  sch_fields_to_pcb_bkp : gmap string bkp_data;
  _has_GetFPIDAsString : option bool
}.

(** [{f.name: f.value for f in comp.fields}] *)
Definition properties_of (fs : list (string * string)) : gmap string string :=
  foldl (fun d f => <[fst f := snd f]> d) ∅ fs.

(** The body of the loop for a footprint that has a component. *)
Definition apply_fields (ki6 has_GetFPIDAsString : bool) (comp : Component) (m : FpData)
    : outcome (FpData * bkp_data) :=
  let properties := properties_of (fields comp) in
  let old_value := fd_value m in
  match properties !! "Value" with
  | None => Fails (KeyError "Value")
  | Some v =>
      if ki6 then
        let old_properties := fd_properties m in
        if has_GetFPIDAsString then
          let old_fp := fd_fpid m in
          match properties !! "Footprint" with
          | None => Fails (KeyError "Footprint")
          | Some fp =>
              Done (mkFpData (fd_ref m) v properties fp,
                    OldTriple old_value old_properties old_fp)
          end
        else Done (mkFpData (fd_ref m) v properties (fd_fpid m),
                   OldPair old_value old_properties)
      else Done (mkFpData (fd_ref m) v (fd_properties m) (fd_fpid m), OldValue old_value)
  end.

Fixpoint fields_loop (ki6 has_GetFPIDAsString : bool) (comps_hash : gmap string Component)
    (ms : list FpData) (bkp : gmap string bkp_data)
    : outcome (list FpData * gmap string bkp_data) :=
  match ms with
  | [] => Done ([], bkp)
  | m :: rest =>
      match comps_hash !! fd_ref m with
      | Some comp =>
          match apply_fields ki6 has_GetFPIDAsString comp m with
          | Done (m', data) =>
              match fields_loop ki6 has_GetFPIDAsString comps_hash rest
                      (<[fd_ref m := data]> bkp) with
              | Done (rest', bkp') => Done (m' :: rest', bkp')
              | Fails e => Fails e
              end
          | Fails e => Fails e
          end
      | None =>
          match fields_loop ki6 has_GetFPIDAsString comps_hash rest bkp with
          | Done (rest', bkp') => Done (m :: rest', bkp')
          | Fails e => Fails e
          end
      end
  end.

(** [sch_fields_to_pcb]: [ki6] is what the test of [GS.ki6] gives,
    [has_GetFPIDAsString] whether the footprints of this pcbnew have the
    method; [ms] are the footprints of the board. *)
Definition sch_fields_to_pcb (ki6 has_GetFPIDAsString : bool) (self : VariantOptions)
    (ms : list FpData) : outcome (FieldsUndo * list FpData) :=
  match ms with
  | [] => Fails (UnboundLocalError "has_GetFPIDAsString")
  | _ :: _ =>
      match get_refs_hash self with
      | None => Fails NoneTypeAttributeError
      | Some comps_hash =>
          match fields_loop ki6 has_GetFPIDAsString comps_hash ms ∅ with
          | Done (ms', bkp) => Done (mkFieldsUndo bkp (Some has_GetFPIDAsString), ms')
          | Fails e => Fails e
          end
      end
  end.

(** The body of the loop of the undo for a footprint with a record. *)
Definition restore_fields (ki6 has_GetFPIDAsString : bool) (data : bkp_data) (m : FpData)
    : outcome FpData :=
  if ki6 then
    match data with
    | OldTriple v p fp =>
        if has_GetFPIDAsString then Done (mkFpData (fd_ref m) v p fp)
        else Done (mkFpData (fd_ref m) v p (fd_fpid m))
    | OldPair v p =>
        if has_GetFPIDAsString then Fails TupleIndexError
        else Done (mkFpData (fd_ref m) v p (fd_fpid m))
    | OldValue _ => Fails TypeError
    end
  else
    match data with
    | OldValue v => Done (mkFpData (fd_ref m) v (fd_properties m) (fd_fpid m))
    | _ => Fails TypeError
    end.

Fixpoint restore_fields_loop (ki6 has_GetFPIDAsString : bool)
    (bkp : gmap string bkp_data) (ms : list FpData) : outcome (list FpData) :=
  match ms with
  | [] => Done []
  | m :: rest =>
      match
        match bkp !! fd_ref m with
        | Some data => restore_fields ki6 has_GetFPIDAsString data m
        | None => Done m
        end
      with
      | Done m' =>
          match restore_fields_loop ki6 has_GetFPIDAsString bkp rest with
          | Done rest' => Done (m' :: rest')
          | Fails e => Fails e
          end
      | Fails e => Fails e
      end
  end.

(** [restore_sch_fields_to_pcb] *)
Definition restore_sch_fields_to_pcb (ki6 : bool) (u : FieldsUndo) (ms : list FpData)
    : outcome (list FpData) :=
  match _has_GetFPIDAsString u with
  | None => Fails (MissingAttributeError "_has_GetFPIDAsString")
  | Some has_GetFPIDAsString =>
      restore_fields_loop ki6 has_GetFPIDAsString (sch_fields_to_pcb_bkp u) ms
  end.

Lemma apply_fields_back ki6 has comp m m' data :
  apply_fields ki6 has comp m = Done (m', data) ->
  fd_ref m' = fd_ref m /\ restore_fields ki6 has data m' = Done m.
Proof.
  unfold apply_fields, restore_fields. destruct (properties_of (fields comp) !! "Value");
    [|discriminate].
  destruct ki6.
  - destruct has.
    + destruct (properties_of (fields comp) !! "Footprint"); [|discriminate].
      intros H. injection H as <- <-. split; [reflexivity|]. destruct m; reflexivity.
    + intros H. injection H as <- <-. split; [reflexivity|]. destruct m; reflexivity.
  - intros H. injection H as <- <-. split; [reflexivity|]. destruct m; reflexivity.
Qed.

Lemma fields_loop_back ki6 has h (ms : list FpData) :
  forall bkp0 ms1 bkp1,
    NoDup (map fd_ref ms) ->
    (forall m, m ∈ ms -> bkp0 !! fd_ref m = None) ->
    fields_loop ki6 has h ms bkp0 = Done (ms1, bkp1) ->
    restore_fields_loop ki6 has bkp1 ms1 = Done ms
    /\ (forall k, k ∉ map fd_ref ms -> bkp1 !! k = bkp0 !! k).
Proof.
  induction ms as [|m ms IH]; intros bkp0 ms1 bkp1 Hnd H0 H.
  - cbn in H. injection H as <- <-. split; [reflexivity|]. intros; reflexivity.
  - cbn [map] in Hnd. apply NoDup_cons in Hnd as [Hm Hnd].
    cbn [fields_loop] in H.
    assert (Hrest : forall b : gmap string bkp_data,
               (forall k, k <> fd_ref m -> b !! k = bkp0 !! k) ->
               forall a, a ∈ ms -> b !! fd_ref a = None).
    { intros b Hb a Ha. rewrite Hb; [apply H0; right; exact Ha|].
      intros E. apply Hm. rewrite <- E. apply list_elem_of_In, in_map, list_elem_of_In, Ha. }
    destruct (h !! fd_ref m) as [comp|].
    + destruct (apply_fields ki6 has comp m) as [[m' data]|e] eqn:Ea; [|discriminate].
      destruct (fields_loop ki6 has h ms (<[fd_ref m := data]> bkp0))
        as [[rest' bkp']|e] eqn:Er; [|discriminate].
      injection H as <- <-.
      apply apply_fields_back in Ea as [Hr Hb].
      assert (Hne : forall a, a ∈ ms -> <[fd_ref m := data]> bkp0 !! fd_ref a = None).
      { apply Hrest. intros k Hk. apply lookup_insert_ne. congruence. }
      destruct (IH _ _ _ Hnd Hne Er) as [IH1 IH2].
      split.
      * cbn [restore_fields_loop]. rewrite Hr, (IH2 _ Hm), lookup_insert_eq, Hb, IH1.
        reflexivity.
      * intros k Hk. rewrite IH2 by (intros Hin; apply Hk; right; exact Hin).
        apply lookup_insert_ne. intros E. apply Hk. rewrite <- E. left.
    + destruct (fields_loop ki6 has h ms bkp0) as [[rest' bkp']|e] eqn:Er; [|discriminate].
      injection H as <- <-.
      destruct (IH _ _ _ Hnd (Hrest bkp0 ltac:(reflexivity)) Er) as [IH1 IH2].
      split.
      * cbn [restore_fields_loop]. rewrite (IH2 _ Hm), (H0 m ltac:(left)), IH1.
        reflexivity.
      * intros k Hk. apply IH2. intros Hin. apply Hk. right. exact Hin.
Qed.

End SchFields.

(** The fields a component needs for [sch_fields_to_pcb] to use it. *)
Definition has_needed_fields (ki6 has_GetFPIDAsString : bool) (c : Component) : Prop :=
  is_Some (SchFields.properties_of (fields c) !! "Value")
  /\ (ki6 = true -> has_GetFPIDAsString = true ->
      is_Some (SchFields.properties_of (fields c) !! "Footprint")).

Lemma apply_fields_done ki6 has c m :
  (exists r, SchFields.apply_fields ki6 has c m = SchFields.Done r)
  <-> has_needed_fields ki6 has c.
Proof.
  unfold SchFields.apply_fields, has_needed_fields.
  destruct (SchFields.properties_of (fields c) !! "Value") as [v|].
  - destruct ki6, has;
      try (split; [intros _; split; [eauto|intros; discriminate]|intros _; eauto]).
    destruct (SchFields.properties_of (fields c) !! "Footprint") as [fp|].
    + split; [intros _; split; eauto|intros _; eauto].
    + split.
      * intros [r H]. discriminate.
      * intros [_ H]. destruct (H eq_refl eq_refl) as [x Hx]. discriminate.
  - split.
    + intros [r H]. discriminate.
    + intros [[x Hx] _]. discriminate.
Qed.

Lemma fields_loop_done ki6 has h (ms : list SchFields.FpData) :
  forall bkp,
    (exists r, SchFields.fields_loop ki6 has h ms bkp = SchFields.Done r)
    <-> (forall m c, m ∈ ms -> h !! SchFields.fd_ref m = Some c ->
                     has_needed_fields ki6 has c).
Proof.
  induction ms as [|m ms IH]; intros bkp.
  - cbn. split; [intros _ m c Hm; inversion Hm|eauto].
  - cbn [SchFields.fields_loop]. destruct (h !! SchFields.fd_ref m) as [comp|] eqn:Eh.
    + destruct (SchFields.apply_fields ki6 has comp m) as [[m' data]|e] eqn:Ea.
      * assert (Hc : has_needed_fields ki6 has comp)
          by (apply (apply_fields_done ki6 has comp m); eauto).
        specialize (IH (<[SchFields.fd_ref m := data]> bkp)).
        destruct (SchFields.fields_loop ki6 has h ms _) as [[rest' bkp']|e].
        -- split; [|eauto]. intros _ a c Ha Hac.
           apply elem_of_cons in Ha as [->|Ha].
           ++ rewrite Eh in Hac. injection Hac as <-. exact Hc.
           ++ apply (proj1 IH ltac:(eauto) a c Ha Hac).
        -- split; [intros [r H]; discriminate|].
           intros H. destruct (proj2 IH) as [r Hr]; [|discriminate].
           intros a c Ha Hac. apply (H a c); [right; exact Ha|exact Hac].
      * split; [intros [r H]; discriminate|].
        intros H. specialize (H m comp ltac:(left) Eh).
        apply (apply_fields_done ki6 has comp m) in H as [r Hr].
        rewrite Ea in Hr. discriminate.
    + specialize (IH bkp).
      destruct (SchFields.fields_loop ki6 has h ms bkp) as [[rest' bkp']|e].
      * split; [|eauto]. intros _ a c Ha Hac.
        apply elem_of_cons in Ha as [->|Ha].
        -- rewrite Eh in Hac. discriminate.
        -- apply (proj1 IH ltac:(eauto) a c Ha Hac).
      * split; [intros [r H]; discriminate|].
        intros H. destruct (proj2 IH) as [r Hr]; [|discriminate].
        intros a c Ha Hac. apply (H a c); [right; exact Ha|exact Hac].
Qed.

(** X16.  [sch_fields_to_pcb] comes back exactly when the board has a
    footprint, the object has components, and every component that a
    footprint refers to has a [Value] field (and a [Footprint] field when
    the footprint identifier is written too).  On a board without
    footprints it fails on the variable that only the loop assigns;
    without components it fails on the dictionary that is [None]. *)
Theorem sch_fields_to_pcb_done ki6 has self (ms : list SchFields.FpData) :
  ((exists r, SchFields.sch_fields_to_pcb ki6 has self ms = SchFields.Done r)
   <-> ms <> []
       /\ exists h, get_refs_hash self = Some h
            /\ forall m c, m ∈ ms -> h !! SchFields.fd_ref m = Some c ->
                           has_needed_fields ki6 has c)
  /\ (ms = [] ->
      SchFields.sch_fields_to_pcb ki6 has self ms
      = SchFields.Fails (SchFields.UnboundLocalError "has_GetFPIDAsString"))
  /\ (ms <> [] -> get_refs_hash self = None ->
      SchFields.sch_fields_to_pcb ki6 has self ms
      = SchFields.Fails SchFields.NoneTypeAttributeError).
Proof.
  split; [|split].
  - unfold SchFields.sch_fields_to_pcb. destruct ms as [|m0 ms0].
    + split; [intros [r H]; discriminate|intros [H _]; contradiction].
    + destruct (get_refs_hash self) as [h|].
      * pose proof (fields_loop_done ki6 has h (m0 :: ms0) ∅) as L.
        destruct (SchFields.fields_loop ki6 has h (m0 :: ms0) ∅) as [[ms' bkp]|e].
        -- split; [|eauto]. intros _. split; [discriminate|].
           exists h. split; [reflexivity|]. apply L. eauto.
        -- split; [intros [r H]; discriminate|].
           intros (_ & h' & Eh & H). injection Eh as <-.
           destruct (proj2 L H) as [r Hr]. discriminate.
      * split; [intros [r H]; discriminate|].
        intros (_ & h' & Eh & _). discriminate.
  - intros ->. reflexivity.
  - intros Hne Hn. unfold SchFields.sch_fields_to_pcb.
    destruct ms; [contradiction|]. rewrite Hn. reflexivity.
Qed.

(** X17.  [restore_sch_fields_to_pcb] after a [sch_fields_to_pcb] that
    came back gives every footprint its value, its properties and its
    footprint identifier again, as long as no two footprints share a
    reference. *)
Theorem restore_sch_fields_to_pcb_after ki6 has self (ms ms1 : list SchFields.FpData) u :
  NoDup (map SchFields.fd_ref ms) ->
  SchFields.sch_fields_to_pcb ki6 has self ms = SchFields.Done (u, ms1) ->
  SchFields.restore_sch_fields_to_pcb ki6 u ms1 = SchFields.Done ms.
Proof.
  intros Hnd H. unfold SchFields.sch_fields_to_pcb in H.
  destruct ms as [|m0 ms0]; [discriminate|].
  destruct (get_refs_hash self) as [h|]; [|discriminate].
  destruct (SchFields.fields_loop ki6 has h (m0 :: ms0) ∅) as [[ms' bkp]|e] eqn:E;
    [|discriminate].
  injection H as <- <-. unfold SchFields.restore_sch_fields_to_pcb.
  cbn [SchFields._has_GetFPIDAsString SchFields.sch_fields_to_pcb_bkp].
  apply (SchFields.fields_loop_back ki6 has h (m0 :: ms0) ∅ ms' bkp Hnd); [|exact E].
  intros; apply lookup_empty.
Qed.

Definition sample_footprint_data : list SchFields.FpData :=
  [ SchFields.mkFpData "R1" "10k" {[ "Sheetname" := "main" ]} "Resistor_SMD:R_0603";
    SchFields.mkFpData "H1" "MountingHole" ∅ "MountingHole:M3" ].

Definition sample_fields_options : VariantOptions :=
  set_comps
    (Some [ mkComponent "R1" true true
              [("Value", "4k7"); ("Footprint", "Resistor_SMD:R_0402"); ("Tolerance", "1%")] ])
    (init_options None None None None).

Lemma restore_sch_fields_to_pcb_after_witness :
  exists u ms1,
    SchFields.sch_fields_to_pcb true true sample_fields_options sample_footprint_data
    = SchFields.Done (u, ms1)
    /\ map SchFields.fd_value ms1 = ["4k7"; "MountingHole"]
    /\ map SchFields.fd_fpid ms1 = ["Resistor_SMD:R_0402"; "MountingHole:M3"]
    /\ SchFields.restore_sch_fields_to_pcb true u ms1 = SchFields.Done sample_footprint_data.
Proof.
  destruct (SchFields.sch_fields_to_pcb true true sample_fields_options
              sample_footprint_data) as [[u ms1]|e] eqn:E; [|vm_compute in E; discriminate].
  exists u, ms1. split; [reflexivity|].
  split; [vm_compute in E; injection E as _ <-; reflexivity|].
  split; [vm_compute in E; injection E as _ <-; reflexivity|].
  refine (restore_sch_fields_to_pcb_after true true sample_fields_options
            sample_footprint_data ms1 u _ E).
  apply (bool_decide_unpack _). vm_compute. exact I.
Defined.

(** * References to filters in a list of components *)

(** An entry of the list [solve_kf_filters] makes: a reference as it was
    written, or a filter object. *)
Inductive kf_entry (F : Type) : Type :=
  | KfRef (c : string)
  | KfFilter (f : F).
Arguments KfRef {F} c.
Arguments KfFilter {F} f.

Section KiBotFilters.

(** The filter objects of kibot/fil_base (not among the sources):
    [BaseFilter.solve_filter(names, 'show_components')], which gives a
    filter, nothing, or fails, and the method [filter] of a filter. *)
Context {F : Type}.
Variable solve_filter : list string -> result (option F).
Variable filter_of : F -> Component -> bool.

(** [c_s.startswith('_kf(')] *)
Definition is_kf (c : string) : bool :=
  match PyStr.strip_prefix "_kf(" (PyStr.strip c) with
  | Some _ => true
  | None => false
  end.

(** [c_s[-1]] of a string that is not empty. *)
Fixpoint last_char (s : string) : option ascii :=
  match s with
  | "" => None
  | String c "" => Some c
  | String _ r => last_char r
  end.

(** [c_s[4:-1].strip().split(';')] *)
Definition kf_names (c : string) : list string :=
  PyStr.split ";" (PyStr.strip (PyStr.drop_last 1 (PyStr.drop 4 (PyStr.strip c)))).

(** The body of the loop of [solve_kf_filters]. *)
Definition solve_kf_entry (c : string) : result (kf_entry F) :=
  if is_kf c then
    if negb (bool_decide (last_char (PyStr.strip c) = Some ")"%char)) then
      Raise (KiPlotConfigurationError
               ("Missing `)` in KiBot filter reference: `" +:+ c +:+ "`"))
    else
      filter ← solve_filter (kf_names c);
      match filter with
      | Some f => Ok (KfFilter f)
      | None => Raise (KiPlotConfigurationError ("Unknown filter in: `" +:+ c +:+ "`"))
      end
  else Ok (KfRef c).

(** [solve_kf_filters]: the new list and [self._filters_to_expand]. *)
Fixpoint solve_kf_filters (components : list string) (_filters_to_expand : bool)
    : result (list (kf_entry F) * bool) :=
  match components with
  | [] => Ok ([], _filters_to_expand)
  | c :: rest =>
      e ← solve_kf_entry c;
      let flag := match e with KfFilter _ => true | KfRef _ => _filters_to_expand end in
      '(rest', flag') ← solve_kf_filters rest flag;
      Ok (e :: rest', flag')
  end.

(** [for c in components] of [expand_kf_components]. *)
Definition expand_entry (all_comps : list Component) (c : kf_entry F) : list (kf_entry F) :=
  match c with
  | KfRef r => [KfRef r]
  | KfFilter f => map (fun ac => KfRef (ref ac)) (List.filter (filter_of f) all_comps)
  end.

(** [expand_kf_components]; [sch_comps] is what the schematic gives when
    the object has no components. *)
Definition expand_kf_components (self : VariantOptions) (sch_comps : list Component)
    (_filters_to_expand : bool) (components : list (kf_entry F)) : list (kf_entry F) :=
  match components with
  | [] => []
  | _ :: _ =>
      if negb _filters_to_expand then components
      else
        let all_comps := if no_comps self then sch_comps else comps_list self in
        flat_map (expand_entry all_comps) components
  end.

Definition is_ref (e : kf_entry F) : bool :=
  match e with KfRef _ => true | KfFilter _ => false end.

Lemma solve_kf_entry_plain c : is_kf c = false -> solve_kf_entry c = Ok (KfRef c).
Proof. intros H. unfold solve_kf_entry. rewrite H. reflexivity. Qed.

Lemma solve_kf_entry_kind c e : solve_kf_entry c = Ok e -> is_ref e = negb (is_kf c).
Proof.
  unfold solve_kf_entry. destruct (is_kf c).
  - destruct (negb _); [discriminate|].
    destruct (solve_filter (kf_names c)) as [[f|]|]; try discriminate.
    cbn. intros H. injection H as <-. reflexivity.
  - intros H. injection H as <-. reflexivity.
Qed.

Lemma solve_kf_filters_spec (components : list string) :
  forall flag es flag',
    solve_kf_filters components flag = Ok (es, flag') ->
    Forall2 (fun c e => solve_kf_entry c = Ok e) components es
    /\ flag' = flag || existsb is_kf components.
Proof.
  induction components as [|c rest IH]; intros flag es flag' H.
  - cbn in H. injection H as <- <-. split; [constructor|]. rewrite orb_false_r. reflexivity.
  - cbn [solve_kf_filters] in H.
    destruct (solve_kf_entry c) as [e|] eqn:E; [|discriminate].
    cbn [mbind result_bind rbind] in H.
    destruct (solve_kf_filters rest _) as [[rest' f']|] eqn:Er; [|discriminate].
    cbn [mbind result_bind rbind] in H. injection H as <- <-.
    destruct (IH _ _ _ Er) as [IH1 IH2]. split; [constructor; assumption|].
    rewrite IH2. cbn [existsb]. apply solve_kf_entry_kind in E.
    destruct e; cbn in E; apply (f_equal negb) in E; rewrite negb_involutive in E;
      cbn in E; rewrite <- E; destruct flag; reflexivity.
Qed.

Lemma solve_kf_entry_filter c e :
  is_kf c = true -> solve_kf_entry c = Ok e ->
  exists f, e = KfFilter f /\ solve_filter (kf_names c) = Ok (Some f)
            /\ last_char (PyStr.strip c) = Some ")"%char.
Proof.
  unfold solve_kf_entry. intros ->.
  destruct (bool_decide_reflect (last_char (PyStr.strip c) = Some ")"%char)) as [El|El];
    [|discriminate].
  cbn [negb]. destruct (solve_filter (kf_names c)) as [[f|]|]; try discriminate.
  cbn. intros H. injection H as <-. eauto.
Qed.

Lemma solve_kf_filters_refs (components : list string) :
  forall flag es flag',
    solve_kf_filters components flag = Ok (es, flag') ->
    existsb is_kf components = false -> es = map KfRef components.
Proof.
  intros flag es flag' H Hn. apply solve_kf_filters_spec in H as [H _].
  induction H as [|c e cs es H _ IH]; [reflexivity|].
  cbn [existsb] in Hn. apply orb_false_iff in Hn as [Hc Hn].
  rewrite (solve_kf_entry_plain c Hc) in H. injection H as <-.
  cbn [map]. f_equal. exact (IH Hn).
Qed.

Lemma solve_kf_filters_flag (components : list string) flag es flag' :
  solve_kf_filters components flag = Ok (es, flag') ->
  forallb is_ref es = true \/ flag' = true.
Proof.
  intros H. apply solve_kf_filters_spec in H as [H ->].
  induction H as [|c e cs es H _ IH]; [left; reflexivity|].
  apply solve_kf_entry_kind in H. cbn [existsb forallb]. rewrite H.
  destruct (is_kf c); cbn.
  - right. apply orb_true_r.
  - destruct IH as [IH|IH]; [left; exact IH|right; exact IH].
Qed.

Lemma expand_refs (all_comps : list Component) (es : list (kf_entry F)) :
  forallb is_ref es = true -> flat_map (expand_entry all_comps) es = es.
Proof.
  induction es as [|e es IH]; [reflexivity|]. cbn [forallb flat_map].
  intros H. apply andb_true_iff in H as [He H]. rewrite (IH H).
  destruct e; [reflexivity|discriminate].
Qed.

Lemma expand_all_refs (all_comps : list Component) (es : list (kf_entry F)) :
  forallb is_ref (flat_map (expand_entry all_comps) es) = true.
Proof.
  induction es as [|e es IH]; [reflexivity|]. cbn [flat_map].
  rewrite forallb_app, IH, andb_true_r. destruct e; [reflexivity|].
  cbn [expand_entry]. induction (List.filter (filter_of f) all_comps) as [|a l IHl];
    [reflexivity|exact IHl].
Qed.

(** X18.  When [solve_kf_filters] comes back, the new list is as long as
    the old one; an entry that does not start with [_kf(] is in its place
    unchanged, an entry that does ends with [)] and has in its place the
    filter that the names between the parentheses solve to; and
    [_filters_to_expand] is set when there was such an entry and keeps its
    value otherwise. *)
Theorem solve_kf_filters_entries (components : list string) (flag : bool)
    (es : list (kf_entry F)) (flag' : bool) :
  solve_kf_filters components flag = Ok (es, flag') ->
  length es = length components
  /\ flag' = flag || existsb is_kf components
  /\ (forall i c, components !! i = Some c -> is_kf c = false -> es !! i = Some (KfRef c))
  /\ (forall i c, components !! i = Some c -> is_kf c = true ->
        exists f, es !! i = Some (KfFilter f)
                  /\ solve_filter (kf_names c) = Ok (Some f)
                  /\ last_char (PyStr.strip c) = Some ")"%char).
Proof.
  intros H. apply solve_kf_filters_spec in H as [H ->].
  split; [symmetry; exact (Forall2_length _ _ _ H)|]. split; [reflexivity|]. split.
  - intros i c Hi Hc. destruct (Forall2_lookup_l _ _ _ _ _ H Hi) as (e & He & Hs).
    rewrite (solve_kf_entry_plain c Hc) in Hs. injection Hs as <-. exact He.
  - intros i c Hi Hc. destruct (Forall2_lookup_l _ _ _ _ _ H Hi) as (e & He & Hs).
    destruct (solve_kf_entry_filter c e Hc Hs) as (f & -> & Hf & Hl). eauto.
Qed.

(** X19.  [solve_kf_filters] fails with the error of the first entry that
    cannot be solved: after entries that are solved, an entry that starts
    with [_kf(] and does not end with [)], or whose names solve to no
    filter, raises the configuration error that quotes the entry as it was
    written, whatever follows it. *)
Theorem solve_kf_filters_first_error (pre post : list string) (c : string) (flag : bool)
    (es : list (kf_entry F)) (flag' : bool) :
  solve_kf_filters pre flag = Ok (es, flag') ->
  is_kf c = true ->
  (last_char (PyStr.strip c) <> Some ")"%char ->
   solve_kf_filters (pre ++ c :: post) flag
   = Raise (KiPlotConfigurationError
              ("Missing `)` in KiBot filter reference: `" +:+ c +:+ "`")))
  /\ (last_char (PyStr.strip c) = Some ")"%char ->
      solve_filter (kf_names c) = Ok None ->
      solve_kf_filters (pre ++ c :: post) flag
      = Raise (KiPlotConfigurationError ("Unknown filter in: `" +:+ c +:+ "`"))).
Proof.
  intros H Hc.
  assert (Hx : forall e, solve_kf_entry c = Raise e ->
                         solve_kf_filters (pre ++ c :: post) flag = Raise e).
  { intros e He. clear Hc. revert flag es flag' H.
    induction pre as [|p pre IH]; intros flag es flag' H.
    - cbn [app solve_kf_filters]. rewrite He. reflexivity.
    - cbn [app solve_kf_filters] in *.
      destruct (solve_kf_entry p) as [e0|]; [|discriminate].
      cbn [mbind result_bind rbind] in *.
      destruct (solve_kf_filters pre _) as [[r f]|] eqn:Er; [|discriminate].
      rewrite (IH _ _ _ Er). reflexivity. }
  split.
  - intros Hl. apply Hx. unfold solve_kf_entry. rewrite Hc.
    destruct (bool_decide_reflect (last_char (PyStr.strip c) = Some ")"%char)) as [El|El];
      [contradiction|reflexivity].
  - intros Hl Hs. apply Hx. unfold solve_kf_entry. rewrite Hc, Hs.
    destruct (bool_decide_reflect (last_char (PyStr.strip c) = Some ")"%char)) as [El|El];
      [reflexivity|contradiction].
Qed.

(** X20.  [expand_kf_components] on what [solve_kf_filters] gave leaves no
    filter in the list: every plain reference stays in its place and every
    filter is replaced by the references of the components it accepts, in
    the order of the components.  A list without [_kf(] entries comes out
    of the two as it went in. *)
Theorem expand_kf_components_after_solve (self : VariantOptions)
    (sch_comps : list Component) (components : list string) (flag : bool)
    (es : list (kf_entry F)) (flag' : bool) :
  solve_kf_filters components flag = Ok (es, flag') ->
  let all_comps := if no_comps self then sch_comps else comps_list self in
  let out := expand_kf_components self sch_comps flag' es in
  out = flat_map (expand_entry all_comps) es
  /\ forallb is_ref out = true
  /\ (existsb is_kf components = false -> out = map KfRef components).
Proof.
  intros H all_comps out.
  assert (Ho : out = flat_map (expand_entry all_comps) es).
  { subst out. unfold expand_kf_components. destruct es as [|e es']; [reflexivity|].
    destruct (solve_kf_filters_flag _ _ _ _ H) as [Hr| ->].
    - destruct (negb flag'); [|reflexivity]. symmetry. apply expand_refs. exact Hr.
    - reflexivity. }
  split; [exact Ho|]. split.
  - rewrite Ho. apply expand_all_refs.
  - intros Hn. rewrite Ho. pose proof (solve_kf_filters_refs _ _ _ _ H Hn) as ->.
    apply expand_refs. clear. induction components; [reflexivity|assumption].
Qed.

End KiBotFilters.

(** A filter for the examples: the name says which components pass. *)
Definition sample_solve_filter (names : list string) : result (option (Component -> bool)) :=
  match names with
  | ["only_fitted"] => Ok (Some fitted)
  | ["not_fitted"] => Ok (Some (fun c => negb (fitted c)))
  | _ => Ok None
  end.

Lemma solve_kf_filters_entries_witness :
  exists es,
    solve_kf_filters sample_solve_filter ["R1"; " _kf( only_fitted ) "; "J1 "] false
    = Ok (es, true)
    /\ length es = 3%nat
    /\ es !! 0%nat = Some (KfRef "R1")
    /\ es !! 2%nat = Some (KfRef "J1 ").
Proof.
  destruct (solve_kf_filters sample_solve_filter ["R1"; " _kf( only_fitted ) "; "J1 "] false)
    as [[es f]|e] eqn:E; [|vm_compute in E; discriminate].
  destruct (solve_kf_filters_entries sample_solve_filter _ _ _ _ E) as (Hl & Hf & Hr & _).
  exists es. split; [f_equal; f_equal; exact Hf|]. split; [exact Hl|].
  split; [exact (Hr 0%nat "R1" eq_refl eq_refl)|exact (Hr 2%nat "J1 " eq_refl eq_refl)].
Defined.

Lemma solve_kf_filters_first_error_witness :
  solve_kf_filters sample_solve_filter ["R1"; "_kf(only_fitted"; "_kf(nothing)"] false
  = Raise (KiPlotConfigurationError "Missing `)` in KiBot filter reference: `_kf(only_fitted`")
  /\ solve_kf_filters sample_solve_filter ["R1"; " _kf(nothing)"; "_kf(only_fitted"] false
     = Raise (KiPlotConfigurationError "Unknown filter in: ` _kf(nothing)`").
Proof.
  split.
  - refine (proj1 (solve_kf_filters_first_error sample_solve_filter ["R1"] ["_kf(nothing)"]
                     "_kf(only_fitted" false [KfRef "R1"] false eq_refl eq_refl) _).
    vm_compute. discriminate.
  - exact (proj2 (solve_kf_filters_first_error sample_solve_filter ["R1"] ["_kf(only_fitted"]
                    " _kf(nothing)" false [KfRef "R1"] false eq_refl eq_refl)
             eq_refl eq_refl).
Defined.

Lemma expand_kf_components_after_solve_witness :
  exists es,
    solve_kf_filters sample_solve_filter ["J1"; "_kf(only_fitted)"; "R1"] false = Ok (es, true)
    /\ expand_kf_components (fun f c => f c) (set_comps (Some sample_components)
                                                (init_options None None None None))
         [] true es
       = [KfRef "J1"; KfRef "U1"; KfRef "J1"; KfRef "C1"; KfRef "R1"].
Proof.
  destruct (solve_kf_filters sample_solve_filter ["J1"; "_kf(only_fitted)"; "R1"] false)
    as [[es f]|e] eqn:E; [|vm_compute in E; discriminate].
  exists es.
  assert (Ef : f = true) by (vm_compute in E; congruence).
  subst f. split; [reflexivity|].
  rewrite (proj1 (expand_kf_components_after_solve sample_solve_filter (fun f c => f c)
                    (set_comps (Some sample_components) (init_options None None None None))
                    [] _ _ _ _ E)).
  vm_compute in E. injection E as <-. vm_compute. reflexivity.
Defined.

(** * Pads and vias in their own colours *)

Module PlotCu.

(** A pad: the size of its drill along x and its layer set. *)
Record Pad := mkPad {
  pad_id : nat;
  drill_x : Z;
  pad_layers : gset Z
}.

(** A zone: its layer.  The fill of a zone is not represented. *)
Record Zone := mkZone {
  zone_id : nat;
  zone_layer : Z
}.

(** A track or a via, as [GS.board.GetTracks()] yields them. *)
Record Track := mkTrack {
  tr_id : nat;
  tr_class : string;
  tr_layer : Z;
  tr_drill : Z;
  tr_width : Z;
  tr_via_type : Z;
  tr_top : Z;
  tr_bottom : Z
}.

(** A footprint: its graphical items and its pads. *)
Record Fp := mkFp {
  fp_items : list GItem;
  fp_pads : list Pad
}.

Record Pcb := mkPcb {
  pcb_modules : list Fp;
  pcb_drawings : list GItem;
  pcb_zones : list Zone;
  pcb_tracks : list Track;
  pcb_GetLayerID : string -> Z
}.

(** The layer [la] of a page: [la._id] and [la.suffix]. *)
Record LayerOpt := mkLayerOpt {
  _id : Z;
  suffix : string
}.

(** The options [plot_extra_cu] reads. *)
Record CuOptions := mkCuOptions {
  colored_pads : bool;
  colored_vias : bool;
  pad_color : string;
  via_color : string;
  blind_via_color : string;
  micro_via_color : string
}.

Definition removeLayer (id : Z) (p : Pad) : Pad :=
  mkPad (pad_id p) (drill_x p) (pad_layers p ∖ {[id]}).

Definition addLayer (id : Z) (p : Pad) : Pad :=
  mkPad (pad_id p) (drill_x p) (pad_layers p ∪ {[id]}).

Definition zone_SetLayer (l : Z) (z : Zone) : Zone := mkZone (zone_id z) l.

Definition tr_SetLayer (l : Z) (t : Track) : Track :=
  mkTrack (tr_id t) (tr_class t) l (tr_drill t) (tr_width t) (tr_via_type t)
    (tr_top t) (tr_bottom t).

Definition SetDrill (d : Z) (t : Track) : Track :=
  mkTrack (tr_id t) (tr_class t) (tr_layer t) d (tr_width t) (tr_via_type t)
    (tr_top t) (tr_bottom t).

Definition SetWidth (w : Z) (t : Track) : Track :=
  mkTrack (tr_id t) (tr_class t) (tr_layer t) (tr_drill t) w (tr_via_type t)
    (tr_top t) (tr_bottom t).

Definition SetTopLayer (l : Z) (t : Track) : Track :=
  mkTrack (tr_id t) (tr_class t) (tr_layer t) (tr_drill t) (tr_width t) (tr_via_type t)
    l (tr_bottom t).

Definition SetBottomLayer (l : Z) (t : Track) : Track :=
  mkTrack (tr_id t) (tr_class t) (tr_layer t) (tr_drill t) (tr_width t) (tr_via_type t)
    (tr_top t) l.

(** [via_type = 'VIA' if GS.ki5() else 'PCB_VIA'] and the test on the
    class of a track. *)
Definition via_class (ki5 : bool) : string := if ki5 then "VIA" else "PCB_VIA".

Definition is_via (ki5 : bool) (t : Track) : bool := String.eqb (tr_class t) (via_class ki5).

(** The three lists a plot keeps to restore the board: the items moved
    to the work layer, the pads that lost the layer, and the vias with
    what they had. *)
Record CuUndo (V : Type) := mkCuUndo {
  moved : list nat;
  removed : list nat;
  vias : list V
}.
Arguments mkCuUndo {V} moved removed vias.
Arguments moved {V} c.
Arguments removed {V} c.
Arguments vias {V} c.

(** The pads of a footprint that lose the layer: [plot_pads] keeps the
    pads with a drill, [plot_vias] none. *)
Definition pad_hidden (keep_drilled : bool) (id : Z) (p : Pad) : bool :=
  (if keep_drilled then drill_x p =? 0 else true) && bool_decide (id ∈ pad_layers p).

Definition hide_pad (keep_drilled : bool) (id : Z) (p : Pad) : Pad :=
  if pad_hidden keep_drilled id p then removeLayer id p else p.

(** [for e in moved: e.SetLayer(id)] on a zone and on a track. *)
Definition relayer_zone (ids : list nat) (l : Z) (z : Zone) : Zone :=
  if bool_decide (zone_id z ∈ ids) then zone_SetLayer l z else z.

Definition relayer_track (ids : list nat) (l : Z) (t : Track) : Track :=
  if bool_decide (tr_id t ∈ ids) then tr_SetLayer l t else t.

(** [for pad in removed: ... layers.addLayer(id)] *)
Definition restore_pad (ids : list nat) (id : Z) (p : Pad) : Pad :=
  if bool_decide (pad_id p ∈ ids) then addLayer id p else p.

(** The items that go to the work layer, in the order of the loops: the
    graphics of the footprints, the drawings, the zones, and the tracks
    that are no vias. *)
Definition moved_ids (ki5 : bool) (id : Z) (b : Pcb) : list nat :=
  flat_map (fun m => ids_on id (fp_items m)) (pcb_modules b)
  ++ ids_on id (pcb_drawings b)
  ++ map zone_id (filter (fun z => zone_layer z = id) (pcb_zones b))
  ++ map tr_id (filter (fun t => is_via ki5 t = false /\ tr_layer t = id) (pcb_tracks b)).

Definition removed_ids (keep_drilled : bool) (id : Z) (b : Pcb) : list nat :=
  flat_map (fun m => map pad_id (filter (fun p => pad_hidden keep_drilled id p = true)
                                   (fp_pads m)))
    (pcb_modules b).

(** What the loops over the footprints, the drawings and the zones leave
    of the board, and a track that is no via. *)
Definition hide_module (keep_drilled : bool) (id tmp_layer : Z) (m : Fp) : Fp :=
  mkFp (map (clear_item id tmp_layer) (fp_items m))
       (map (hide_pad keep_drilled id) (fp_pads m)).

Definition hide_zone (id tmp_layer : Z) (z : Zone) : Zone :=
  if zone_layer z =? id then zone_SetLayer tmp_layer z else z.

Definition hide_plain_track (id tmp_layer : Z) (t : Track) : Track :=
  if tr_layer t =? id then tr_SetLayer tmp_layer t else t.

Definition restore_module (u_moved u_removed : list nat) (id : Z) (m : Fp) : Fp :=
  mkFp (map (relayer u_moved id) (fp_items m))
       (map (restore_pad u_removed id) (fp_pads m)).

(** The identities of the objects that have a layer, and of the pads. *)
Definition object_ids (b : Pcb) : list nat :=
  flat_map (fun m => map gi_id (fp_items m)) (pcb_modules b)
  ++ map gi_id (pcb_drawings b)
  ++ map zone_id (pcb_zones b)
  ++ map tr_id (pcb_tracks b).

Definition pad_ids (b : Pcb) : list nat :=
  flat_map (fun m => map pad_id (fp_pads m)) (pcb_modules b).

Section Plots.

(** [GS.ki5()], the globals, [GS.pcb_basename], the constants [F_Cu],
    [B_Cu] and the three types of via of pcbnew, and the method
    [IsOnLayer] of a via. *)
Variable ki5 : bool.
Variable gs : Globals.
Variable pcb_basename : string.
Variables F_Cu B_Cu : Z.
Variables VIATYPE_THROUGH VIATYPE_BLIND_BURIED VIATYPE_MICROVIA : Z.
Variable IsOnLayer : Track -> Z -> bool.

(** ** [plot_pads] *)

(** The loop over the tracks of [plot_pads]: a via loses drill and width. *)
Definition pads_hide_track (id tmp_layer : Z) (t : Track) : Track :=
  if is_via ki5 t then SetWidth 0 (SetDrill 0 t) else hide_plain_track id tmp_layer t.

Definition pads_via_records (b : Pcb) : list (nat * Z * Z) :=
  flat_map (fun t => if is_via ki5 t then [(tr_id t, tr_drill t, tr_width t)] else [])
    (pcb_tracks b).

(** [for (via, drill, width) in vias] as one via sees it. *)
Definition pads_restore_via (vs : list (nat * Z * Z)) (t : Track) : Track :=
  foldl (fun t '(via, drill, width) =>
           if Nat.eqb via (tr_id t) then SetWidth width (SetDrill drill t) else t)
        t vs.

(** The first half of [plot_pads]: all but the pads with a drill leaves
    the layer. *)
Definition plot_pads_hide (la : LayerOpt) (b : Pcb) : CuUndo (nat * Z * Z) * Pcb :=
  let id := _id la in
  let tmp_layer := pcb_GetLayerID b (work_layer gs) in
  (mkCuUndo (moved_ids ki5 id b) (removed_ids true id b) (pads_via_records b),
   mkPcb (map (hide_module true id tmp_layer) (pcb_modules b))
         (map (clear_item id tmp_layer) (pcb_drawings b))
         (map (hide_zone id tmp_layer) (pcb_zones b))
         (map (pads_hide_track id tmp_layer) (pcb_tracks b))
         (pcb_GetLayerID b)).

(** The second half, [# Restore everything]. *)
Definition plot_pads_restore (la : LayerOpt) (u : CuUndo (nat * Z * Z)) (b : Pcb) : Pcb :=
  let id := _id la in
  mkPcb (map (restore_module (moved u) (removed u) id) (pcb_modules b))
        (map (relayer (moved u) id) (pcb_drawings b))
        (map (relayer_zone (moved u) id) (pcb_zones b))
        (map (fun t => pads_restore_via (vias u) (relayer_track (moved u) id t)) (pcb_tracks b))
        (pcb_GetLayerID b).

(** [plot_pads]: the board, the list of files, and the board as the
    plotter reads it between the two halves. *)
Definition plot_pads (self : CuOptions) (la : LayerOpt) (filelist : list (string * string))
    (b : Pcb) : Pcb * list (string * string) * Pcb :=
  let '(u, shown) := plot_pads_hide la b in
  let suffix := suffix la +:+ "_pads" in
  (plot_pads_restore la u shown,
   filelist ++ [(pcb_basename +:+ "-" +:+ suffix +:+ ".svg", pad_color self)],
   shown).

(** ** [plot_vias] *)

Definition vias_hide_track (via_t id tmp_layer : Z) (t : Track) : Track :=
  if is_via ki5 t then
    if tr_via_type t =? via_t then
      if negb (IsOnLayer t id) then
        let w := tr_width t in
        let d := tr_drill t in
        SetBottomLayer B_Cu (SetTopLayer F_Cu (SetDrill 1 (SetWidth d t)))
      else t
    else SetWidth 0 t
  else hide_plain_track id tmp_layer t.

Definition vias_via_records (via_t id : Z) (b : Pcb) : list (nat * Z * Z * Z * Z) :=
  flat_map (fun t =>
              if is_via ki5 t then
                if tr_via_type t =? via_t then
                  if negb (IsOnLayer t id) then
                    [(tr_id t, tr_drill t, tr_width t, tr_top t, tr_bottom t)]
                  else []
                else [(tr_id t, tr_drill t, tr_width t, tr_top t, tr_bottom t)]
              else [])
    (pcb_tracks b).

Definition vias_restore_via (vs : list (nat * Z * Z * Z * Z)) (t : Track) : Track :=
  foldl (fun t '(via, drill, width, top, bottom) =>
           if Nat.eqb via (tr_id t) then
             SetBottomLayer bottom (SetTopLayer top (SetWidth width (SetDrill drill t)))
           else t)
        t vs.

Definition plot_vias_hide (la : LayerOpt) (via_t : Z) (b : Pcb)
    : CuUndo (nat * Z * Z * Z * Z) * Pcb :=
  let id := _id la in
  let tmp_layer := pcb_GetLayerID b (work_layer gs) in
  (mkCuUndo (moved_ids ki5 id b) (removed_ids false id b) (vias_via_records via_t id b),
   mkPcb (map (hide_module false id tmp_layer) (pcb_modules b))
         (map (clear_item id tmp_layer) (pcb_drawings b))
         (map (hide_zone id tmp_layer) (pcb_zones b))
         (map (vias_hide_track via_t id tmp_layer) (pcb_tracks b))
         (pcb_GetLayerID b)).

Definition plot_vias_restore (la : LayerOpt) (u : CuUndo (nat * Z * Z * Z * Z)) (b : Pcb)
    : Pcb :=
  let id := _id la in
  mkPcb (map (restore_module (moved u) (removed u) id) (pcb_modules b))
        (map (relayer (moved u) id) (pcb_drawings b))
        (map (relayer_zone (moved u) id) (pcb_zones b))
        (map (fun t => vias_restore_via (vias u) (relayer_track (moved u) id t)) (pcb_tracks b))
        (pcb_GetLayerID b).

Definition plot_vias (la : LayerOpt) (filelist : list (string * string))
    (via_t : Z) (via_c : string) (b : Pcb) : Pcb * list (string * string) * Pcb :=
  let '(u, shown) := plot_vias_hide la via_t b in
  let suffix := suffix la +:+ "_vias_" +:+ pretty via_t in
  (plot_vias_restore la u shown,
   filelist ++ [(pcb_basename +:+ "-" +:+ suffix +:+ ".svg", via_c)],
   shown).

(** ** [plot_extra_cu] *)

(** The board, the list of files, and the boards the plotter read, in
    the order of the plots. *)
Definition plot_extra_cu (self : CuOptions) (id : Z) (la : LayerOpt)
    (filelist : list (string * string)) (b : Pcb)
    : Pcb * list (string * string) * list Pcb :=
  if (id >=? F_Cu) && (id <=? B_Cu) then
    let '(b, filelist, shown) :=
      if colored_pads self then
        let '(b, filelist, s) := plot_pads self la filelist b in (b, filelist, [s])
      else (b, filelist, []) in
    if colored_vias self then
      let '(b, filelist, s1) := plot_vias la filelist VIATYPE_THROUGH (via_color self) b in
      let '(b, filelist, s2) :=
        plot_vias la filelist VIATYPE_BLIND_BURIED (blind_via_color self) b in
      let '(b, filelist, s3) :=
        plot_vias la filelist VIATYPE_MICROVIA (micro_via_color self) b in
      (b, filelist, shown ++ [s1; s2; s3])
    else (b, filelist, shown)
  else (b, filelist, []).

End Plots.

End PlotCu.

(** ** The board after a plot of pads or vias *)

Lemma elem_flat_map {A B} (f : A -> list B) (l : list A) (y : B) :
  y ∈ flat_map f l <-> exists x, x ∈ l /\ y ∈ f x.
Proof.
  rewrite list_elem_of_In, in_flat_map. split; intros (x & Hx & Hy); exists x.
  - split; apply list_elem_of_In; assumption.
  - split; apply list_elem_of_In; assumption.
Qed.

Lemma elem_map_filter {A B} (f : A -> B) (P : A -> Prop) `{!forall a, Decision (P a)}
    (l : list A) (x : B) :
  x ∈ map f (filter P l) <-> exists a, a ∈ l /\ P a /\ f a = x.
Proof.
  change (map f ?s) with (f <$> s). rewrite list_elem_of_fmap. split.
  - intros (a & -> & Ha). apply list_elem_of_filter in Ha as [Hp Ha]. eauto.
  - intros (a & Ha & Hp & <-). exists a. split; [reflexivity|].
    apply list_elem_of_filter. split; assumption.
Qed.

Lemma elem_map {A B} (f : A -> B) (l : list A) (y : B) :
  y ∈ map f l <-> exists a, a ∈ l /\ f a = y.
Proof.
  change (map f l) with (f <$> l). rewrite list_elem_of_fmap. split.
  - intros (a & -> & Ha). eauto.
  - intros (a & Ha & <-). eauto.
Qed.

Lemma or_iff2 (A A' B B' : Prop) : (A <-> A') -> (B <-> B') -> (A \/ B <-> A' \/ B').
Proof. tauto. Qed.

(** An object that has a layer, as the loops see it: its identity and,
    unless it is a via, its layer. *)
Definition key_item (g : GItem) : nat * option Z := (gi_id g, Some (gi_layer g)).

Definition key_zone (z : PlotCu.Zone) : nat * option Z :=
  (PlotCu.zone_id z, Some (PlotCu.zone_layer z)).

Definition key_track (ki5 : bool) (t : PlotCu.Track) : nat * option Z :=
  (PlotCu.tr_id t, if PlotCu.is_via ki5 t then None else Some (PlotCu.tr_layer t)).

Definition keys (ki5 : bool) (b : PlotCu.Pcb) : list (nat * option Z) :=
  flat_map (fun m => map key_item (PlotCu.fp_items m)) (PlotCu.pcb_modules b)
  ++ map key_item (PlotCu.pcb_drawings b)
  ++ map key_zone (PlotCu.pcb_zones b)
  ++ map (key_track ki5) (PlotCu.pcb_tracks b).

Lemma keys_ids ki5 b : map fst (keys ki5 b) = PlotCu.object_ids b.
Proof.
  unfold keys, PlotCu.object_ids. rewrite !map_app, !map_map. f_equal.
  induction (PlotCu.pcb_modules b) as [|m ms IH]; [reflexivity|].
  cbn [flat_map]. rewrite map_app, map_map, IH. reflexivity.
Qed.

Lemma elem_moved ki5 id b (x : nat) :
  x ∈ PlotCu.moved_ids ki5 id b <-> (x, Some id) ∈ keys ki5 b.
Proof.
  unfold PlotCu.moved_ids, keys, ids_on. rewrite !elem_of_app, !elem_flat_map.
  assert (Hi : forall items, x ∈ map gi_id (filter (fun gi => gi_layer gi = id) items)
                             <-> (x, Some id) ∈ map key_item items).
  { intros items. rewrite elem_map_filter, elem_map. unfold key_item.
    split; intros (g & Hg & H); exists g; (split; [exact Hg|]).
    - destruct H as [<- <-]. reflexivity.
    - injection H as <- <-. split; reflexivity. }
  rewrite Hi.
  apply or_iff2; [|apply or_iff2; [reflexivity|apply or_iff2]].
  - split; intros (m & Hm & H); exists m; (split; [exact Hm|]); apply Hi, H.
  - rewrite elem_map_filter, elem_map. unfold key_zone. split; intros (z & Hz & H); exists z; (split; [exact Hz|]).
    + destruct H as [<- <-]. reflexivity.
    + injection H as <- <-. split; reflexivity.
  - rewrite elem_map_filter, elem_map. unfold key_track. split; intros (t & Ht & H); exists t; (split; [exact Ht|]).
    + destruct H as [[Hv Hl] Hx]. rewrite Hv, Hl, Hx. reflexivity.
    + destruct (PlotCu.is_via ki5 t); [discriminate|].
      injection H as <- <-. repeat split.
Qed.

Lemma moved_iff ki5 id b (i : nat) (o : option Z) :
  NoDup (PlotCu.object_ids b) -> (i, o) ∈ keys ki5 b ->
  (i ∈ PlotCu.moved_ids ki5 id b <-> o = Some id).
Proof.
  intros Hnd Hk. rewrite <- (keys_ids ki5) in Hnd. rewrite elem_moved. split.
  - intros H. pose proof (NoDup_map_eq fst _ _ _ Hnd Hk H eq_refl) as E. congruence.
  - intros ->. exact Hk.
Qed.

Lemma key_in_module ki5 b m g :
  m ∈ PlotCu.pcb_modules b -> g ∈ PlotCu.fp_items m -> key_item g ∈ keys ki5 b.
Proof.
  intros Hm Hg. unfold keys. apply elem_of_app. left. apply elem_flat_map.
  exists m. split; [exact Hm|]. apply elem_map. eauto.
Qed.

Lemma key_in_drawings ki5 b g : g ∈ PlotCu.pcb_drawings b -> key_item g ∈ keys ki5 b.
Proof.
  intros Hg. unfold keys. apply elem_of_app. right. apply elem_of_app. left.
  apply elem_map. eauto.
Qed.

Lemma key_in_zones ki5 b z : z ∈ PlotCu.pcb_zones b -> key_zone z ∈ keys ki5 b.
Proof.
  intros Hz. unfold keys. apply elem_of_app. right. apply elem_of_app. right.
  apply elem_of_app. left. apply elem_map. eauto.
Qed.

Lemma key_in_tracks ki5 b t : t ∈ PlotCu.pcb_tracks b -> key_track ki5 t ∈ keys ki5 b.
Proof.
  intros Ht. unfold keys. apply elem_of_app. right. apply elem_of_app. right.
  apply elem_of_app. right. apply elem_map. eauto.
Qed.

Lemma item_back ki5 id tmp b (g : GItem) :
  NoDup (PlotCu.object_ids b) -> key_item g ∈ keys ki5 b ->
  relayer (PlotCu.moved_ids ki5 id b) id (clear_item id tmp g) = g.
Proof.
  intros Hnd Hk. pose proof (moved_iff ki5 id b _ _ Hnd Hk) as M.
  unfold relayer. rewrite clear_item_id. unfold clear_item.
  destruct (Z.eqb_spec (gi_layer g) id) as [E|E].
  - rewrite bool_decide_eq_true_2 by (apply M; congruence).
    rewrite SetLayer_twice, <- E. destruct g; reflexivity.
  - rewrite bool_decide_eq_false_2; [reflexivity|]. intros H. apply M in H. congruence.
Qed.

Lemma zone_back ki5 id tmp b (z : PlotCu.Zone) :
  NoDup (PlotCu.object_ids b) -> z ∈ PlotCu.pcb_zones b ->
  PlotCu.relayer_zone (PlotCu.moved_ids ki5 id b) id (PlotCu.hide_zone id tmp z) = z.
Proof.
  intros Hnd Hz. pose proof (moved_iff ki5 id b _ _ Hnd (key_in_zones ki5 b z Hz)) as M.
  unfold PlotCu.relayer_zone, PlotCu.hide_zone.
  destruct (Z.eqb_spec (PlotCu.zone_layer z) id) as [E|E]; cbn [PlotCu.zone_id PlotCu.zone_SetLayer].
  - rewrite bool_decide_eq_true_2 by (apply M; congruence).
    rewrite <- E. destruct z; reflexivity.
  - rewrite bool_decide_eq_false_2; [reflexivity|]. intros H. apply M in H. congruence.
Qed.

Lemma plain_track_back ki5 id tmp b (t : PlotCu.Track) :
  NoDup (PlotCu.object_ids b) -> t ∈ PlotCu.pcb_tracks b -> PlotCu.is_via ki5 t = false ->
  PlotCu.relayer_track (PlotCu.moved_ids ki5 id b) id (PlotCu.hide_plain_track id tmp t) = t.
Proof.
  intros Hnd Ht Hv.
  pose proof (moved_iff ki5 id b _ _ Hnd (key_in_tracks ki5 b t Ht)) as M. rewrite Hv in M.
  unfold PlotCu.relayer_track, PlotCu.hide_plain_track.
  destruct (Z.eqb_spec (PlotCu.tr_layer t) id) as [E|E]; cbn [PlotCu.tr_id PlotCu.tr_SetLayer].
  - rewrite bool_decide_eq_true_2 by (apply M; congruence).
    rewrite <- E. destruct t; reflexivity.
  - rewrite bool_decide_eq_false_2; [reflexivity|]. intros H. apply M in H. congruence.
Qed.

Lemma via_not_moved ki5 id b (t t' : PlotCu.Track) :
  NoDup (PlotCu.object_ids b) -> t ∈ PlotCu.pcb_tracks b -> PlotCu.is_via ki5 t = true ->
  PlotCu.tr_id t' = PlotCu.tr_id t ->
  PlotCu.relayer_track (PlotCu.moved_ids ki5 id b) id t' = t'.
Proof.
  intros Hnd Ht Hv Hid.
  pose proof (moved_iff ki5 id b _ _ Hnd (key_in_tracks ki5 b t Ht)) as M. rewrite Hv in M.
  unfold PlotCu.relayer_track. rewrite Hid.
  rewrite bool_decide_eq_false_2; [reflexivity|]. intros H. apply M in H. discriminate.
Qed.

Lemma pad_ids_map b :
  map PlotCu.pad_id (flat_map PlotCu.fp_pads (PlotCu.pcb_modules b)) = PlotCu.pad_ids b.
Proof.
  unfold PlotCu.pad_ids. induction (PlotCu.pcb_modules b) as [|a l IH]; [reflexivity|].
  cbn [flat_map]. rewrite map_app, IH. reflexivity.
Qed.

Lemma pad_back keep id b (m : PlotCu.Fp) (p : PlotCu.Pad) :
  NoDup (PlotCu.pad_ids b) -> m ∈ PlotCu.pcb_modules b -> p ∈ PlotCu.fp_pads m ->
  PlotCu.restore_pad (PlotCu.removed_ids keep id b) id (PlotCu.hide_pad keep id p) = p.
Proof.
  intros Hnd Hm Hp.
  assert (M : PlotCu.pad_id p ∈ PlotCu.removed_ids keep id b
              <-> PlotCu.pad_hidden keep id p = true).
  { unfold PlotCu.removed_ids. rewrite elem_flat_map. split.
    - intros (m' & Hm' & H). apply elem_map_filter in H as (q & Hq & Hh & Hid).
      assert (Hall : forall m0 q0, m0 ∈ PlotCu.pcb_modules b -> q0 ∈ PlotCu.fp_pads m0 ->
                       q0 ∈ flat_map PlotCu.fp_pads (PlotCu.pcb_modules b)).
      { intros m0 q0 H0 H1. apply elem_flat_map. eauto. }
      rewrite <- pad_ids_map in Hnd.
      rewrite <- (NoDup_map_eq PlotCu.pad_id _ q p Hnd (Hall _ _ Hm' Hq) (Hall _ _ Hm Hp) Hid).
      exact Hh.
    - intros Hh. exists m. split; [exact Hm|]. apply elem_map_filter. eauto. }
  unfold PlotCu.restore_pad, PlotCu.hide_pad.
  destruct (PlotCu.pad_hidden keep id p) eqn:Hh; cbn [PlotCu.pad_id PlotCu.removeLayer].
  - rewrite bool_decide_eq_true_2 by (apply M; reflexivity).
    unfold PlotCu.pad_hidden in Hh. apply andb_true_iff in Hh as [_ Hin].
    apply bool_decide_eq_true_1 in Hin. unfold PlotCu.addLayer. cbn.
    replace (PlotCu.pad_layers p ∖ {[id]} ∪ {[id]}) with (PlotCu.pad_layers p).
    + destruct p; reflexivity.
    + apply set_eq. intros x. rewrite elem_of_union, elem_of_difference, elem_of_singleton.
      destruct (decide (x = id)) as [->|Hx]; tauto.
  - rewrite bool_decide_eq_false_2; [reflexivity|]. intros H. apply M in H. discriminate.
Qed.

(** The loop that gives a via its values again finds the record of the
    via, and only that one. *)
Lemma foldl_restore {R} (step : PlotCu.Track -> R -> PlotCu.Track) (recs : list R)
    (a b : PlotCu.Track) :
  (forall r, r ∈ recs -> step b r = b) ->
  (forall r, r ∈ recs -> step a r = a \/ step a r = b) ->
  (a = b \/ exists r, r ∈ recs /\ step a r = b) ->
  foldl step a recs = b.
Proof.
  revert a. induction recs as [|r recs IH]; intros a Hb Ha Hex.
  - destruct Hex as [E|(r & Hr & _)]; [exact E|inversion Hr].
  - cbn [foldl]. destruct (Ha r ltac:(left)) as [E|E]; rewrite E.
    + apply IH.
      * intros r' Hr'. apply Hb. right. exact Hr'.
      * intros r' Hr'. apply Ha. right. exact Hr'.
      * destruct Hex as [Hab|(r' & Hr' & Hs)]; [left; exact Hab|].
        apply elem_of_cons in Hr' as [->|Hr']; [left; congruence|right; eauto].
    + apply IH.
      * intros r' Hr'. apply Hb. right. exact Hr'.
      * intros r' Hr'. left. apply Hb. right. exact Hr'.
      * left. reflexivity.
Qed.

Lemma tracks_nodup b : NoDup (PlotCu.object_ids b) -> NoDup (map PlotCu.tr_id (PlotCu.pcb_tracks b)).
Proof.
  unfold PlotCu.object_ids. intros H.
  apply NoDup_app in H as (_ & _ & H). apply NoDup_app in H as (_ & _ & H).
  apply NoDup_app in H as (_ & _ & H). exact H.
Qed.

Lemma hide_plain_track_id id tmp t :
  PlotCu.tr_id (PlotCu.hide_plain_track id tmp t) = PlotCu.tr_id t.
Proof. unfold PlotCu.hide_plain_track. destruct (_ =? _); reflexivity. Qed.

Lemma pads_track_back ki5 id tmp b (t : PlotCu.Track) :
  NoDup (PlotCu.object_ids b) -> t ∈ PlotCu.pcb_tracks b ->
  PlotCu.pads_restore_via (PlotCu.pads_via_records ki5 b)
    (PlotCu.relayer_track (PlotCu.moved_ids ki5 id b) id (PlotCu.pads_hide_track ki5 id tmp t))
  = t.
Proof.
  intros Hnd Ht. pose proof (tracks_nodup b Hnd) as Hnt.
  assert (Hrec : forall r, r ∈ PlotCu.pads_via_records ki5 b ->
            exists t', t' ∈ PlotCu.pcb_tracks b /\ PlotCu.is_via ki5 t' = true
                       /\ r = (PlotCu.tr_id t', PlotCu.tr_drill t', PlotCu.tr_width t')).
  { intros r Hr. apply elem_flat_map in Hr as (t' & Ht' & Hr).
    exists t'. destruct (PlotCu.is_via ki5 t'); [|inversion Hr].
    apply list_elem_of_singleton in Hr. eauto. }
  assert (Hown : forall r, r ∈ PlotCu.pads_via_records ki5 b ->
            Nat.eqb (fst (fst r)) (PlotCu.tr_id t) = true ->
            PlotCu.is_via ki5 t = true
            /\ r = (PlotCu.tr_id t, PlotCu.tr_drill t, PlotCu.tr_width t)).
  { intros r Hr E. destruct (Hrec r Hr) as (t' & Ht' & Hv & ->). cbn in E.
    apply Nat.eqb_eq in E.
    rewrite (NoDup_map_eq PlotCu.tr_id _ t' t Hnt Ht' Ht E) in *. split; [exact Hv|reflexivity]. }
  assert (Hb : forall r, r ∈ PlotCu.pads_via_records ki5 b ->
            (let '(via, drill, width) := r in
             if Nat.eqb via (PlotCu.tr_id t)
             then PlotCu.SetWidth width (PlotCu.SetDrill drill t) else t) = t).
  { intros r Hr. pose proof (Hown r Hr) as Ho. destruct r as [[via d] w]. cbn in Ho.
    destruct (Nat.eqb via (PlotCu.tr_id t)); [|reflexivity].
    destruct (Ho eq_refl) as [_ E]. injection E as _ -> ->. destruct t; reflexivity. }
  unfold PlotCu.pads_restore_via, PlotCu.pads_hide_track.
  destruct (PlotCu.is_via ki5 t) eqn:Hv.
  - rewrite (via_not_moved ki5 id b t (PlotCu.SetWidth 0 (PlotCu.SetDrill 0 t)) Hnd Ht Hv eq_refl).
    apply foldl_restore.
    + exact Hb.
    + intros r Hr. pose proof (Hown r Hr) as Ho. destruct r as [[via d] w]. cbn in Ho |- *.
      destruct (Nat.eqb via (PlotCu.tr_id t)); [|left; reflexivity].
      destruct (Ho eq_refl) as [_ E]. injection E as _ -> ->. right. destruct t; reflexivity.
    + right. exists (PlotCu.tr_id t, PlotCu.tr_drill t, PlotCu.tr_width t). split.
      * apply elem_flat_map. exists t. split; [exact Ht|]. rewrite Hv. left.
      * cbn. rewrite Nat.eqb_refl. destruct t; reflexivity.
  - rewrite (plain_track_back ki5 id tmp b t Hnd Ht Hv).
    apply foldl_restore; [exact Hb| |left; reflexivity].
    intros r Hr. left. exact (Hb r Hr).
Qed.

Lemma modules_back ki5 keep id tmp b :
  NoDup (PlotCu.object_ids b) -> NoDup (PlotCu.pad_ids b) ->
  map (PlotCu.restore_module (PlotCu.moved_ids ki5 id b) (PlotCu.removed_ids keep id b) id)
    (map (PlotCu.hide_module keep id tmp) (PlotCu.pcb_modules b))
  = PlotCu.pcb_modules b.
Proof.
  intros Hnd Hnp. rewrite map_map. apply map_id_on. intros m Hm.
  unfold PlotCu.restore_module, PlotCu.hide_module. cbn [PlotCu.fp_items PlotCu.fp_pads].
  rewrite !map_map, (map_id_on _ (PlotCu.fp_items m)), (map_id_on _ (PlotCu.fp_pads m)).
  - destruct m; reflexivity.
  - intros p Hp. exact (pad_back keep id b m p Hnp Hm Hp).
  - intros g Hg. exact (item_back ki5 id tmp b g Hnd (key_in_module ki5 b m g Hm Hg)).
Qed.

Lemma drawings_back ki5 id tmp b :
  NoDup (PlotCu.object_ids b) ->
  map (relayer (PlotCu.moved_ids ki5 id b) id) (map (clear_item id tmp) (PlotCu.pcb_drawings b))
  = PlotCu.pcb_drawings b.
Proof.
  intros Hnd. rewrite map_map. apply map_id_on. intros g Hg.
  exact (item_back ki5 id tmp b g Hnd (key_in_drawings ki5 b g Hg)).
Qed.

Lemma zones_back ki5 id tmp b :
  NoDup (PlotCu.object_ids b) ->
  map (PlotCu.relayer_zone (PlotCu.moved_ids ki5 id b) id)
    (map (PlotCu.hide_zone id tmp) (PlotCu.pcb_zones b))
  = PlotCu.pcb_zones b.
Proof.
  intros Hnd. rewrite map_map. apply map_id_on. intros z Hz.
  exact (zone_back ki5 id tmp b z Hnd Hz).
Qed.

Lemma plot_pads_back ki5 gs la b :
  NoDup (PlotCu.object_ids b) -> NoDup (PlotCu.pad_ids b) ->
  PlotCu.plot_pads_restore la (fst (PlotCu.plot_pads_hide ki5 gs la b))
    (snd (PlotCu.plot_pads_hide ki5 gs la b))
  = b.
Proof.
  intros Hnd Hnp. unfold PlotCu.plot_pads_restore, PlotCu.plot_pads_hide.
  cbn [fst snd PlotCu.moved PlotCu.removed PlotCu.vias PlotCu.pcb_modules PlotCu.pcb_drawings
         PlotCu.pcb_zones PlotCu.pcb_tracks PlotCu.pcb_GetLayerID].
  rewrite (modules_back ki5 true _ _ b Hnd Hnp), (drawings_back ki5 _ _ b Hnd),
    (zones_back ki5 _ _ b Hnd), map_map, (map_id_on _ (PlotCu.pcb_tracks b)).
  - destruct b; reflexivity.
  - intros t Ht. exact (pads_track_back ki5 _ _ b t Hnd Ht).
Qed.

Lemma vias_track_back ki5 F_Cu B_Cu IsOnLayer via_t id tmp b (t : PlotCu.Track) :
  NoDup (PlotCu.object_ids b) -> t ∈ PlotCu.pcb_tracks b ->
  PlotCu.vias_restore_via (PlotCu.vias_via_records ki5 IsOnLayer via_t id b)
    (PlotCu.relayer_track (PlotCu.moved_ids ki5 id b) id
       (PlotCu.vias_hide_track ki5 F_Cu B_Cu IsOnLayer via_t id tmp t))
  = t.
Proof.
  intros Hnd Ht. pose proof (tracks_nodup b Hnd) as Hnt.
  set (recs := PlotCu.vias_via_records ki5 IsOnLayer via_t id b).
  assert (Hrec : forall r, r ∈ recs ->
            exists t', t' ∈ PlotCu.pcb_tracks b /\ PlotCu.is_via ki5 t' = true
                       /\ r = (PlotCu.tr_id t', PlotCu.tr_drill t', PlotCu.tr_width t',
                               PlotCu.tr_top t', PlotCu.tr_bottom t')).
  { intros r Hr. apply elem_flat_map in Hr as (t' & Ht' & Hr).
    exists t'. destruct (PlotCu.is_via ki5 t'); [|inversion Hr].
    split; [exact Ht'|]. split; [reflexivity|].
    destruct (PlotCu.tr_via_type t' =? via_t).
    - destruct (negb (IsOnLayer t' id)); [|inversion Hr].
      apply list_elem_of_singleton in Hr. exact Hr.
    - apply list_elem_of_singleton in Hr. exact Hr. }
  assert (Hown : forall r, r ∈ recs ->
            Nat.eqb (fst (fst (fst (fst r)))) (PlotCu.tr_id t) = true ->
            r = (PlotCu.tr_id t, PlotCu.tr_drill t, PlotCu.tr_width t,
                 PlotCu.tr_top t, PlotCu.tr_bottom t)).
  { intros r Hr E. destruct (Hrec r Hr) as (t' & Ht' & Hv & ->). cbn in E.
    apply Nat.eqb_eq in E.
    rewrite (NoDup_map_eq PlotCu.tr_id _ t' t Hnt Ht' Ht E). reflexivity. }
  assert (Hstep : forall (a : PlotCu.Track) r,
            PlotCu.tr_id a = PlotCu.tr_id t -> PlotCu.tr_class a = PlotCu.tr_class t ->
            PlotCu.tr_layer a = PlotCu.tr_layer t ->
            PlotCu.tr_via_type a = PlotCu.tr_via_type t ->
            r ∈ recs ->
            let s := (let '(via, drill, width, top, bottom) := r in
                      if Nat.eqb via (PlotCu.tr_id a)
                      then PlotCu.SetBottomLayer bottom
                             (PlotCu.SetTopLayer top
                                (PlotCu.SetWidth width (PlotCu.SetDrill drill a)))
                      else a) in
            s = a \/ s = t).
  { intros a r Hi Hc Hl Hy Hr. pose proof (Hown r Hr) as Ho.
    destruct r as [[[[via d] w] top] bottom]. cbn in Ho. cbn zeta. rewrite Hi.
    destruct (Nat.eqb via (PlotCu.tr_id t)); [|left; reflexivity].
    specialize (Ho eq_refl). injection Ho as _ -> -> -> ->. right.
    destruct a, t; cbn in *; subst; reflexivity. }
  assert (Hb : forall r, r ∈ recs ->
            (let '(via, drill, width, top, bottom) := r in
             if Nat.eqb via (PlotCu.tr_id t)
             then PlotCu.SetBottomLayer bottom
                    (PlotCu.SetTopLayer top (PlotCu.SetWidth width (PlotCu.SetDrill drill t)))
             else t) = t).
  { intros r Hr. destruct (Hstep t r eq_refl eq_refl eq_refl eq_refl Hr) as [E|E]; exact E. }
  assert (Hme : PlotCu.is_via ki5 t = true ->
            (PlotCu.tr_via_type t =? via_t) && negb (negb (IsOnLayer t id)) = false ->
            (PlotCu.tr_id t, PlotCu.tr_drill t, PlotCu.tr_width t,
             PlotCu.tr_top t, PlotCu.tr_bottom t) ∈ recs).
  { intros Hv Hc. apply elem_flat_map. exists t. split; [exact Ht|]. rewrite Hv.
    destruct (PlotCu.tr_via_type t =? via_t); [|left].
    destruct (negb (IsOnLayer t id)); [left|discriminate]. }
  unfold PlotCu.vias_restore_via, PlotCu.vias_hide_track.
  destruct (PlotCu.is_via ki5 t) eqn:Hv.
  - destruct (PlotCu.tr_via_type t =? via_t) eqn:Hty.
    + destruct (negb (IsOnLayer t id)) eqn:Hon.
      * cbn zeta.
        set (a := PlotCu.SetBottomLayer B_Cu _).
        rewrite (via_not_moved ki5 id b t a Hnd Ht Hv eq_refl).
        apply foldl_restore.
        -- exact Hb.
        -- intros r Hr. exact (Hstep a r eq_refl eq_refl eq_refl eq_refl Hr).
        -- right. eexists. split; [exact (Hme eq_refl eq_refl)|].
           cbn. rewrite Nat.eqb_refl. destruct t; reflexivity.
      * rewrite (via_not_moved ki5 id b t t Hnd Ht Hv eq_refl).
        apply foldl_restore; [exact Hb| |left; reflexivity].
        intros r Hr. left. exact (Hb r Hr).
    + set (a := PlotCu.SetWidth 0 t).
      rewrite (via_not_moved ki5 id b t a Hnd Ht Hv eq_refl).
      apply foldl_restore.
      * exact Hb.
      * intros r Hr. exact (Hstep a r eq_refl eq_refl eq_refl eq_refl Hr).
      * right. eexists. split; [exact (Hme eq_refl eq_refl)|].
        cbn. rewrite Nat.eqb_refl. destruct t; reflexivity.
  - rewrite (plain_track_back ki5 id tmp b t Hnd Ht Hv).
    apply foldl_restore; [exact Hb| |left; reflexivity].
    intros r Hr. left. exact (Hb r Hr).
Qed.

Lemma plot_vias_back ki5 gs F_Cu B_Cu IsOnLayer la via_t b :
  NoDup (PlotCu.object_ids b) -> NoDup (PlotCu.pad_ids b) ->
  PlotCu.plot_vias_restore la
    (fst (PlotCu.plot_vias_hide ki5 gs F_Cu B_Cu IsOnLayer la via_t b))
    (snd (PlotCu.plot_vias_hide ki5 gs F_Cu B_Cu IsOnLayer la via_t b))
  = b.
Proof.
  intros Hnd Hnp. unfold PlotCu.plot_vias_restore, PlotCu.plot_vias_hide.
  cbn [fst snd PlotCu.moved PlotCu.removed PlotCu.vias PlotCu.pcb_modules PlotCu.pcb_drawings
         PlotCu.pcb_zones PlotCu.pcb_tracks PlotCu.pcb_GetLayerID].
  rewrite (modules_back ki5 false _ _ b Hnd Hnp), (drawings_back ki5 _ _ b Hnd),
    (zones_back ki5 _ _ b Hnd), map_map, (map_id_on _ (PlotCu.pcb_tracks b)).
  - destruct b; reflexivity.
  - intros t Ht. exact (vias_track_back ki5 F_Cu B_Cu IsOnLayer via_t _ _ b t Hnd Ht).
Qed.

Lemma Forall_map_all {A B} (P : B -> Prop) (f : A -> B) (l : list A) :
  (forall x, x ∈ l -> P (f x)) -> Forall P (map f l).
Proof.
  intros H. apply Forall_forall. intros y Hy. apply elem_map in Hy as (x & Hx & <-).
  apply H, Hx.
Qed.

Lemma Forall2_map_self {A B} (R : A -> B -> Prop) (f : A -> B) (l : list A) :
  (forall x, x ∈ l -> R x (f x)) -> Forall2 R l (map f l).
Proof.
  induction l as [|a l IH]; intros H; [constructor|].
  cbn [map]. constructor; [apply H; left|]. apply IH. intros x Hx. apply H. right. exact Hx.
Qed.

Lemma clear_item_off id tmp g : tmp <> id -> gi_layer (clear_item id tmp g) <> id.
Proof.
  intros Hne. unfold clear_item. destruct (Z.eqb_spec (gi_layer g) id) as [E|E];
    [exact Hne|exact E].
Qed.

Lemma hide_zone_off id tmp z : tmp <> id -> PlotCu.zone_layer (PlotCu.hide_zone id tmp z) <> id.
Proof.
  intros Hne. unfold PlotCu.hide_zone. destruct (Z.eqb_spec (PlotCu.zone_layer z) id) as [E|E];
    [exact Hne|exact E].
Qed.

Lemma hide_plain_track_off id tmp t :
  tmp <> id -> PlotCu.tr_layer (PlotCu.hide_plain_track id tmp t) <> id.
Proof.
  intros Hne. unfold PlotCu.hide_plain_track.
  destruct (Z.eqb_spec (PlotCu.tr_layer t) id) as [E|E]; [exact Hne|exact E].
Qed.

Lemma hide_plain_track_class id tmp t :
  PlotCu.tr_class (PlotCu.hide_plain_track id tmp t) = PlotCu.tr_class t.
Proof. unfold PlotCu.hide_plain_track. destruct (_ =? _); reflexivity. Qed.

Lemma hide_pad_off keep id p :
  id ∈ PlotCu.pad_layers (PlotCu.hide_pad keep id p) ->
  keep = true /\ PlotCu.drill_x p <> 0 /\ PlotCu.hide_pad keep id p = p.
Proof.
  unfold PlotCu.hide_pad, PlotCu.pad_hidden.
  destruct keep; cbn [andb].
  - destruct (Z.eqb_spec (PlotCu.drill_x p) 0) as [E|E]; cbn [andb].
    + destruct (bool_decide_reflect (id ∈ PlotCu.pad_layers p)) as [Hin|Hin].
      * cbn. intros H. apply elem_of_difference in H as [_ H]. exfalso. apply H.
        apply elem_of_singleton. reflexivity.
      * intros H. contradiction.
    + intros _. repeat split. exact E.
  - destruct (bool_decide_reflect (id ∈ PlotCu.pad_layers p)) as [Hin|Hin].
    + cbn. intros H. apply elem_of_difference in H as [_ H]. exfalso. apply H.
      apply elem_of_singleton. reflexivity.
    + intros H. contradiction.
Qed.

(** X21.  [plot_pads] leaves the board as it found it: every graphic,
    drawing, zone and track is on its layer again, every pad has its layer
    set, every via its drill and width; and the list of files has one more
    entry, the file of the pads with the colour of the pads.  The objects
    of the board are distinct. *)
Theorem plot_pads_restores_board ki5 gs (pcb_basename : string) self la
    (filelist : list (string * string)) (b : PlotCu.Pcb) :
  NoDup (PlotCu.object_ids b) -> NoDup (PlotCu.pad_ids b) ->
  PlotCu.plot_pads ki5 gs pcb_basename self la filelist b
  = (b,
     filelist ++ [(pcb_basename +:+ "-" +:+ (PlotCu.suffix la +:+ "_pads") +:+ ".svg",
                   PlotCu.pad_color self)],
     snd (PlotCu.plot_pads_hide ki5 gs la b)).
Proof.
  intros Hnd Hnp. pose proof (plot_pads_back ki5 gs la b Hnd Hnp) as B.
  unfold PlotCu.plot_pads.
  destruct (PlotCu.plot_pads_hide ki5 gs la b) as [u shown]. cbn [fst snd] in *.
  rewrite B. reflexivity.
Qed.

(** X22.  The board that [plot_pads] plots has on the layer nothing but
    pads with a drill: no graphic of a footprint, no drawing, no zone and
    no track is on it, a pad that has the layer has a drill, and every via
    has drill and width zero.  The work layer is another layer. *)
Theorem plot_pads_shows_drilled_pads ki5 gs la (b : PlotCu.Pcb) :
  PlotCu.pcb_GetLayerID b (work_layer gs) <> PlotCu._id la ->
  let id := PlotCu._id la in
  let shown := snd (PlotCu.plot_pads_hide ki5 gs la b) in
  Forall (fun m => Forall (fun g => gi_layer g <> id) (PlotCu.fp_items m)
                   /\ Forall (fun p => id ∈ PlotCu.pad_layers p -> PlotCu.drill_x p <> 0)
                        (PlotCu.fp_pads m))
    (PlotCu.pcb_modules shown)
  /\ Forall (fun g => gi_layer g <> id) (PlotCu.pcb_drawings shown)
  /\ Forall (fun z => PlotCu.zone_layer z <> id) (PlotCu.pcb_zones shown)
  /\ Forall (fun t => if PlotCu.is_via ki5 t
                      then PlotCu.tr_drill t = 0 /\ PlotCu.tr_width t = 0
                      else PlotCu.tr_layer t <> id)
       (PlotCu.pcb_tracks shown).
Proof.
  intros Hne id shown. subst shown. unfold PlotCu.plot_pads_hide.
  cbn [snd PlotCu.pcb_modules PlotCu.pcb_drawings PlotCu.pcb_zones PlotCu.pcb_tracks].
  fold id. set (tmp := PlotCu.pcb_GetLayerID b (work_layer gs)) in *.
  split; [|split; [|split]].
  - apply Forall_map_all. intros m _. cbn [PlotCu.hide_module PlotCu.fp_items PlotCu.fp_pads].
    split.
    + apply Forall_map_all. intros g _. apply clear_item_off, Hne.
    + apply Forall_map_all. intros p _ Hin.
      destruct (hide_pad_off true id p Hin) as (_ & Hd & ->). exact Hd.
  - apply Forall_map_all. intros g _. apply clear_item_off, Hne.
  - apply Forall_map_all. intros z _. apply hide_zone_off, Hne.
  - apply Forall_map_all. intros t _. unfold PlotCu.pads_hide_track.
    destruct (PlotCu.is_via ki5 t) eqn:Hv.
    + unfold PlotCu.is_via in *. cbn. rewrite Hv. split; reflexivity.
    + unfold PlotCu.is_via in *. rewrite hide_plain_track_class, Hv.
      apply hide_plain_track_off, Hne.
Qed.

(** X23.  [plot_vias] leaves the board as it found it, whatever the type
    of via it plots: layers, layer sets of the pads, and drill, width, top
    and bottom layer of every via are as before; and the list of files has
    one more entry, the file of the vias of the type with their colour. *)
Theorem plot_vias_restores_board ki5 gs (pcb_basename : string) (F_Cu B_Cu : Z)
    (IsOnLayer : PlotCu.Track -> Z -> bool) la (filelist : list (string * string))
    (via_t : Z) (via_c : string) (b : PlotCu.Pcb) :
  NoDup (PlotCu.object_ids b) -> NoDup (PlotCu.pad_ids b) ->
  PlotCu.plot_vias ki5 gs pcb_basename F_Cu B_Cu IsOnLayer la filelist via_t via_c b
  = (b,
     filelist ++ [(pcb_basename +:+ "-" +:+ (PlotCu.suffix la +:+ "_vias_" +:+ pretty via_t)
                   +:+ ".svg", via_c)],
     snd (PlotCu.plot_vias_hide ki5 gs F_Cu B_Cu IsOnLayer la via_t b)).
Proof.
  intros Hnd Hnp.
  pose proof (plot_vias_back ki5 gs F_Cu B_Cu IsOnLayer la via_t b Hnd Hnp) as B.
  unfold PlotCu.plot_vias.
  destruct (PlotCu.plot_vias_hide ki5 gs F_Cu B_Cu IsOnLayer la via_t b) as [u shown].
  cbn [fst snd] in *. rewrite B. reflexivity.
Qed.

(** X24.  The board that [plot_vias] plots has on the layer nothing but
    vias: no graphic, drawing, zone or track is on it and no pad has it; a
    via of another type has width zero; a via of the type that is on the
    layer is untouched, and one that is not on the layer has its old drill
    as width, drill one, and spans from [F_Cu] to [B_Cu]. *)
Theorem plot_vias_shows_vias ki5 gs (F_Cu B_Cu : Z) (IsOnLayer : PlotCu.Track -> Z -> bool)
    la (via_t : Z) (b : PlotCu.Pcb) :
  PlotCu.pcb_GetLayerID b (work_layer gs) <> PlotCu._id la ->
  let id := PlotCu._id la in
  let shown := snd (PlotCu.plot_vias_hide ki5 gs F_Cu B_Cu IsOnLayer la via_t b) in
  Forall (fun m => Forall (fun g => gi_layer g <> id) (PlotCu.fp_items m)
                   /\ Forall (fun p => id ∉ PlotCu.pad_layers p) (PlotCu.fp_pads m))
    (PlotCu.pcb_modules shown)
  /\ Forall (fun g => gi_layer g <> id) (PlotCu.pcb_drawings shown)
  /\ Forall (fun z => PlotCu.zone_layer z <> id) (PlotCu.pcb_zones shown)
  /\ Forall2 (fun t t' =>
                if PlotCu.is_via ki5 t then
                  PlotCu.is_via ki5 t' = true
                  /\ PlotCu.tr_via_type t' = PlotCu.tr_via_type t
                  /\ (PlotCu.tr_via_type t <> via_t -> PlotCu.tr_width t' = 0)
                  /\ (PlotCu.tr_via_type t = via_t -> IsOnLayer t id = true -> t' = t)
                  /\ (PlotCu.tr_via_type t = via_t -> IsOnLayer t id = false ->
                      PlotCu.tr_width t' = PlotCu.tr_drill t /\ PlotCu.tr_drill t' = 1
                      /\ PlotCu.tr_top t' = F_Cu /\ PlotCu.tr_bottom t' = B_Cu)
                else PlotCu.is_via ki5 t' = false /\ PlotCu.tr_layer t' <> id)
       (PlotCu.pcb_tracks b) (PlotCu.pcb_tracks shown).
Proof.
  intros Hne id shown. subst shown. unfold PlotCu.plot_vias_hide.
  cbn [snd PlotCu.pcb_modules PlotCu.pcb_drawings PlotCu.pcb_zones PlotCu.pcb_tracks].
  fold id. set (tmp := PlotCu.pcb_GetLayerID b (work_layer gs)) in *.
  split; [|split; [|split]].
  - apply Forall_map_all. intros m _. cbn [PlotCu.hide_module PlotCu.fp_items PlotCu.fp_pads].
    split.
    + apply Forall_map_all. intros g _. apply clear_item_off, Hne.
    + apply Forall_map_all. intros p _ Hin.
      destruct (hide_pad_off false id p Hin) as (Hk & _). discriminate.
  - apply Forall_map_all. intros g _. apply clear_item_off, Hne.
  - apply Forall_map_all. intros z _. apply hide_zone_off, Hne.
  - apply Forall2_map_self. intros t _. unfold PlotCu.vias_hide_track.
    destruct (PlotCu.is_via ki5 t) eqn:Hv.
    + destruct (Z.eqb_spec (PlotCu.tr_via_type t) via_t) as [E|E].
      * destruct (IsOnLayer t id) eqn:Hon; cbn [negb].
        -- split; [exact Hv|]. split; [reflexivity|]. split; [contradiction|].
           split; [reflexivity|]. intros _ H. discriminate.
        -- split; [exact Hv|]. split; [reflexivity|]. split; [contradiction|].
           split; [intros _ H; discriminate|]. intros _ _. repeat split.
      * split; [exact Hv|]. split; [reflexivity|]. split; [reflexivity|].
        split; intros H; contradiction.
    + unfold PlotCu.is_via in *. rewrite hide_plain_track_class. split; [exact Hv|].
      apply hide_plain_track_off, Hne.
Qed.

(** X25.  [plot_extra_cu] leaves the board as it found it.  On a copper
    layer it adds one file when the pads are coloured and three when the
    vias are, on another layer none; and every one of its plots starts
    from the board as it was. *)
Theorem plot_extra_cu_restores_board ki5 gs (pcb_basename : string) (F_Cu B_Cu : Z)
    (THROUGH BLIND_BURIED MICROVIA : Z) (IsOnLayer : PlotCu.Track -> Z -> bool)
    self (id : Z) la (filelist : list (string * string)) (b : PlotCu.Pcb) :
  NoDup (PlotCu.object_ids b) -> NoDup (PlotCu.pad_ids b) ->
  let '(b', filelist', shown) :=
    PlotCu.plot_extra_cu ki5 gs pcb_basename F_Cu B_Cu THROUGH BLIND_BURIED MICROVIA
      IsOnLayer self id la filelist b in
  let copper := (id >=? F_Cu) && (id <=? B_Cu) in
  let vias_shown t := snd (PlotCu.plot_vias_hide ki5 gs F_Cu B_Cu IsOnLayer la t b) in
  b' = b
  /\ (exists added,
        filelist' = filelist ++ added
        /\ map snd added
           = (if copper && PlotCu.colored_pads self then [PlotCu.pad_color self] else [])
             ++ (if copper && PlotCu.colored_vias self
                 then [PlotCu.via_color self; PlotCu.blind_via_color self;
                       PlotCu.micro_via_color self]
                 else []))
  /\ shown
     = (if copper && PlotCu.colored_pads self
        then [snd (PlotCu.plot_pads_hide ki5 gs la b)] else [])
       ++ (if copper && PlotCu.colored_vias self
           then [vias_shown THROUGH; vias_shown BLIND_BURIED; vias_shown MICROVIA]
           else []).
Proof.
  intros Hnd Hnp. unfold PlotCu.plot_extra_cu.
  assert (P : forall fl, PlotCu.plot_pads ki5 gs pcb_basename self la fl b
                = (b, fl ++ [(pcb_basename +:+ "-" +:+ (PlotCu.suffix la +:+ "_pads") +:+ ".svg",
                              PlotCu.pad_color self)],
                   snd (PlotCu.plot_pads_hide ki5 gs la b))).
  { intros fl. pose proof (plot_pads_back ki5 gs la b Hnd Hnp) as B. unfold PlotCu.plot_pads.
    destruct (PlotCu.plot_pads_hide ki5 gs la b) as [u s]. cbn [fst snd] in *.
    rewrite B. reflexivity. }
  assert (V : forall fl t c,
             PlotCu.plot_vias ki5 gs pcb_basename F_Cu B_Cu IsOnLayer la fl t c b
             = (b, fl ++ [(pcb_basename +:+ "-" +:+ (PlotCu.suffix la +:+ "_vias_" +:+ pretty t)
                           +:+ ".svg", c)],
                snd (PlotCu.plot_vias_hide ki5 gs F_Cu B_Cu IsOnLayer la t b))).
  { intros fl t c. pose proof (plot_vias_back ki5 gs F_Cu B_Cu IsOnLayer la t b Hnd Hnp) as B.
    unfold PlotCu.plot_vias.
    destruct (PlotCu.plot_vias_hide ki5 gs F_Cu B_Cu IsOnLayer la t b) as [u s].
    cbn [fst snd] in *. rewrite B. reflexivity. }
  destruct ((id >=? F_Cu) && (id <=? B_Cu)); cbn [andb].
  - destruct (PlotCu.colored_pads self); destruct (PlotCu.colored_vias self);
      rewrite ?P, ?V; cbn zeta; rewrite ?P, ?V; cbn zeta; rewrite ?V; cbn zeta; rewrite ?V;
      (split; [reflexivity|]); (split; [|reflexivity]).
    + eexists. split; [rewrite <- !app_assoc; reflexivity|reflexivity].
    + eexists. split; [reflexivity|reflexivity].
    + eexists. split; [rewrite <- !app_assoc; reflexivity|reflexivity].
    + exists []. split; [rewrite app_nil_r; reflexivity|reflexivity].
  - split; [reflexivity|]. split; [|reflexivity].
    exists []. split; [rewrite app_nil_r; reflexivity|reflexivity].
Qed.

(** A small board with copper: a footprint with an item on the front
    copper, a surface pad and a drilled pad; a drawing and a zone on the
    front copper; a track, a through via, a blind via between inner
    layers and a micro via. *)
Definition sample_pcb : PlotCu.Pcb :=
  PlotCu.mkPcb
    [ PlotCu.mkFp
        [ mkGItem 1 "MTEXT" 0 "R1" (mkRect 0 0 10 5);
          mkGItem 2 "MGRAPHIC" 49 "" (mkRect 0 0 10 5) ]
        [ PlotCu.mkPad 1 0 {[ 0; 35; 39 ]};
          PlotCu.mkPad 2 800000 {[ 0; 31; 38; 39 ]} ] ]
    [ mkGItem 3 "PTEXT" 0 "top" (mkRect 0 0 20 4) ]
    [ PlotCu.mkZone 4 0; PlotCu.mkZone 5 31 ]
    [ PlotCu.mkTrack 6 "PCB_TRACK" 0 0 250000 0 0 0;
      PlotCu.mkTrack 7 "PCB_VIA" 0 400000 800000 3 0 31;
      PlotCu.mkTrack 8 "PCB_VIA" 1 300000 600000 2 1 2;
      PlotCu.mkTrack 9 "PCB_VIA" 0 100000 300000 1 0 1 ]
    (fun name => if String.eqb name "Rescue" then 50 else 0).

Definition sample_la : PlotCu.LayerOpt := PlotCu.mkLayerOpt 0 "F_Cu".

Definition sample_cu_options : PlotCu.CuOptions :=
  PlotCu.mkCuOptions true true "#B3B300" "#7F7F7F" "#A5A500" "#00A5A5".

(** A via is on the layers from its top to its bottom. *)
Definition sample_IsOnLayer (t : PlotCu.Track) (l : Z) : bool :=
  (PlotCu.tr_top t <=? l) && (l <=? PlotCu.tr_bottom t).

Lemma sample_pcb_ids : NoDup (PlotCu.object_ids sample_pcb).
Proof. apply (bool_decide_unpack _). vm_compute. exact I. Qed.

Lemma sample_pcb_pads : NoDup (PlotCu.pad_ids sample_pcb).
Proof. apply (bool_decide_unpack _). vm_compute. exact I. Qed.

Lemma plot_pads_restores_board_witness :
  let '(b, filelist, shown) :=
    PlotCu.plot_pads false sample_globals "amp" sample_cu_options sample_la [] sample_pcb in
  b = sample_pcb /\ filelist = [("amp-F_Cu_pads.svg", "#B3B300")]
  /\ map PlotCu.tr_width (PlotCu.pcb_tracks shown) = [250000; 0; 0; 0].
Proof.
  rewrite (plot_pads_restores_board false sample_globals "amp" sample_cu_options sample_la []
             sample_pcb sample_pcb_ids sample_pcb_pads).
  split; [reflexivity|]. split; reflexivity.
Defined.

Lemma plot_pads_shows_drilled_pads_witness :
  Forall (fun t => if PlotCu.is_via false t
                   then PlotCu.tr_drill t = 0 /\ PlotCu.tr_width t = 0
                   else PlotCu.tr_layer t <> 0)
    (PlotCu.pcb_tracks (snd (PlotCu.plot_pads_hide false sample_globals sample_la sample_pcb))).
Proof.
  refine (proj2 (proj2 (proj2 (plot_pads_shows_drilled_pads false sample_globals sample_la
                                 sample_pcb _)))).
  vm_compute. discriminate.
Defined.

Lemma plot_vias_restores_board_witness :
  let '(b, filelist, shown) :=
    PlotCu.plot_vias false sample_globals "amp" 0 31 sample_IsOnLayer sample_la [] 2 "#A5A500"
      sample_pcb in
  b = sample_pcb /\ filelist = [("amp-F_Cu_vias_2.svg", "#A5A500")]
  /\ map PlotCu.tr_width (PlotCu.pcb_tracks shown) = [250000; 0; 300000; 0]
  /\ map PlotCu.tr_bottom (PlotCu.pcb_tracks shown) = [0; 31; 31; 1].
Proof.
  rewrite (plot_vias_restores_board false sample_globals "amp" 0 31 sample_IsOnLayer sample_la []
             2 "#A5A500" sample_pcb sample_pcb_ids sample_pcb_pads).
  split; [reflexivity|]. split; [reflexivity|]. split; reflexivity.
Defined.

Lemma plot_vias_shows_vias_witness :
  Forall (fun m => Forall (fun g => gi_layer g <> 0) (PlotCu.fp_items m)
                   /\ Forall (fun p => 0 ∉ PlotCu.pad_layers p) (PlotCu.fp_pads m))
    (PlotCu.pcb_modules
       (snd (PlotCu.plot_vias_hide false sample_globals 0 31 sample_IsOnLayer sample_la 3
               sample_pcb))).
Proof.
  refine (proj1 (plot_vias_shows_vias false sample_globals 0 31 sample_IsOnLayer sample_la 3
                   sample_pcb _)).
  vm_compute. discriminate.
Defined.

Lemma plot_extra_cu_restores_board_witness :
  let '(b, filelist, shown) :=
    PlotCu.plot_extra_cu false sample_globals "amp" 0 31 3 2 1 sample_IsOnLayer
      sample_cu_options 0 sample_la [("amp-F_Cu.svg", "#C83434")] sample_pcb in
  b = sample_pcb /\ length filelist = 5%nat /\ length shown = 4%nat.
Proof.
  pose proof (plot_extra_cu_restores_board false sample_globals "amp" 0 31 3 2 1
                sample_IsOnLayer sample_cu_options 0 sample_la [("amp-F_Cu.svg", "#C83434")]
                sample_pcb sample_pcb_ids sample_pcb_pads) as T.
  destruct (PlotCu.plot_extra_cu false sample_globals "amp" 0 31 3 2 1 sample_IsOnLayer
              sample_cu_options 0 sample_la [("amp-F_Cu.svg", "#C83434")] sample_pcb)
    as [[b fl] shown].
  destruct T as (Hb & (added & -> & Hc) & ->). split; [exact Hb|].
  split; [|reflexivity].
  rewrite length_app. apply (f_equal length) in Hc. rewrite length_map in Hc. rewrite Hc.
  reflexivity.
Defined.

(** * Options on the command line *)

(** [attr2longopt] *)
Definition attr2longopt (attr : string) : string := "--" +:+ PyStr.replace "_" "-" attr.

(** Whether a character is in a string. *)
Fixpoint has_char (c : ascii) (s : string) : bool :=
  match s with
  | "" => false
  | String a r => Ascii.eqb a c || has_char c r
  end.

(** What [replace('_', '-')] makes of one character. *)
Definition dash (c : ascii) : ascii := if Ascii.eqb "_" c then "-"%char else c.

Lemma replace_underscore_cons (c : ascii) (r : string) :
  PyStr.replace "_" "-" (String c r) = String (dash c) (PyStr.replace "_" "-" r).
Proof.
  unfold PyStr.replace, dash. cbn [PyStr.replace_from PyStr.strip_prefix].
  destruct (Ascii.eqb "_" c); reflexivity.
Qed.

Lemma dash_inj (c d : ascii) : c <> "-"%char -> d <> "-"%char -> dash c = dash d -> c = d.
Proof.
  unfold dash. intros Hc Hd.
  destruct (Ascii.eqb_spec "_"%char c) as [<-|Nc];
    destruct (Ascii.eqb_spec "_"%char d) as [<-|Nd]; intros E; congruence.
Qed.

Lemma replace_underscore_length (s : string) :
  String.length (PyStr.replace "_" "-" s) = String.length s.
Proof.
  induction s as [|c r IH]; [reflexivity|].
  rewrite replace_underscore_cons. cbn [String.length]. rewrite IH. reflexivity.
Qed.

Lemma replace_underscore_none (s : string) :
  has_char "_" (PyStr.replace "_" "-" s) = false.
Proof.
  induction s as [|c r IH]; [reflexivity|].
  rewrite replace_underscore_cons. cbn [has_char]. rewrite IH, orb_false_r.
  unfold dash. destruct (Ascii.eqb_spec "_"%char c) as [E|E]; [reflexivity|].
  apply Ascii.eqb_neq. congruence.
Qed.

Lemma replace_underscore_inj (s t : string) :
  has_char "-" s = false -> has_char "-" t = false ->
  PyStr.replace "_" "-" s = PyStr.replace "_" "-" t -> s = t.
Proof.
  revert t. induction s as [|c r IH]; intros [|d u] Hs Ht E.
  - reflexivity.
  - rewrite replace_underscore_cons in E. discriminate.
  - rewrite replace_underscore_cons in E. discriminate.
  - rewrite !replace_underscore_cons in E. injection E as Ec Er.
    cbn [has_char] in Hs, Ht.
    apply orb_false_iff in Hs as [Hc Hs]. apply orb_false_iff in Ht as [Hd Ht].
    rewrite (IH u Hs Ht Er). f_equal.
    apply Ascii.eqb_neq in Hc, Hd. exact (dash_inj c d Hc Hd Ec).
Qed.

(** X26.  The long option of an attribute is the attribute behind two
    dashes with every underscore turned into a dash: it has two characters
    more, has no underscore, and two attributes without a dash in their
    names never get the same option. *)
Theorem attr2longopt_option (attr : string) :
  PyStr.strip_prefix "--" (attr2longopt attr) = Some (PyStr.replace "_" "-" attr)
  /\ String.length (attr2longopt attr) = (String.length attr + 2)%nat
  /\ has_char "_" (attr2longopt attr) = false
  /\ (has_char "_" attr = false -> attr2longopt attr = "--" +:+ attr)
  /\ (forall other, has_char "-" attr = false -> has_char "-" other = false ->
                    attr2longopt attr = attr2longopt other -> attr = other).
Proof.
  unfold attr2longopt. split; [reflexivity|]. split; [|split; [|split]].
  - rewrite length_app_str, replace_underscore_length. cbn. lia.
  - rewrite !app_cons, app_nil_left. cbn [has_char Ascii.eqb Bool.eqb orb].
    apply replace_underscore_none.
  - intros H. f_equal. induction attr as [|c r IH]; [reflexivity|].
    rewrite replace_underscore_cons. cbn [has_char] in H.
    apply orb_false_iff in H as [Hc H]. rewrite (IH H).
    unfold dash. destruct (Ascii.eqb_spec "_"%char c) as [E|E]; [|reflexivity].
    subst c. discriminate.
  - intros other Ha Ho E. rewrite !app_cons, !app_nil_left in E. injection E as E.
    exact (replace_underscore_inj _ _ Ha Ho E).
Qed.

(** * The variables of the frame *)

(** What [fill_kicad_vars] reads besides its arguments: the versions, the
    title block as [GS.load_pcb_title_block] leaves it, the title of the
    board, the name of the file and the paper. *)
Record FrameData := mkFrameData {
  kicad_version : string;
  kibot_version : string;
  pcb_com : list string;
  pcb_comp : string;
  pcb_date : string;
  pcb_rev : string;
  GetTitle : string;
  fr_pcb_basename : string;
  paper : string
}.

(** [for num in range(9): vars['COMMENT'+str(num+1)] = GS.pcb_com[num]] *)
Definition comment_loop (com : list string) (vars : gmap string string)
    : result (gmap string string) :=
  foldl (fun acc num =>
           vars ← acc;
           match com !! num with
           | Some c => Ok (<["COMMENT" +:+ pretty (num + 1)%nat := c]> vars)
           | None => Raise IndexError
           end)
        (Ok vars) (seq 0 9).

(** The loop over [p.layers]. *)
Definition layer_loop (layers : list string) : string :=
  foldl (fun layer la =>
           let layer := if (0 <? String.length layer)%nat then layer +:+ "+" else layer in
           layer +:+ la)
        "" layers.

(** [fill_kicad_vars]: [sheet] is [p.sheet], [layers] the names of
    [p.layers]. *)
Definition fill_kicad_vars (d : FrameData) (page pages : Z) (sheet : string)
    (layers : list string) : result (gmap string string) :=
  let vars : gmap string string := ∅ in
  let vars :=
    <["KICAD_VERSION" := "KiCad E.D.A. " +:+ kicad_version d +:+ " + KiBot v" +:+ kibot_version d]>
      vars in
  let vars := <["#" := pretty page]> vars in
  let vars := <["##" := pretty pages]> vars in
  vars ← comment_loop (pcb_com d) vars;
  let vars := <["COMPANY" := pcb_comp d]> vars in
  let vars := <["ISSUE_DATE" := pcb_date d]> vars in
  let vars := <["REVISION" := pcb_rev d]> vars in
  let vars := <["TITLE" := GetTitle d]> vars in
  let vars := <["FILENAME" := fr_pcb_basename d +:+ ".kicad_pcb"]> vars in
  let vars := <["SHEETNAME" := sheet]> vars in
  let vars := <["LAYER" := layer_loop layers]> vars in
  let vars := <["PAPER" := paper d]> vars in
  Ok vars.

(** [sep.join(l)] *)
Fixpoint join (sep : string) (l : list string) : string :=
  match l with
  | [] => ""
  | [a] => a
  | a :: rest => a +:+ sep +:+ join sep rest
  end.

(** The list without the empty strings at its front. *)
Fixpoint drop_empty (l : list string) : list string :=
  match l with
  | "" :: rest => drop_empty rest
  | _ => l
  end.

Lemma layer_fold_nonempty (layers : list string) (c : ascii) (acc : string) :
  foldl (fun layer la =>
           let layer := if (0 <? String.length layer)%nat then layer +:+ "+" else layer in
           layer +:+ la)
        (String c acc) layers
  = join "+" (String c acc :: layers).
Proof.
  revert c acc. induction layers as [|la rest IH]; intros c acc; [reflexivity|].
  cbn [foldl]. cbn zeta. cbn [String.length Nat.ltb Nat.leb]. rewrite !app_cons.
  rewrite IH. cbn [join]. destruct rest as [|x rest].
  - rewrite <- !app_cons, app_assoc_str. reflexivity.
  - rewrite <- !app_cons, !app_assoc_str. reflexivity.
Qed.

Lemma layer_loop_join (layers : list string) :
  layer_loop layers = join "+" (drop_empty layers).
Proof.
  unfold layer_loop. induction layers as [|la rest IH]; [reflexivity|].
  cbn [foldl]. cbn zeta. cbn [String.length Nat.ltb Nat.leb]. rewrite app_nil_left.
  destruct la as [|c la]; [exact IH|].
  rewrite layer_fold_nonempty. reflexivity.
Qed.

Lemma drop_empty_none (l : list string) : Forall (fun s => s <> "") l -> drop_empty l = l.
Proof. intros H. destruct H as [|[|c s] l H _]; [reflexivity|contradiction|reflexivity]. Qed.

Lemma comment_loop_short (com : list string) (vars : gmap string string) :
  (length com < 9)%nat -> comment_loop com vars = Raise IndexError.
Proof.
  intros H. unfold comment_loop.
  do 9 (destruct com as [|? com]; [reflexivity|]). cbn in H. lia.
Qed.

Lemma comment_loop_ok (com : list string) (vars : gmap string string) :
  (9 <= length com)%nat ->
  exists vars', comment_loop com vars = Ok vars'
    /\ (forall n, (n < 9)%nat -> vars' !! ("COMMENT" +:+ pretty (n + 1)%nat) = com !! n)
    /\ (forall k, (forall n, (n < 9)%nat -> k <> "COMMENT" +:+ pretty (n + 1)%nat) ->
                  vars' !! k = vars !! k).
Proof.
  intros H. unfold comment_loop.
  do 9 (destruct com as [|? com]; [cbn in H; lia|]).
  eexists. split; [reflexivity|]. split.
  - intros n Hn. do 9 (destruct n as [|n]; [vm_compute pretty; cbn [lookup list_lookup];
      repeat (rewrite lookup_insert_ne by discriminate); apply lookup_insert_eq|]). lia.
  - intros k Hk.
    pose proof (Hk 0%nat ltac:(lia)) as H0. pose proof (Hk 1%nat ltac:(lia)) as H1.
    pose proof (Hk 2%nat ltac:(lia)) as H2. pose proof (Hk 3%nat ltac:(lia)) as H3.
    pose proof (Hk 4%nat ltac:(lia)) as H4. pose proof (Hk 5%nat ltac:(lia)) as H5.
    pose proof (Hk 6%nat ltac:(lia)) as H6. pose proof (Hk 7%nat ltac:(lia)) as H7.
    pose proof (Hk 8%nat ltac:(lia)) as H8.
    repeat (rewrite lookup_insert_ne; [|intros E; symmetry in E; revert E; assumption]).
    reflexivity.
Qed.

(** X27.  [fill_kicad_vars] needs the nine comments of the title block
    and fails on the index when there are fewer.  Otherwise [LAYER] is the
    names of the layers of the page joined by [+], empty names at the
    front left out; [COMMENT1] to [COMMENT9] are the comments in their
    order; [#] and [##] are the two page numbers in decimal; and the title
    and the sheet are those given. *)
Theorem fill_kicad_vars_values (d : FrameData) (page pages : Z) (sheet : string)
    (layers : list string) :
  ((length (pcb_com d) < 9)%nat ->
   fill_kicad_vars d page pages sheet layers = Raise IndexError)
  /\ ((9 <= length (pcb_com d))%nat ->
      exists vars,
        fill_kicad_vars d page pages sheet layers = Ok vars
        /\ vars !! "LAYER" = Some (join "+" (drop_empty layers))
        /\ (Forall (fun s => s <> "") layers -> vars !! "LAYER" = Some (join "+" layers))
        /\ (forall n, (n < 9)%nat ->
                      vars !! ("COMMENT" +:+ pretty (n + 1)%nat) = pcb_com d !! n)
        /\ vars !! "#" = Some (pretty page)
        /\ vars !! "##" = Some (pretty pages)
        /\ vars !! "TITLE" = Some (GetTitle d)
        /\ vars !! "SHEETNAME" = Some sheet).
Proof.
  split.
  - intros H. unfold fill_kicad_vars. cbn zeta. rewrite (comment_loop_short _ _ H). reflexivity.
  - intros H. unfold fill_kicad_vars. cbn zeta.
    set (vars0 := <["##" := pretty pages]> (<["#" := pretty page]> _)).
    destruct (comment_loop_ok (pcb_com d) vars0 H) as (vars' & E & Hcom & Hother).
    rewrite E. cbn [mbind result_bind rbind]. eexists. split; [reflexivity|].
    assert (Hl : forall v : gmap string string,
               <["PAPER" := paper d]> (<["LAYER" := layer_loop layers]> v) !! "LAYER"
               = Some (join "+" (drop_empty layers))).
    { intros v. rewrite lookup_insert_ne by discriminate.
      rewrite lookup_insert_eq, layer_loop_join. reflexivity. }
    assert (Hne : forall n, "#" <> "COMMENT" +:+ pretty (n + 1)%nat
                            /\ "##" <> "COMMENT" +:+ pretty (n + 1)%nat).
    { intros n. split; intros E'; rewrite app_cons in E'; discriminate. }
    split; [apply Hl|]. split; [intros Hf; rewrite Hl, (drop_empty_none _ Hf); reflexivity|].
    split; [|split; [|split; [|split]]].
    + intros n Hn. rewrite <- (Hcom n Hn).
      do 9 (destruct n as [|n];
            [vm_compute pretty; repeat (rewrite lookup_insert_ne by discriminate); reflexivity|]).
      lia.
    + repeat (rewrite lookup_insert_ne by discriminate).
      rewrite Hother by (intros n _; apply Hne). subst vars0.
      rewrite lookup_insert_ne by discriminate. apply lookup_insert_eq.
    + repeat (rewrite lookup_insert_ne by discriminate).
      rewrite Hother by (intros n _; apply Hne). subst vars0. apply lookup_insert_eq.
    + repeat (rewrite lookup_insert_ne by discriminate). apply lookup_insert_eq.
    + repeat (rewrite lookup_insert_ne by discriminate). apply lookup_insert_eq.
Qed.

(** * [pre_run_drc.py]: the rules check *)

Module RunDRC.

(** How [run] ends: it comes back, or logs an error and leaves with a code. *)
Inductive outcome : Type :=
  | Returns
  | Exits (logged : string) (code : Z).

(** What [run] reads of [GS] and of the preflights. *)
Record Config := mkConfig {
  filter_file : option string;
  global_drc_exclusions_workaround : bool;
  ignore_unconnected : bool;
  pcb_file : string;
  out_dir : string
}.

Section Run.

(** [DRC_ERROR] of kibot/error, and the two functions of kibot/kiplot
    that complete the command and run it (none among the sources). *)
Variable DRC_ERROR : Z.
Variable add_extra_options : list string -> list string * bool.
Variable exec_with_retry : list string -> Z.

(** The command before [add_extra_options]. *)
Definition command_line (command output : string) (c : Config) : list string :=
  let cmd := [command; "run_drc"; "-o"; output] in
  let cmd :=
    match filter_file c with
    | Some f => if String.eqb f "" then cmd else cmd ++ ["-f"; f]
    | None => cmd
    end in
  let cmd := if global_drc_exclusions_workaround c then cmd ++ ["-F"] else cmd in
  let cmd := if ignore_unconnected c then cmd ++ ["-i"] else cmd in
  cmd ++ [pcb_file c; out_dir c].

(** [if ret:] and what follows. *)
Definition report (ret : Z) : outcome :=
  if ret =? 0 then Returns
  else
    let ret := if ret >? 127 then - (256 - ret) else ret in
    if ret <? 0 then Exits ("DRC errors: " +:+ pretty (- ret)) DRC_ERROR
    else Exits ("DRC returned " +:+ pretty ret) DRC_ERROR.

(** [run], from the name of the tool and of the report on; the video
    that the tool may leave is not represented. *)
Definition run (command output : string) (c : Config) : outcome :=
  let cmd := command_line command output c in
  let '(cmd, video_remove) := add_extra_options cmd in
  let ret := exec_with_retry cmd in
  report ret.

End Run.

End RunDRC.

(** The status the system hands over for a process that left with
    [code]: its lowest eight bits. *)
Definition exit_status (code : Z) : Z := code mod 256.

(** X28.  [run] comes back only when the tool returns zero; otherwise it
    leaves with [DRC_ERROR].  A tool that leaves with minus the number of
    errors is read back right for 1 to 128 errors; for 129 to 255 errors
    the status is taken for a plain return value and the count is not
    reported. *)
Theorem run_drc_reads_status (DRC_ERROR : Z) (add_extra_options : list string -> list string * bool)
    (exec_with_retry : list string -> Z) (command output : string) (c : RunDRC.Config) :
  let cmd := fst (add_extra_options (RunDRC.command_line command output c)) in
  let result := RunDRC.run DRC_ERROR add_extra_options exec_with_retry command output c in
  (result = RunDRC.Returns <-> exec_with_retry cmd = 0)
  /\ (forall n, 1 <= n <= 128 -> exec_with_retry cmd = exit_status (- n) ->
                result = RunDRC.Exits ("DRC errors: " +:+ pretty n) DRC_ERROR)
  /\ (forall n, 129 <= n <= 255 -> exec_with_retry cmd = exit_status (- n) ->
                result = RunDRC.Exits ("DRC returned " +:+ pretty (256 - n)) DRC_ERROR).
Proof.
  intros cmd result. subst cmd result. unfold RunDRC.run.
  destruct (add_extra_options (RunDRC.command_line command output c)) as [cmd v].
  cbn [fst]. unfold RunDRC.report, exit_status. split; [|split].
  - destruct (Z.eqb_spec (exec_with_retry cmd) 0) as [E|E]; [tauto|].
    split; [|contradiction].
    destruct (_ <? 0); discriminate.
  - intros n Hn ->.
    replace (- n mod 256) with (256 - n) by (apply (Z.mod_unique _ _ (-1)); lia).
    destruct (Z.eqb_spec (256 - n) 0) as [E|_]; [lia|].
    destruct (Z.gtb_spec (256 - n) 127) as [_|G]; [|lia].
    destruct (Z.ltb_spec (- (256 - (256 - n))) 0) as [_|G]; [|lia].
    do 3 f_equal. lia.
  - intros n Hn ->.
    replace (- n mod 256) with (256 - n) by (apply (Z.mod_unique _ _ (-1)); lia).
    destruct (Z.eqb_spec (256 - n) 0) as [E|_]; [lia|].
    destruct (Z.gtb_spec (256 - n) 127) as [G|_]; [lia|].
    destruct (Z.ltb_spec (256 - n) 0) as [G|_]; [lia|]. reflexivity.
Qed.

(** * The targets of a print *)

(** ['%02d' % k] for [k >= 0]: a zero in front of a single digit. *)
Definition fmt_02d (k : nat) : string :=
  if (k <? 10)%nat then "0" +:+ pretty k else pretty k.

Section Targets.

(** [self.expand_filename] and [self._parent.expand_filename] of
    kibot/optionable and of the output (not modelled further). *)
Context {Page : Type}.
Variable expand_filename : string -> string -> string -> string -> string.
Variable parent_expand_filename : string -> string -> string.

(** The identifier of page [n], counted from zero. *)
Definition page_id (_expand_id : string) (n : nat) : string :=
  _expand_id +:+ ("_page_" +:+ fmt_02d (n + 1)).

(** [get_targets] of [PCB_PrintOptions]. *)
Definition get_targets (format : string) (pages : list Page) (output _expand_id _expand_ext : string)
    (out_dir : string) : list string :=
  if bool_decide (format ∈ ["SVG"; "PNG"; "EPS"]) then
    map (fun n => expand_filename out_dir output (page_id _expand_id n) _expand_ext)
        (seq 0 (length pages))
  else [parent_expand_filename out_dir output].

End Targets.

Lemma pretty_N_go_leading (x : N) :
  forall s, (0 < x)%N -> exists c r, pretty_N_go x s = String c r /\ c <> "0"%char.
Proof.
  induction (N.lt_wf_0 x) as [x _ IH]. intros s Hx.
  rewrite pretty_N_go_step by exact Hx.
  destruct (decide (x `div` 10 = 0)%N) as [E|E].
  - rewrite E, pretty_N_go_0. eexists _, _. split; [reflexivity|].
    assert (Hlt : (x < 10)%N).
    { destruct (N.lt_ge_cases x 10) as [L|G]; [exact L|].
      assert (0 < x `div` 10)%N by (apply N.div_str_pos; lia). lia. }
    rewrite N.mod_small by exact Hlt.
    assert (x = 1 \/ x = 2 \/ x = 3 \/ x = 4 \/ x = 5 \/ x = 6 \/ x = 7 \/ x = 8 \/ x = 9)%N
      as H by lia.
    destruct H as [->|[->|[->|[->|[->|[->|[->|[->| ->]]]]]]]]; discriminate.
  - apply IH; [apply N.div_lt; lia|apply N.neq_0_lt_0, E].
Qed.

Lemma pretty_nat_leading (k : nat) :
  (0 < k)%nat -> exists c r, pretty k = String c r /\ c <> "0"%char.
Proof.
  intros Hk. unfold pretty, pretty_nat, pretty, pretty_N.
  destruct (decide (N.of_nat k = 0%N)) as [E|E]; [lia|].
  apply pretty_N_go_leading. lia.
Qed.

Lemma app_inv_head_str (s t1 t2 : string) : s +:+ t1 = s +:+ t2 -> t1 = t2.
Proof.
  induction s as [|a s IH]; [rewrite !app_nil_left; auto|].
  rewrite !app_cons. intros H. injection H as H. exact (IH H).
Qed.

Lemma fmt_02d_inj (a b : nat) : (0 < a)%nat -> (0 < b)%nat -> fmt_02d a = fmt_02d b -> a = b.
Proof.
  intros Ha Hb. unfold fmt_02d.
  destruct (Nat.ltb_spec a 10) as [La|La]; destruct (Nat.ltb_spec b 10) as [Lb|Lb]; intros E.
  - apply app_inv_head_str in E. exact (pretty_nat_inj _ _ E).
  - destruct (pretty_nat_leading b Hb) as (c & r & Eb & Hc). rewrite Eb in E.
    rewrite app_cons in E. injection E as E _. congruence.
  - destruct (pretty_nat_leading a Ha) as (c & r & Ea & Hc). rewrite Ea in E.
    rewrite app_cons in E. injection E as E _. congruence.
  - exact (pretty_nat_inj _ _ E).
Qed.

Lemma page_id_inj (e : string) (n m : nat) : page_id e n = page_id e m -> n = m.
Proof.
  unfold page_id. intros H. apply app_inv_head_str, app_inv_head_str in H.
  apply fmt_02d_inj in H; lia.
Qed.

(** X29.  For the formats [SVG], [PNG] and [EPS], [get_targets] gives one
    target for each page, in the order of the pages and none when there
    is no page, each named by the identifier followed by [_page_] and the
    number of the page in two digits at least; no two pages have the same
    identifier, so the targets are all different when the expansion keeps
    identifiers apart.  For any other format there is exactly one target. *)
Theorem get_targets_one_for_each_page {Page : Type}
    (expand_filename : string -> string -> string -> string -> string)
    (parent_expand_filename : string -> string -> string)
    (format : string) (pages : list Page) (output _expand_id _expand_ext out_dir : string) :
  let targets :=
    get_targets expand_filename parent_expand_filename format pages output _expand_id
      _expand_ext out_dir in
  (format ∈ ["SVG"; "PNG"; "EPS"] ->
   length targets = length pages
   /\ (forall n, (n < length pages)%nat ->
         targets !! n
         = Some (expand_filename out_dir output
                   (_expand_id +:+ ("_page_" +:+ fmt_02d (n + 1))) _expand_ext))
   /\ NoDup (map (page_id _expand_id) (seq 0 (length pages)))
   /\ ((forall a b, expand_filename out_dir output a _expand_ext
                    = expand_filename out_dir output b _expand_ext -> a = b) ->
       NoDup targets))
  /\ (format ∉ ["SVG"; "PNG"; "EPS"] -> targets = [parent_expand_filename out_dir output]).
Proof.
  intros targets. subst targets. unfold get_targets. split.
  - intros Hf. rewrite bool_decide_eq_true_2 by exact Hf.
    assert (Hids : NoDup (map (page_id _expand_id) (seq 0 (length pages)))).
    { assert (Inj (=) (=) (page_id _expand_id)) by (intros n m; apply page_id_inj).
      change (map ?f ?l) with (f <$> l). apply (NoDup_fmap_2 _), NoDup_seq. }
    split; [rewrite length_map, length_seq; reflexivity|]. split; [|split; [exact Hids|]].
    + intros n Hn. change (map ?f ?l) with (f <$> l). rewrite list_lookup_fmap.
      rewrite lookup_seq_lt by exact Hn. reflexivity.
    + intros Hinj.
      assert (Inj (=) (=) (fun n => expand_filename out_dir output (page_id _expand_id n)
                                      _expand_ext)).
      { intros n m E. apply Hinj in E. exact (page_id_inj _ _ _ E). }
      change (map ?f ?l) with (f <$> l). apply (NoDup_fmap_2 _), NoDup_seq.
  - intros Hf. rewrite bool_decide_eq_false_2 by exact Hf. reflexivity.
Qed.

(** ** The dictionary of the components *)

Lemma refs_dict_snoc (comps : list Component) (c : Component) :
  refs_dict (comps ++ [c]) = <[ref c := c]> (refs_dict comps).
Proof. unfold refs_dict. rewrite foldl_app. reflexivity. Qed.

Lemma refs_dict_last (comps : list Component) (k : string) :
  refs_dict comps !! k = last (filter (fun c => ref c = k) comps).
Proof.
  induction comps as [|c comps IH] using rev_ind; [reflexivity|].
  rewrite refs_dict_snoc, filter_app, filter_cons, filter_nil.
  destruct (decide (ref c = k)) as [E|E].
  - rewrite E, lookup_insert_eq, last_snoc. reflexivity.
  - rewrite lookup_insert_ne by exact E. rewrite app_nil_r. exact IH.
Qed.

(** X30.  [get_refs_hash] gives nothing when the object has no
    components.  Otherwise its dictionary has, for every reference, the
    last component of the list with that reference: every component is
    found under its reference unless a later one has the same, and a
    reference that no component has is not a key. *)
Theorem get_refs_hash_last_wins (self : VariantOptions) :
  (no_comps self = true -> get_refs_hash self = None)
  /\ (no_comps self = false ->
      exists h, get_refs_hash self = Some h
        /\ (forall k, h !! k = last (filter (fun c => ref c = k) (comps_list self)))
        /\ (forall k, is_Some (h !! k) <-> k ∈ map ref (comps_list self))
        /\ (NoDup (map ref (comps_list self)) ->
            forall c, c ∈ comps_list self -> h !! ref c = Some c)).
Proof.
  unfold get_refs_hash. split; intros H; rewrite H; [reflexivity|].
  eexists. split; [reflexivity|]. split; [exact (refs_dict_last _)|]. split.
  - intros k. rewrite refs_dict_last. split.
    + intros [c Hc]. apply last_Some in Hc as [l Hl].
      assert (Hin : c ∈ filter (fun c => ref c = k) (comps_list self))
        by (rewrite Hl; apply elem_of_app; right; left).
      apply list_elem_of_filter in Hin as [Hr Hin]. rewrite <- Hr.
      apply list_elem_of_In, in_map, list_elem_of_In, Hin.
    + intros Hk. apply list_elem_of_In, in_map_iff in Hk as (c & Hr & Hin).
      apply list_elem_of_In in Hin.
      assert (Hf : c ∈ filter (fun c => ref c = k) (comps_list self))
        by (apply list_elem_of_filter; split; assumption).
      destruct (filter (fun c => ref c = k) (comps_list self)) as [|a l] using rev_ind;
        [inversion Hf|].
      rewrite last_snoc. eauto.
  - intros Hnd c Hc. exact (refs_dict_unique _ _ Hnd Hc).
Qed.
